(** * HW3 / Problem 2: a classifier head on a frozen BERT encoder (IMDB)

    A shallow embedding of the notebook [HW3/Problem2.ipynb].  The notebook is
    glue around [torch], [transformers], [datasets] and [sklearn]; the
    embedding follows it cell by cell.  What the libraries compute
    numerically (word pieces, the encoder, the loss, gradients, Adam, random
    permutations) is kept behind the interface [Imports]; what the notebook
    decides itself (arguments, shapes, loops, accumulators, which parameters
    are frozen) is written out.

    Conventions.
    - Python [int] is [Z] where values matter (token ids, labels, indices) and
      [nat] for counters that only grow from zero.
    - Python [float] tensors are lists over an abstract scalar type [F]
      (class [Scalar]); no theorem below depends on rounding.
    - [a / b] on two Python ints is the exact quotient in [Q].
    - A Python [dict] with string keys is a [gmap string _].
    - Exceptions are values of [exn]; code that may raise returns [result].
    - The class shares of the stratified split, which numpy computes in
      float64, are computed exactly. *)

From Stdlib Require Import QArith.
From stdpp Require Import gmap strings list fin_maps sorting.
Close Scope Q_scope.

(* ===================================================================== *)
(** * Part I: the embedding                                               *)
(* ===================================================================== *)

(** ** Python: exceptions, indexing, true division *)

Inductive exn := IndexError | KeyError | ZeroDivisionError | RuntimeError | ValueError.

Inductive result (A : Type) : Type :=
| Ok (a : A)
| Raise (e : exn).
Arguments Ok {A} a.
Arguments Raise {A} e.

#[global] Instance result_ret : MRet result := λ A a, Ok a.
#[global] Instance result_bind : MBind result := λ A B f m,
  match m with
  | Ok a => f a
  | Raise e => Raise e
  end.
#[global] Instance result_fmap : FMap result := λ A B f m,
  match m with
  | Ok a => Ok (f a)
  | Raise e => Raise e
  end.

Definition is_Ok {A} (r : result A) : Prop := ∃ a, r = Ok a.

#[global] Instance exn_eq_dec : EqDecision exn.
Proof. solve_decision. Defined.
#[global] Instance result_eq_dec {A} `{!EqDecision A} : EqDecision (result A).
Proof. solve_decision. Defined.

(** [l[i]] on a Python list: negative indices count from the end, anything
    outside [-len, len) raises [IndexError]. *)
Definition py_index {A} (l : list A) (i : Z) : result A :=
  let n := Z.of_nat (length l) in
  let j := if (i <? 0)%Z then (n + i)%Z else i in
  if (j <? 0)%Z then Raise IndexError
  else match l !! Z.to_nat j with
       | Some x => Ok x
       | None => Raise IndexError
       end.

(** [d[k]] on a Python dict. *)
Definition py_getitem {V} (d : gmap string V) (k : string) : result V :=
  match d !! k with
  | Some v => Ok v
  | None => Raise KeyError
  end.

(** [a / b] on two non-negative Python ints. *)
Definition py_truediv (a b : nat) : result Q :=
  match b with
  | O => Raise ZeroDivisionError
  | S _ => Ok (Z.of_nat a # Pos.of_nat b)%Q
  end.

(** A dict comprehension [{k: f(k, v) for k, v in d.items()}] whose body may
    raise. *)
Definition dict_comprehension {V W} (f : string → V → result W)
    (d : gmap string V) : result (gmap string W) :=
  map_fold (λ k v acc, out ← acc; w ← f k v; mret (<[k := w]> out)) (Ok ∅) d.

(** ** Floating point and the imported libraries *)

(** Scalars of float tensors and Python floats.  Only the operations the
    notebook's own code applies are named. *)
Class Scalar (F : Type) := {
  f_zero : F;
  f_add : F → F → F;
  f_mul : F → F → F;
  f_ltb : F → F → bool;
  f_div : F → nat → F;
}.

(** Parameters are named by their place in the module tree:
    [bert.<name>] and [classifier.<i>.weight], [classifier.<i>.bias]. *)
Inductive linear_field := weight | bias.
Inductive pname :=
| bert_param (name : string)
| classifier_param (i : nat) (field : linear_field).

#[global] Instance linear_field_eq_dec : EqDecision linear_field.
Proof. solve_decision. Defined.
#[global] Instance linear_field_countable : Countable linear_field.
Proof.
  refine (inj_countable' (λ f, match f with weight => true | bias => false end)
                         (λ b : bool, if b then weight else bias) _).
  by intros [].
Defined.
#[global] Instance pname_eq_dec : EqDecision pname.
Proof. solve_decision. Defined.
#[global] Instance pname_countable : Countable pname.
Proof.
  refine (inj_countable'
    (λ p, match p with
          | bert_param s => inl s
          | classifier_param i f => inr (i, f)
          end)
    (λ x : string + nat * linear_field,
       match x with
       | inl s => bert_param s
       | inr (i, f) => classifier_param i f
       end) _).
  by intros [].
Defined.

(** The imported libraries, as far as the notebook calls into them. *)
Class Imports (F : Type) := {
  (** [transformers.BertTokenizer]: word-piece ids of a text under the
      pretrained vocabulary, special tokens not yet added. *)
  wordpiece : string → list Z;
  (** [BertModel.from_pretrained]: the pretrained weights by name. *)
  bert_pretrained : gmap string (list F);
  (** [BertModel.forward(...).pooler_output] on a batch, given the encoder's
      current weights and the [training] flag. *)
  bert_pooler_output :
    (string → list F) → bool → list (list Z) → list (list Z) → list (list F);
  (** [nn.Linear]'s initialisation of a weight or bias with [n] entries. *)
  linear_reset_parameters : nat → linear_field → nat → list F;
  (** [nn.CrossEntropyLoss()(logits, labels)]. *)
  cross_entropy : list (list F) → list Z → F;
  (** autograd: the gradient of that loss with respect to a parameter. *)
  autograd_grad :
    (pname → list F) → list (list Z) → list (list Z) → list Z → pname → list F;
  (** One Adam update ([lr=1e-4], default betas) of a parameter: from the
      step number, the data, the gradient and both moment estimates to the
      new data and moments. *)
  adam_update :
    nat → list F → list F → list F → list F → list F * list F * list F;
  (** The state of a torch random generator (the default one, or one made
      by [torch.Generator()]), seeding, a draw of a 64-bit integer
      ([torch.empty((), dtype=torch.int64).random_(generator=g).item()]),
      and [torch.randperm]. *)
  generator : Type;
  manual_seed : Z → generator;
  random_ : generator → Z * generator;
  randperm : generator → nat → list nat * generator;
}.

(** ** Cell 1: device selection *)

Inductive device_type := cuda | mps | cpu.

(** What the machine offers: [torch.cuda.is_available()] and
    [torch.backends.mps.is_available()]. *)
Record machine := {
  cuda_is_available : bool;
  mps_is_available : bool;
}.

(** [device = torch.device('cuda' if torch.cuda.is_available() else 'mps')] *)
Definition device (m : machine) : device_type :=
  if cuda_is_available m then cuda else mps.

(** The comment above that line, taken at its word:
    "Use MPS on macOS if available, else GPU if available, else CPU". *)
Definition device_as_commented (m : machine) : device_type :=
  if mps_is_available m then mps
  else if cuda_is_available m then cuda
  else cpu.

(** ** Cell 3: the train/validation split

    [train_test_split(train_texts, train_labels, test_size=0.1,
    random_state=42, stratify=train_labels)] is scikit-learn's.  The
    embedding follows the path this call takes through
    [sklearn.model_selection._split]: [_validate_shuffle_split],
    [StratifiedShuffleSplit._iter_indices], [_approximate_mode] and
    [_safe_indexing].  numpy's random generator stays behind the interface
    [NumpyRandom]. *)

(** [_validate_shuffle_split] with a float [test_size] and no [train_size]:
    [n_test = ceil(test_size * n_samples)], [n_train = n_samples - n_test];
    here [test_size = 0.1]. *)
Definition n_test (n_samples : nat) : nat := (n_samples + 9) / 10.
Definition n_train (n_samples : nat) : nat := n_samples - n_test n_samples.












Section Split.
Context `{!NumpyRandom}.









End Split.



(** ** Cell 4: the tokenizer call

    [BertTokenizer.from_pretrained("bert-base-uncased", do_lower_case=True)]
    is the library's; [wordpiece] (below, in [Imports]) stands for the ids it
    assigns to a text before special tokens.  What the notebook fixes is the
    call: [max_length], [padding] and [truncation]. *)

Definition cls_token_id : Z := 101.
Definition sep_token_id : Z := 102.
Definition pad_token_id : Z := 0.

Inductive padding_strategy := do_not_pad | longest | to_max_length.

Section Tokenizer.
Context {F : Type} `{!Imports F}.

(** One text: truncate to leave room for [[CLS]] and [[SEP]], then add them. *)
Definition encode (max_length : nat) (truncation : bool) (text : string) : list Z :=
  let ids := wordpiece text in
  let ids := if truncation then take (max_length - 2) ids else ids in
  cls_token_id :: ids ++ [sep_token_id].

Definition pad_width (max_length : nat) (padding : padding_strategy)
    (encoded : list (list Z)) : nat :=
  match padding with
  | do_not_pad => 0
  | longest => max_list (length <$> encoded)
  | to_max_length => max_length
  end.

(** Right padding: a sequence already at least [width] long is left alone. *)
Definition pad (width : nat) (fill : Z) (ids : list Z) : list Z :=
  ids ++ replicate (width - length ids) fill.

(** [tokenizer(texts, max_length=..., padding=..., truncation=...)]: a
    [BatchEncoding] with the three keys of a BERT tokenizer. *)
Definition tokenizer (texts : list string) (max_length : nat)
    (padding : padding_strategy) (truncation : bool) : gmap string (list (list Z)) :=
  let encoded := encode max_length truncation <$> texts in
  let width := pad_width max_length padding encoded in
  {[ "input_ids" := pad width pad_token_id <$> encoded;
     "token_type_ids" := (λ ids, pad width 0%Z (replicate (length ids) 0%Z)) <$> encoded;
     "attention_mask" := (λ ids, pad width 0%Z (replicate (length ids) 1%Z)) <$> encoded ]}.

Definition MAX_LENGTH : nat := 256.

(** [def tokenize_function(texts)] *)
Definition tokenize_function (texts : list string) : gmap string (list (list Z)) :=
  tokenizer texts MAX_LENGTH to_max_length true.
End Tokenizer.

(** ** Cell 5: the dataset *)

(** Integer tensors: what [torch.tensor] makes of one example's fields, and
    what [default_collate] stacks them into. *)
Inductive tensor :=
| scalar (z : Z)
| vector (v : list Z).

Inductive batch_tensor :=
| batch_vector (v : list Z)
| batch_matrix (rows : list (list Z)).

Record IMDbDataset := {
  encodings : gmap string (list (list Z));
  labels : list Z;
}.

(** [def __getitem__(self, idx)] *)
Definition __getitem__ (self : IMDbDataset) (idx : Z) : result (gmap string tensor) :=
  item ← dict_comprehension (λ _ v, x ← py_index v idx; mret (vector x)) (encodings self);
  l ← py_index (labels self) idx;
  mret (<["labels" := scalar l]> item).

(** [def __len__(self)] *)
Definition __len__ (self : IMDbDataset) : nat := length (labels self).

(** ** Cell 8: data loaders

    [DataLoader(dataset, batch_size=..., shuffle=...)] with the library's
    defaults: [drop_last=False], a [RandomSampler] when [shuffle] is true and
    a [SequentialSampler] otherwise, [default_collate] to stack the items. *)

Definition SequentialSampler (n : nat) : list nat := seq 0 n.

(** [BatchSampler.__iter__]: indices are appended to [batch]; a full batch
    is yielded and a new one started; what is left at the end is yielded
    unless [drop_last]. *)
Fixpoint BatchSampler (sampler : list nat) (batch_size : nat) (drop_last : bool)
    (batch : list nat) : list (list nat) :=
  match sampler with
  | [] => if bool_decide (0 < length batch) && negb drop_last then [batch] else []
  | idx :: sampler =>
      let batch := batch ++ [idx] in
      if bool_decide (length batch = batch_size)
      then batch :: BatchSampler sampler batch_size drop_last []
      else BatchSampler sampler batch_size drop_last batch
  end.

(** [torch.stack] on the fields of the items of a batch: scalars to a vector,
    vectors of one common length to a matrix. *)
Definition stack (ts : list tensor) : result batch_tensor :=
  match ts with
  | [] => Raise RuntimeError
  | scalar _ :: _ =>
      batch_vector <$> mapM (λ t, match t with
                                  | scalar z => Ok z
                                  | vector _ => Raise RuntimeError
                                  end) ts
  | vector v0 :: _ =>
      batch_matrix <$> mapM (λ t, match t with
                                  | vector v =>
                                      if bool_decide (length v = length v0) then Ok v
                                      else Raise RuntimeError
                                  | scalar _ => Raise RuntimeError
                                  end) ts
  end.

(** [default_collate] on a list of dicts:
    [{key: default_collate([d[key] for d in batch]) for key in batch[0]}]. *)
Definition default_collate (batch : list (gmap string tensor))
    : result (gmap string batch_tensor) :=
  elem ← py_index batch 0;
  dict_comprehension (λ key _, ts ← mapM (λ d, py_getitem d key) batch; stack ts) elem.

Record DataLoader := {
  dataset : IMDbDataset;
  batch_size : nat;
  shuffle : bool;
}.

(** [DataLoader(dataset, batch_size=..., shuffle=...)], the constructor: the
    [BatchSampler] it builds refuses a batch size that is not positive, and
    the [RandomSampler] it builds when [shuffle] is true refuses an empty
    dataset ([num_samples should be a positive integer value]). *)
Definition DataLoader_init (dataset : IMDbDataset) (batch_size : nat) (shuffle : bool)
    : result DataLoader :=
  if shuffle && bool_decide (__len__ dataset = 0) then Raise ValueError
  else if bool_decide (batch_size = 0) then Raise ValueError
  else Ok {| dataset := dataset; batch_size := batch_size; shuffle := shuffle |}.

(** [len(loader)], from [BatchSampler.__len__] without [drop_last]. *)
Definition DataLoader_len (loader : DataLoader) : nat :=
  (__len__ (dataset loader) + batch_size loader - 1) / batch_size loader.

(** One batch of a loader: fetch the items at the batch's indices, collate. *)
Definition fetch (loader : DataLoader) (indices : list nat)
    : result (gmap string batch_tensor) :=
  items ← mapM (λ idx, __getitem__ (dataset loader) (Z.of_nat idx)) indices;
  default_collate items.

(** [batch['input_ids']], [batch['attention_mask']]: a [B x L] tensor is
    what the model takes; [batch['labels']]: a [B] tensor. *)
Definition as_matrix (t : batch_tensor) : result (list (list Z)) :=
  match t with
  | batch_matrix rows => Ok rows
  | batch_vector _ => Raise RuntimeError
  end.

Definition as_vector (t : batch_tensor) : result (list Z) :=
  match t with
  | batch_vector v => Ok v
  | batch_matrix _ => Raise RuntimeError
  end.

(** ** Cell 6: the model *)

Inductive layer :=
| Linear (in_features out_features : nat)
| ReLU.

Section Model.
Context {F : Type} `{!Scalar F} `{!Imports F}.

Record nn_Parameter := {
  data : list F;
  requires_grad : bool;
  grad : option (list F);
}.

Record CustomBERTModel := {
  classifier : list layer;
  named_parameters : gmap pname nn_Parameter;
  training : bool;
}.

(** A fresh parameter: [requires_grad=True], no gradient yet. *)
Definition new_parameter (w : list F) : nn_Parameter :=
  {| data := w; requires_grad := true; grad := None |}.

(** [param.requires_grad = False] *)
Definition freeze (p : nn_Parameter) : nn_Parameter :=
  {| data := data p; requires_grad := false; grad := grad p |}.

(** [self.bert = BertModel.from_pretrained(pretrained_model_name)] *)
Definition BertModel_from_pretrained : gmap pname nn_Parameter :=
  kmap bert_param (new_parameter <$> bert_pretrained).

(** The parameters [nn.Linear(in_features, out_features)] registers when it
    is the [i]-th module of the [Sequential]. *)
Definition Linear_parameters (i in_features out_features : nat) : gmap pname nn_Parameter :=
  {[ classifier_param i weight :=
       new_parameter (linear_reset_parameters i weight (out_features * in_features));
     classifier_param i bias :=
       new_parameter (linear_reset_parameters i bias out_features) ]}.

Fixpoint Sequential_parameters (i : nat) (layers : list layer) : gmap pname nn_Parameter :=
  match layers with
  | [] => ∅
  | Linear in_features out_features :: layers =>
      Linear_parameters i in_features out_features ∪ Sequential_parameters (S i) layers
  | ReLU :: layers => Sequential_parameters (S i) layers
  end.

(** [def __init__(self, pretrained_model_name="bert-base-uncased", num_classes=2)] *)
Definition __init__ (num_classes : nat) : CustomBERTModel :=
  let bert := BertModel_from_pretrained in
  let bert := freeze <$> bert in
  let classifier :=
    [ Linear 768 512; ReLU;
      Linear 512 256; ReLU;
      Linear 256 128; ReLU;
      Linear 128 num_classes ] in
  {| classifier := classifier;
     named_parameters := bert ∪ Sequential_parameters 0 classifier;
     training := true |}.

(** The values of a parameter as the forward pass reads them. *)
Definition weights (params : gmap pname nn_Parameter) (name : pname) : list F :=
  match params !! name with
  | Some p => data p
  | None => []
  end.

Definition dot (w x : list F) : F :=
  foldl f_add f_zero (zip_with f_mul w x).

(** [F.linear(x, W, b)] on one row: [x W^T + b] with [W] stored row-major as
    [out_features] rows of [in_features] entries; a row of another width is
    a shape error. *)
Definition Linear_forward (W b : list F) (in_features out_features : nat)
    (x : list F) : result (list F) :=
  if bool_decide (length x = in_features)
  then Ok ((λ j, f_add (dot (take in_features (drop (j * in_features) W)) x)
                       (default f_zero (b !! j)))
           <$> seq 0 out_features)
  else Raise RuntimeError.

Definition relu (x : F) : F := if f_ltb x f_zero then f_zero else x.

(** [nn.Sequential.forward] on a batch of rows, [i] the index of the first
    layer of [layers] in the container. *)
Fixpoint Sequential_forward (params : gmap pname nn_Parameter) (i : nat)
    (layers : list layer) (x : list (list F)) : result (list (list F)) :=
  match layers with
  | [] => Ok x
  | Linear in_features out_features :: layers =>
      y ← mapM (Linear_forward (weights params (classifier_param i weight))
                               (weights params (classifier_param i bias))
                               in_features out_features) x;
      Sequential_forward params (S i) layers y
  | ReLU :: layers =>
      Sequential_forward params (S i) layers (map (map relu) x)
  end.

(** [def forward(self, input_ids, attention_mask, labels=None)] *)
Definition forward (self : CustomBERTModel) (input_ids attention_mask : list (list Z))
    : result (list (list F)) :=
  let pooled_output :=
    bert_pooler_output (λ name, weights (named_parameters self) (bert_param name))
                       (training self) input_ids attention_mask in
  let logits := Sequential_forward (named_parameters self) 0 (classifier self) pooled_output in
  logits.

(** [model.train()] and [model.eval()] *)
Definition set_training (self : CustomBERTModel) (mode : bool) : CustomBERTModel :=
  {| classifier := classifier self; named_parameters := named_parameters self; training := mode |}.

End Model.

Arguments nn_Parameter F : clear implicits.
Arguments CustomBERTModel F : clear implicits.

(** ** Python: loops and float division *)

(** [for x in xs: body], the body updating the loop's variables or raising. *)
Fixpoint for_each {S A} (body : S → A → result S) (s : S) (xs : list A) : result S :=
  match xs with
  | [] => Ok s
  | x :: xs => s ← body s x; for_each body s xs
  end.

(** ** Cell 9: loss and optimizer *)

Section Optimizer.
Context {F : Type} `{!Scalar F} `{!Imports F}.

(** [total / n] with a float on the left and an int on the right. *)
Definition float_truediv (total : F) (n : nat) : result F :=
  match n with
  | O => Raise ZeroDivisionError
  | S _ => Ok (f_div total n)
  end.

(** [criterion = nn.CrossEntropyLoss()] applied to [B x C] logits and [B]
    class indices: the batch sizes must agree and every target must be a
    class index or the default [ignore_index = -100]. *)
Definition criterion (logits : list (list F)) (labels : list Z) : result F :=
  if bool_decide (length logits = length labels) then
    if bool_decide (Forall2 (λ (row : list F) (l : Z),
                       l = (-100)%Z ∨ (0 ≤ l < Z.of_nat (length row))%Z) logits labels)
    then Ok (cross_entropy logits labels)
    else Raise IndexError
  else Raise ValueError.

(** [trainable_params = [p for p in model.parameters() if p.requires_grad]] *)
Definition trainable_params (model : CustomBERTModel F) : list pname :=
  (filter (λ np, requires_grad np.2 = true) (map_to_list (named_parameters model))).*1.

(** [sum(p.numel() for p in trainable_params)], which cell 9 prints. *)
Definition number_of_trainable_parameters (model : CustomBERTModel F) : nat :=
  sum_list ((λ name, length (weights (named_parameters model) name))
            <$> trainable_params model).

Record AdamState := {
  step : nat;
  exp_avg : list F;
  exp_avg_sq : list F;
}.

(** The optimizer refers to the parameters it was given (here by name) and
    keeps a state for each one it has updated. *)
Record Adam := {
  param_groups : list pname;
  state : gmap pname AdamState;
}.

(** [optimizer = optim.Adam(trainable_params, lr=1e-4)] *)
Definition optim_Adam (params : list pname) : Adam :=
  {| param_groups := params; state := ∅ |}.

Definition with_named_parameters (model : CustomBERTModel F)
    (params : gmap pname (nn_Parameter F)) : CustomBERTModel F :=
  {| classifier := classifier model; named_parameters := params;
     training := training model |}.

(** [optimizer.zero_grad()]: the gradients of the optimizer's parameters are
    reset. *)
Definition zero_grad (opt : Adam) (model : CustomBERTModel F) : CustomBERTModel F :=
  with_named_parameters model
    (foldr (λ name params,
              alter (λ p, {| data := data p; requires_grad := requires_grad p;
                             grad := None |}) name params)
           (named_parameters model) (param_groups opt)).

Definition accumulate (old : option (list F)) (g : list F) : list F :=
  match old with
  | None => g
  | Some g0 => zip_with f_add g0 g
  end.

(** [loss.backward()]: every parameter with [requires_grad] receives the
    gradient of the loss (added to what it holds); the others are not
    touched. *)
Definition backward (model : CustomBERTModel F) (input_ids attention_mask : list (list Z))
    (labels : list Z) : CustomBERTModel F :=
  let params := named_parameters model in
  with_named_parameters model
    (map_imap (λ name p,
       Some (if requires_grad p
             then {| data := data p; requires_grad := true;
                     grad := Some (accumulate (grad p)
                                     (autograd_grad (weights params) input_ids
                                        attention_mask labels name)) |}
             else p)) params).

(** [Adam.step] for one parameter of the group: skipped when it has no
    gradient, otherwise its data and its state entry are replaced. *)
Definition Adam_step_param (acc : gmap pname (nn_Parameter F) * gmap pname AdamState)
    (name : pname) : gmap pname (nn_Parameter F) * gmap pname AdamState :=
  let '(params, state) := acc in
  match params !! name with
  | None => acc
  | Some p =>
      match grad p with
      | None => acc
      | Some g =>
          let st := default {| step := 0;
                               exp_avg := replicate (length (data p)) f_zero;
                               exp_avg_sq := replicate (length (data p)) f_zero |}
                            (state !! name) in
          let '(d, m, v) := adam_update (S (step st)) (data p) g (exp_avg st) (exp_avg_sq st) in
          (<[name := {| data := d; requires_grad := requires_grad p; grad := grad p |}]> params,
           <[name := {| step := S (step st); exp_avg := m; exp_avg_sq := v |}]> state)
      end
  end.

(** [optimizer.step()] *)
Definition Adam_step (opt : Adam) (model : CustomBERTModel F) : Adam * CustomBERTModel F :=
  let '(params, state) :=
    foldl Adam_step_param (named_parameters model, state opt) (param_groups opt) in
  ({| param_groups := param_groups opt; state := state |},
   with_named_parameters model params).

(** ** Accuracy: argmax and compare *)

(** The position of the first maximal entry of a row, scanning left to
    right from position [i] with [best] at [best_i] so far. *)
Fixpoint argmax_from (best : F) (best_i i : nat) (row : list F) : nat :=
  match row with
  | [] => best_i
  | x :: row =>
      if f_ltb best x then argmax_from x i (S i) row
      else argmax_from best best_i (S i) row
  end.

Definition argmax (row : list F) : result Z :=
  match row with
  | [] => Raise IndexError
  | x :: row => Ok (Z.of_nat (argmax_from x 0 1 row))
  end.

(** [torch.argmax(logits, dim=1)] *)
Definition argmax_dim1 (logits : list (list F)) : result (list Z) :=
  mapM argmax logits.

(** [(preds == labels).sum().item()] on two 1-d tensors; a tensor with one
    entry is broadcast against the other. *)
Definition eq_sum (preds labels : list Z) : result nat :=
  let count := λ pairs : list (Z * Z), length (filter (λ pl, pl.1 = pl.2) pairs) in
  if bool_decide (length preds = length labels) then Ok (count (zip preds labels))
  else match preds, labels with
       | [p], _ => Ok (count ((λ l, (p, l)) <$> labels))
       | _, [l] => Ok (count ((λ p, (p, l)) <$> preds))
       | _, _ => Raise RuntimeError
       end.

End Optimizer.

Arguments AdamState F : clear implicits.
Arguments Adam F : clear implicits.

(** ** Cells 10 to 12: training, test evaluation, inference *)

Section Cells.
Context {F : Type} `{!Scalar F} `{!Imports F}.

(** What the cells print, one constructor per [print] call. *)
Inductive output :=
| print_epoch (epoch epochs : nat)
| print_train (avg_train_loss : F) (train_acc : Q)
| print_val (avg_val_loss : F) (val_acc : Q)
| print_rule
| print_test_accuracy (test_acc : Q) (total_test_examples : nat)
| print_predictions (predictions : list Z)
| print_review (text sentiment : string).

(** The objects the cells share: the model, the optimizer (which refers to
    the model's parameters), torch's random generator, and standard output. *)
Record program := {
  model : CustomBERTModel F;
  optimizer : Adam F;
  default_generator : generator;
  stdout : list output;
}.

(** [for batch in loader]: every new iterator first draws its base seed
    from the default generator [g].  With [shuffle], the [RandomSampler]
    then draws a seed from the default generator, seeds a generator of its
    own with it and takes a [randperm] of the indices from that one;
    without, the indices come in order.  The order is cut into batches.
    What is returned is the batches of the pass and the default generator
    after it. *)
Definition iter (loader : DataLoader) (g : generator) : list (list nat) * generator :=
  let n := __len__ (dataset loader) in
  let '(_base_seed, g) := random_ g in
  let '(sampler, g) :=
    if shuffle loader
    then let '(seed, g) := random_ g in
         ((randperm (manual_seed seed) n).1, g)
    else (SequentialSampler n, g) in
  (BatchSampler sampler (batch_size loader) false [], g).

(** The three tensors every loop body reads from a batch. *)
Definition unpack (batch : gmap string batch_tensor)
    : result (list (list Z) * list (list Z) * list Z) :=
  input_ids ← py_getitem batch "input_ids" ≫= as_matrix;
  attention_mask ← py_getitem batch "attention_mask" ≫= as_matrix;
  labels ← py_getitem batch "labels" ≫= as_vector;
  mret (input_ids, attention_mask, labels).

(** [preds = torch.argmax(logits, dim=1); correct = (preds == labels).sum().item()] *)
Definition count_correct (logits : list (list F)) (labels : list Z) : result nat :=
  preds ← argmax_dim1 logits;
  eq_sum preds labels.

Definition EPOCHS : nat := 2.

(** The loop's variables in the training part of an epoch. *)
Record train_vars := {
  tv_model : CustomBERTModel F;
  tv_optimizer : Adam F;
  total_train_loss : F;
  total_train_correct : nat;
  total_examples : nat;
}.

(** The body of [for batch in train_loader]. *)
Definition train_body (train_loader : DataLoader) (vars : train_vars)
    (indices : list nat) : result train_vars :=
  batch ← fetch train_loader indices;
  '(input_ids, attention_mask, labels) ← unpack batch;
  let model := zero_grad (tv_optimizer vars) (tv_model vars) in
  logits ← forward model input_ids attention_mask;
  loss ← criterion logits labels;
  let model := backward model input_ids attention_mask labels in
  let '(optimizer, model) := Adam_step (tv_optimizer vars) model in
  correct ← count_correct logits labels;
  mret {| tv_model := model;
          tv_optimizer := optimizer;
          total_train_loss := f_add (total_train_loss vars) loss;
          total_train_correct := total_train_correct vars + correct;
          total_examples := total_examples vars + length labels |}.

(** The loop's variables in the validation part of an epoch. *)
Record val_vars := {
  total_val_loss : F;
  total_val_correct : nat;
  total_val_examples : nat;
}.

(** The body of [for batch in val_loader], under [torch.no_grad()]. *)
Definition val_body (model : CustomBERTModel F) (val_loader : DataLoader)
    (vars : val_vars) (indices : list nat) : result val_vars :=
  batch ← fetch val_loader indices;
  '(input_ids, attention_mask, labels) ← unpack batch;
  logits ← forward model input_ids attention_mask;
  loss ← criterion logits labels;
  correct ← count_correct logits labels;
  mret {| total_val_loss := f_add (total_val_loss vars) loss;
          total_val_correct := total_val_correct vars + correct;
          total_val_examples := total_val_examples vars + length labels |}.

(** The body of [for epoch in range(EPOCHS)]. *)
Definition epoch_body (train_loader val_loader : DataLoader) (prog : program)
    (epoch : nat) : result program :=
  let model := set_training (model prog) true in
  let '(batches, g) := iter train_loader (default_generator prog) in
  vars ← for_each (train_body train_loader)
           {| tv_model := model; tv_optimizer := optimizer prog;
              total_train_loss := f_zero; total_train_correct := 0;
              total_examples := 0 |} batches;
  avg_train_loss ← float_truediv (total_train_loss vars) (DataLoader_len train_loader);
  train_acc ← py_truediv (total_train_correct vars) (total_examples vars);
  let model := set_training (tv_model vars) false in
  let '(batches, g) := iter val_loader g in
  vvars ← for_each (val_body model val_loader)
            {| total_val_loss := f_zero; total_val_correct := 0;
               total_val_examples := 0 |} batches;
  avg_val_loss ← float_truediv (total_val_loss vvars) (DataLoader_len val_loader);
  val_acc ← py_truediv (total_val_correct vvars) (total_val_examples vvars);
  mret {| model := model;
          optimizer := tv_optimizer vars;
          default_generator := g;
          stdout := stdout prog ++
            [ print_epoch (epoch + 1) EPOCHS;
              print_train avg_train_loss train_acc;
              print_val avg_val_loss val_acc;
              print_rule ] |}.

(** Cell 10. *)
Definition training_loop (train_loader val_loader : DataLoader) (prog : program)
    : result program :=
  for_each (epoch_body train_loader val_loader) prog (seq 0 EPOCHS).

(** The loop variables and the body of [for batch in test_loader]. *)
Record test_vars := {
  total_test_correct : nat;
  total_test_examples : nat;
}.

Definition test_body (model : CustomBERTModel F) (test_loader : DataLoader)
    (vars : test_vars) (indices : list nat) : result test_vars :=
  batch ← fetch test_loader indices;
  '(input_ids, attention_mask, labels) ← unpack batch;
  logits ← forward model input_ids attention_mask;
  correct ← count_correct logits labels;
  mret {| total_test_correct := total_test_correct vars + correct;
          total_test_examples := total_test_examples vars + length labels |}.

(** Cell 11. *)
Definition test_evaluation (test_loader : DataLoader) (prog : program) : result program :=
  let model := set_training (model prog) false in
  let '(batches, g) := iter test_loader (default_generator prog) in
  vars ← for_each (test_body model test_loader)
           {| total_test_correct := 0; total_test_examples := 0 |} batches;
  test_acc ← py_truediv (total_test_correct vars) (total_test_examples vars);
  mret {| model := model;
          optimizer := optimizer prog;
          default_generator := g;
          stdout := stdout prog ++
            [ print_test_accuracy test_acc (total_test_examples vars) ] |}.

(** [sentiment = "POSITIVE" if pred == 1 else "NEGATIVE"] *)
Definition sentiment (pred : Z) : string :=
  if bool_decide (pred = 1%Z) then "POSITIVE" else "NEGATIVE".

(** Cell 12. *)
Definition inference (example_texts : list string) (prog : program) : result program :=
  let model := set_training (model prog) false in
  let tokens := tokenizer example_texts 256 to_max_length true in
  input_ids ← py_getitem tokens "input_ids";
  attention_mask ← py_getitem tokens "attention_mask";
  logits ← forward model input_ids attention_mask;
  predictions ← argmax_dim1 logits;
  mret {| model := model;
          optimizer := optimizer prog;
          default_generator := default_generator prog;
          stdout := stdout prog ++
            print_predictions predictions ::
            ((λ tp, print_review tp.1 (sentiment tp.2)) <$> zip example_texts predictions) |}.

(** Cells 6 to 9: the model, the three loaders over given datasets, the
    optimizer over the trainable parameters, the seed. *)
Definition SEED : Z := 42.

(** The loader [DataLoader(ds, batch_size=8, shuffle=...)] returns, when it
    returns (see [DataLoader_init]). *)
Definition make_loader (ds : IMDbDataset) (shuffle : bool) : DataLoader :=
  {| dataset := ds; batch_size := 8; shuffle := shuffle |}.

Definition setup : program :=
  let model := __init__ 2 in
  let trainable_params := trainable_params model in
  let optimizer := optim_Adam trainable_params in
  {| model := model; optimizer := optimizer;
     default_generator := manual_seed SEED; stdout := [] |}.

End Cells.

Arguments output F : clear implicits.
Arguments program F {_}.
Arguments train_vars F : clear implicits.

(** ** Vocabulary of the statements below *)

(** Cells 4 and 5 together, as the notebook builds each of its datasets:
    [IMDbDataset(tokenize_function(texts), labels)]. *)
Definition tokenized_dataset {F : Type} `{!Imports F} (texts : list string)
    (labels : list Z) : IMDbDataset :=
  {| encodings := tokenize_function texts; labels := labels |}.

(** An item of such a dataset: the label, and a vector of [MAX_LENGTH]
    entries under each of the tokenizer's three keys and nowhere else. *)
Definition tokenizer_keys_list : list string :=
  ["input_ids"; "token_type_ids"; "attention_mask"].

Definition well_formed_item (l : Z) (item : gmap string tensor) : Prop :=
  item !! "labels" = Some (scalar l) ∧
  ∀ k, k ≠ "labels" →
    if bool_decide (k ∈ tokenizer_keys_list)
    then ∃ x, item !! k = Some (vector x) ∧ length x = MAX_LENGTH
    else item !! k = None.

(** What a loader yields for a batch of indices: the three tensors the
    loop bodies read. *)
Definition yields {F : Type} `{!Imports F} (loader : DataLoader) (indices : list nat)
    (input_ids attention_mask : list (list Z)) (labels : list Z) : Prop :=
  ∃ batch, fetch loader indices = Ok batch ∧
           unpack batch = Ok (input_ids, attention_mask, labels).

(** The batches of one pass over a loader holding [n] examples: there are
    [len(loader)] of them, none is empty or larger than [batch_size], all
    but the last are full, the last holds the remainder, and each one is
    fetched as one row and one label per index. *)
Definition batches_of_pass {F : Type} `{!Imports F} (loader : DataLoader) (n : nat)
    (batches : list (list nat)) : Prop :=
  length batches = DataLoader_len loader ∧
  DataLoader_len loader = (n + 7) / 8 ∧
  Forall (λ b, 1 ≤ length b ≤ 8) batches ∧
  (∀ i b, batches !! i = Some b → S i < length batches → length b = 8) ∧
  (∀ b, last batches = Some b → length b = n - 8 * (length batches - 1)) ∧
  Forall (λ b, ∃ input_ids attention_mask ls,
            yields loader b input_ids attention_mask ls ∧
            length input_ids = length b ∧ length attention_mask = length b ∧
            Forall2 (λ i l, labels (dataset loader) !! i = Some l) b ls) batches.

(** Shape inference for a [Sequential] of [Linear] and [ReLU] layers: the
    width of the rows that come out when rows of [width] entries go in, if
    every [Linear] finds the width it expects. *)
Fixpoint output_width (layers : list layer) (width : nat) : option nat :=
  match layers with
  | [] => Some width
  | Linear in_features out_features :: layers =>
      if bool_decide (width = in_features) then output_width layers out_features
      else None
  | ReLU :: layers => output_width layers width
  end.

Definition is_Linear (l : layer) : bool :=
  match l with
  | Linear _ _ => true
  | ReLU => false
  end.

(** The encoder returns one pooled vector of [hidden_size = 768] entries per
    input row ([bert-base-uncased]). *)
Definition pooler_output_shape {F : Type} `{!Imports F} : Prop :=
  ∀ w training input_ids attention_mask,
    length (bert_pooler_output w training input_ids attention_mask) = length input_ids ∧
    Forall (λ row, length row = 768)
           (bert_pooler_output w training input_ids attention_mask).

(** The encoder is frozen in a model and left out of an optimizer: no
    encoder parameter is among the optimizer's, and each one has
    [requires_grad = False] and no gradient. *)
Definition encoder_frozen {F : Type} (model : CustomBERTModel F) (opt : Adam F) : Prop :=
  (∀ name, bert_param name ∉ param_groups opt) ∧
  (∀ name p, named_parameters model !! bert_param name = Some p →
     requires_grad p = false ∧ grad p = None).

(** The number of updates Adam has applied to a parameter so far
    ([optimizer.state[p]['step']], 0 before the first). *)
Definition steps_taken {F : Type} (opt : Adam F) (name : pname) : nat :=
  match state opt !! name with
  | Some st => step st
  | None => 0
  end.

(** An optimizer over parameters of a model: the names it holds are distinct
    and each one is a parameter of the model that requires a gradient. *)
Definition optimizes {F : Type} (opt : Adam F) (model : CustomBERTModel F) : Prop :=
  NoDup (param_groups opt) ∧
  ∀ name, name ∈ param_groups opt →
    ∃ p, named_parameters model !! name = Some p ∧ requires_grad p = true.

(** The parameters of the head, as [nn.Sequential] names them. *)
Definition classifier_parameter_names : list pname :=
  [ classifier_param 0 weight; classifier_param 0 bias;
    classifier_param 2 weight; classifier_param 2 bias;
    classifier_param 4 weight; classifier_param 4 bias;
    classifier_param 6 weight; classifier_param 6 bias ].

(** *** What a loop saw, batch by batch *)

(** A loop over a loader with its accumulators is compared with the list of
    what it computed at each batch: the logits and the labels. *)
Fixpoint scan {S A B} (step : S → A → result (S * B)) (s : S) (xs : list A)
    : result (S * list B) :=
  match xs with
  | [] => Ok (s, [])
  | x :: xs =>
      sb ← step s x;
      rest ← scan step sb.1 xs;
      mret (rest.1, sb.2 :: rest.2)
  end.

Section Observations.
Context {F : Type} `{!Scalar F} `{!Imports F}.

(** The logits a model returns on a batch of a loader, and the batch's
    labels. *)
Definition batch_logits (model : CustomBERTModel F) (loader : DataLoader)
    (indices : list nat) : result (list (list F) * list Z) :=
  batch ← fetch loader indices;
  '(input_ids, attention_mask, labels) ← unpack batch;
  logits ← forward model input_ids attention_mask;
  mret (logits, labels).

(** One training step seen from outside the loop: from the model and the
    optimizer before the batch to both after [optimizer.step()], with the
    logits computed before the update and the batch's labels. *)
Definition train_step (loader : DataLoader) (s : CustomBERTModel F * Adam F)
    (indices : list nat)
    : result (CustomBERTModel F * Adam F * (list (list F) * list Z)) :=
  batch ← fetch loader indices;
  '(input_ids, attention_mask, labels) ← unpack batch;
  let model := zero_grad s.2 s.1 in
  logits ← forward model input_ids attention_mask;
  _ ← criterion logits labels;
  let stepped := Adam_step s.2 (backward model input_ids attention_mask labels) in
  mret (stepped.2, stepped.1, (logits, labels)).

(** The examples of a pass: every row of logits with its label, in the
    order the loop met them. *)
Definition examples_of (obs : list (list (list F) * list Z)) : list (list F * Z) :=
  concat ((λ o, zip o.1 o.2) <$> obs).

(** The examples whose argmax over the logits is the label. *)
Definition correct_examples (examples : list (list F * Z)) : nat :=
  length (filter (λ e, argmax e.1 = Ok e.2) examples).

(** The loss of each batch, and the mean of a list of floats as the loop
    computes it: summed from [0.0] in order, divided by the count. *)
Definition batch_losses (obs : list (list (list F) * list Z)) : list F :=
  (λ o, cross_entropy o.1 o.2) <$> obs.

Definition mean (xs : list F) : F :=
  f_div (foldl f_add f_zero xs) (length xs).

(** Batches of logits as the loops need them: one row per label, two logits
    per row, labels that are class indices. *)
Definition binary_logits (o : list (list F) * list Z) : Prop :=
  length o.1 = length o.2 ∧ o.2 ≠ [] ∧
  Forall (λ row, length row = 2) o.1 ∧
  Forall (λ l, l = 0%Z ∨ l = 1%Z) o.2.

End Observations.

Section Reports.
Context {F : Type} `{!Scalar F} `{!Imports F}.

(** The accuracy over a list of examples, as an exact quotient. *)
Definition accuracy (examples : list (list F * Z)) : Q :=
  (Z.of_nat (correct_examples examples) # Pos.of_nat (length examples))%Q.

(** The four lines of an epoch, from what its two passes saw. *)
Definition epoch_report (epoch : nat) (tobs vobs : list (list (list F) * list Z))
    : list (output F) :=
  [ print_epoch (epoch + 1) EPOCHS;
    print_train (mean (batch_losses tobs)) (accuracy (examples_of tobs));
    print_val (mean (batch_losses vobs)) (accuracy (examples_of vobs));
    print_rule ].

(** One epoch, from the program before it to the program after it: the
    training pass applies [train_step] to each batch of a fresh iteration of
    the train loader in turn, the validation pass evaluates the resulting
    model on each batch of the validation loader, and the report is
    appended to the output. *)
Definition epoch_pass (train_loader val_loader : DataLoader) (epoch : nat)
    (prog : program F) (tobs vobs : list (list (list F) * list Z))
    (prog' : program F) : Prop :=
  let train_iter := iter train_loader (default_generator prog) in
  let val_iter := iter val_loader train_iter.2 in
  ∃ trained,
    scan (train_step train_loader) (set_training (model prog) true, optimizer prog)
      train_iter.1 = Ok (trained, tobs) ∧
    mapM (batch_logits (set_training trained.1 false) val_loader) val_iter.1 = Ok vobs ∧
    prog' = {| model := set_training trained.1 false;
               optimizer := trained.2;
               default_generator := val_iter.2;
               stdout := stdout prog ++ epoch_report epoch tobs vobs |}.

End Reports.

(** [torch.randperm(n)] returns an order of [0 .. n-1], whatever the state
    of the generator. *)
Definition randperm_permutes {F : Type} `{!Imports F} : Prop :=
  ∀ (g : generator) n, (randperm g n).1 ≡ₚ seq 0 n.

(** A batch of indices a loader can fetch: not empty, and fetched as one
    row and one label per index. *)
Definition fetchable {F : Type} `{!Imports F} (loader : DataLoader) (b : list nat) : Prop :=
  b ≠ [] ∧
  ∃ input_ids attention_mask ls,
    yields loader b input_ids attention_mask ls ∧
    length input_ids = length b ∧ length attention_mask = length b ∧
    Forall2 (λ i l, labels (dataset loader) !! i = Some l) b ls.

(** Labels of a binary classification task. *)
Definition binary_labels (ls : list Z) : Prop := Forall (λ l, l = 0%Z ∨ l = 1%Z) ls.

(** A loader as the notebook builds it: over a dataset tokenized from as
    many texts as there are labels, not empty, with class labels 0 and 1. *)
Definition notebook_loader {F : Type} `{!Imports F} (loader : DataLoader)
    (shuffle : bool) (texts : list string) (lbls : list Z) : Prop :=
  DataLoader_init (tokenized_dataset texts lbls) 8 shuffle = Ok loader ∧
  length texts = length lbls ∧ lbls ≠ [] ∧ binary_labels lbls.

(** ** A small instance of the interface, for concrete runs *)

Definition toy_scalar : Scalar Z :=
  {| f_zero := 0%Z; f_add := Z.add; f_mul := Z.mul; f_ltb := Z.ltb;
     f_div := λ x n, (x / Z.of_nat n)%Z |}.

(** Word pieces are character codes; the encoder's pooled output repeats the
    sum of the token ids; initial weights are zero; the loss counts
    the rows; gradients are zero; Adam leaves the data where it is; a
    generator counts its draws and returns the count; [randperm]
    reverses. *)
Definition toy_imports : Imports Z :=
  {| wordpiece := λ text, (λ c, Z.of_nat (Ascii.nat_of_ascii c)) <$> String.list_ascii_of_string text;
     bert_pretrained := {[ "pooler.dense.bias" := [0%Z; 0%Z] ]};
     bert_pooler_output := λ _ _ input_ids attention_mask,
       (λ ids, replicate 768 (foldr Z.add 0%Z ids)) <$> input_ids;
     linear_reset_parameters := λ _ _ n, replicate n 0%Z;
     cross_entropy := λ logits _, Z.of_nat (length logits);
     autograd_grad := λ w _ _ _ name, (λ _, 0%Z) <$> w name;
     adam_update := λ _ d _ m v, (d, m, v);
     generator := nat;
     manual_seed := Z.to_nat;
     random_ := λ g, (Z.of_nat g, S g);
     randperm := λ g n, (rev (seq 0 n), S g) |}.

(** The same instance over an encoder whose pooled output has 1024 entries,
    as [bert-large-uncased] has. *)
Definition toy_imports_large : Imports Z :=
  {| wordpiece := @wordpiece Z toy_imports;
     bert_pretrained := @bert_pretrained Z toy_imports;
     bert_pooler_output := λ _ _ input_ids attention_mask,
       (λ ids, replicate 1024 (foldr Z.add 0%Z ids)) <$> input_ids;
     linear_reset_parameters := @linear_reset_parameters Z toy_imports;
     cross_entropy := @cross_entropy Z toy_imports;
     autograd_grad := @autograd_grad Z toy_imports;
     adam_update := @adam_update Z toy_imports;
     generator := @generator Z toy_imports;
     manual_seed := @manual_seed Z toy_imports;
     random_ := @random_ Z toy_imports;
     randperm := @randperm Z toy_imports |}.

Definition toy_texts : list string :=
  ["a"; "bb"; "ccc"; "dddd"; "e"; "ff"; "ggg"; "hhhh"; "i"; "jj"; "kkk"; "llll"].

Definition toy_labels : list Z :=
  [1; 0; 1; 0; 1; 0; 1; 0; 1; 0; 1; 0]%Z.

(** The three loaders and the program of the notebook over the toy data. *)
Definition toy_dataset : IMDbDataset :=
  @tokenized_dataset Z toy_imports toy_texts toy_labels.

Definition toy_train_loader : DataLoader := make_loader toy_dataset true.
Definition toy_val_loader : DataLoader := make_loader toy_dataset false.
Definition toy_test_loader : DataLoader := make_loader toy_dataset false.

Definition toy_setup : @program Z toy_imports := @setup Z toy_imports.






(* ===================================================================== *)
(** * Part II: properties                                                 *)
(* ===================================================================== *)

(** ** Python helpers *)

Lemma py_index_in_range {A} (l : list A) (i : Z) :
  (0 ≤ i < Z.of_nat (length l))%Z →
  ∃ x, py_index l i = Ok x ∧ l !! Z.to_nat i = Some x.
Proof.
  intros Hi. unfold py_index.
  destruct (Z.ltb_spec i 0) as [?|_]; [lia|].
  destruct (Z.ltb_spec i 0) as [?|_]; [lia|].
  destruct (lookup_lt_is_Some_2 l (Z.to_nat i)) as [x Hx]; [lia|].
  exists x. by rewrite Hx.
Qed.

Lemma py_index_past_end {A} (l : list A) (i : Z) :
  (Z.of_nat (length l) ≤ i)%Z → py_index l i = Raise IndexError.
Proof.
  intros Hi. unfold py_index.
  destruct (Z.ltb_spec i 0) as [?|_]; [lia|].
  destruct (Z.ltb_spec i 0) as [?|_]; [lia|].
  rewrite lookup_ge_None_2; [done | lia].
Qed.

Lemma py_index_raises {A} (l : list A) (i : Z) e :
  py_index l i = Raise e → e = IndexError.
Proof.
  unfold py_index. intros H.
  destruct (_ <? 0)%Z; [congruence|].
  destruct (l !! _); congruence.
Qed.

(** ** Cell 1: device selection *)

(** C10. The device is ['cuda'] when CUDA is available and ['mps'] in every
    other case, whatever MPS availability is; it is never ['cpu'].  On a
    machine with neither CUDA nor MPS the program selects ['mps'], where the
    comment above the line promises the CPU. *)
Theorem device_never_cpu :
  (∀ m, device m = cuda ∨ device m = mps) ∧
  (∀ has_mps, device {| cuda_is_available := true; mps_is_available := has_mps |} = cuda) ∧
  (∀ has_mps, device {| cuda_is_available := false; mps_is_available := has_mps |} = mps) ∧
  (let bare := {| cuda_is_available := false; mps_is_available := false |} in
   device bare = mps ∧ device_as_commented bare = cpu).
Proof.
  repeat split.
  intros m. unfold device. destruct (cuda_is_available m); auto.
Qed.

(** ** Dict comprehensions *)

(** The outcome of a comprehension, read key by key: on success every key of
    the source dict is mapped to the value of the body, and a raised error is
    the error of the body at some key. *)
Lemma dict_comprehension_spec {V W} (f : string → V → result W) (d : gmap string V) :
  match dict_comprehension f d with
  | Ok out =>
      ∀ k, match d !! k with
           | Some v => ∃ w, f k v = Ok w ∧ out !! k = Some w
           | None => out !! k = None
           end
  | Raise e => ∃ k v, d !! k = Some v ∧ f k v = Raise e
  end.
Proof.
  unfold dict_comprehension.
  apply (map_fold_weak_ind (λ r m,
    match r with
    | Ok out =>
        ∀ k, match m !! k with
             | Some v => ∃ w, f k v = Ok w ∧ out !! k = Some w
             | None => out !! k = None
             end
    | Raise e => ∃ k v, m !! k = Some v ∧ f k v = Raise e
    end)).
  - intros k. by rewrite !lookup_empty.
  - intros i x m [out|e] Hi IH; simpl.
    + destruct (f i x) as [w|e] eqn:Hf; simpl.
      * intros k. destruct (decide (i = k)) as [->|Hne].
        -- rewrite !lookup_insert_eq. eauto.
        -- rewrite !lookup_insert_ne by done. apply IH.
      * exists i, x. by rewrite lookup_insert_eq.
    + destruct IH as (k & v & Hk & Hf). exists k, v. split; [|done].
      rewrite lookup_insert_ne; [done|]. intros ->. congruence.
Qed.

Lemma dict_comprehension_Ok {V W} (f : string → V → result W) (d : gmap string V) :
  (∀ k v, d !! k = Some v → is_Ok (f k v)) →
  ∃ out, dict_comprehension f d = Ok out ∧
    ∀ k, match d !! k with
         | Some v => ∃ w, f k v = Ok w ∧ out !! k = Some w
         | None => out !! k = None
         end.
Proof.
  intros Hall. pose proof (dict_comprehension_spec f d) as H.
  destruct (dict_comprehension f d) as [out|e]; [eauto|].
  destruct H as (k & v & Hk & Hf). destruct (Hall k v Hk) as [w Hw]. congruence.
Qed.

Lemma dict_comprehension_dom {V W} (f : string → V → result W) d out :
  dict_comprehension f d = Ok out → dom out = dom d.
Proof.
  intros H. pose proof (dict_comprehension_spec f d) as Hs. rewrite H in Hs.
  apply set_eq. intros k. rewrite !elem_of_dom. specialize (Hs k).
  destruct (d !! k) as [v|] eqn:Hk.
  - destruct Hs as (w & _ & ->). split; eauto.
  - rewrite Hs. split; intros [? ?]; congruence.
Qed.

(** ** Cell 4: the tokenizer call *)

Section TokenizerProperties.
Context {F : Type} `{!Imports F}.

Lemma encode_length_truncated max_length text :
  2 ≤ max_length → length (encode max_length true text) ≤ max_length.
Proof.
  intros Hm. unfold encode. simpl. rewrite length_app, length_take. simpl. lia.
Qed.

Lemma pad_length width fill ids :
  length ids ≤ width → length (pad width fill ids) = width.
Proof. intros H. unfold pad. rewrite length_app, length_replicate. lia. Qed.

Lemma tokenizer_input_ids texts max_length padding truncation :
  tokenizer texts max_length padding truncation !! "input_ids" =
  Some (pad (pad_width max_length padding (encode max_length truncation <$> texts))
            pad_token_id <$> (encode max_length truncation <$> texts)).
Proof. reflexivity. Qed.

Lemma tokenizer_attention_mask texts max_length padding truncation :
  tokenizer texts max_length padding truncation !! "attention_mask" =
  Some ((λ ids, pad (pad_width max_length padding (encode max_length truncation <$> texts))
                    0%Z (replicate (length ids) 1%Z))
        <$> (encode max_length truncation <$> texts)).
Proof. reflexivity. Qed.

Lemma tokenizer_token_type_ids texts max_length padding truncation :
  tokenizer texts max_length padding truncation !! "token_type_ids" =
  Some ((λ ids, pad (pad_width max_length padding (encode max_length truncation <$> texts))
                    0%Z (replicate (length ids) 0%Z))
        <$> (encode max_length truncation <$> texts)).
Proof. reflexivity. Qed.

Lemma tokenizer_keys texts max_length padding truncation k v :
  tokenizer texts max_length padding truncation !! k = Some v →
  k = "input_ids" ∨ k = "token_type_ids" ∨ k = "attention_mask".
Proof.
  unfold tokenizer. intros H.
  destruct (decide (k = "input_ids")); [auto|].
  destruct (decide (k = "token_type_ids")); [auto|].
  destruct (decide (k = "attention_mask")); [auto|].
  rewrite !lookup_insert_ne in H by done. by rewrite lookup_singleton_ne in H.
Qed.

(** Every sequence of every key of [tokenize_function]'s result has
    [MAX_LENGTH] entries, and there is one sequence per text. *)
Lemma tokenize_function_shape texts k v :
  tokenize_function texts !! k = Some v →
  length v = length texts ∧ Forall (λ s, length s = MAX_LENGTH) v.
Proof.
  unfold tokenize_function. intros H.
  assert (Henc : ∀ ids, ids ∈ encode MAX_LENGTH true <$> texts → length ids ≤ MAX_LENGTH).
  { intros ids Hin. apply list_elem_of_fmap in Hin as (text & Heq & _). subst ids.
    apply encode_length_truncated. unfold MAX_LENGTH. lia. }
  destruct (tokenizer_keys _ _ _ _ _ _ H) as [-> | [-> | ->]].
  - rewrite tokenizer_input_ids in H. injection H as <-.
    split; [by rewrite !length_fmap|].
    apply Forall_fmap, Forall_forall. intros ids Hin. simpl.
    apply pad_length. by apply Henc.
  - rewrite tokenizer_token_type_ids in H. injection H as <-.
    split; [by rewrite !length_fmap|].
    apply Forall_fmap, Forall_forall. intros ids Hin. simpl.
    apply pad_length. rewrite length_replicate. by apply Henc.
  - rewrite tokenizer_attention_mask in H. injection H as <-.
    split; [by rewrite !length_fmap|].
    apply Forall_fmap, Forall_forall. intros ids Hin. simpl.
    apply pad_length. rewrite length_replicate. by apply Henc.
Qed.

(** C4. For every list of texts, [tokenize_function] returns one [input_ids]
    sequence and one [attention_mask] sequence per text, each with exactly
    [MAX_LENGTH = 256] entries: a text with at most 254 word pieces is
    padded on the right (ids with [0], mask with [0] after the [1]s), a longer
    one is truncated to 254 word pieces between [[CLS]] and [[SEP]]. *)
Theorem tokenize_function_fixed_length (texts : list string) :
  MAX_LENGTH = 256 ∧
  ∃ ids mask,
    tokenize_function texts !! "input_ids" = Some ids ∧
    tokenize_function texts !! "attention_mask" = Some mask ∧
    length ids = length texts ∧ length mask = length texts ∧
    Forall (λ s, length s = 256) ids ∧
    Forall (λ s, length s = 256) mask ∧
    ids = (λ text, let wp := wordpiece text in
             (cls_token_id :: take 254 wp ++ [sep_token_id])
             ++ replicate (254 - length wp) pad_token_id) <$> texts ∧
    mask = (λ text, let wp := wordpiece text in
             replicate (length wp `min` 254 + 2) 1%Z
             ++ replicate (254 - length wp) 0%Z) <$> texts.
Proof.
  split; [reflexivity|].
  destruct (tokenize_function texts !! "input_ids") as [ids|] eqn:Hids; [|done].
  destruct (tokenize_function texts !! "attention_mask") as [mask|] eqn:Hmask; [|done].
  exists ids, mask.
  destruct (tokenize_function_shape _ _ _ Hids) as [Hl1 Hf1].
  destruct (tokenize_function_shape _ _ _ Hmask) as [Hl2 Hf2].
  repeat split; try done.
  - unfold tokenize_function in Hids. rewrite tokenizer_input_ids in Hids.
    injection Hids as <-. rewrite <- list_fmap_compose.
    apply list_fmap_ext. intros _ text _.
    unfold compose, pad_width, pad, encode, MAX_LENGTH.
    change (256 - 2) with 254. f_equal. f_equal.
    rewrite length_cons, length_app, length_take. cbn [length]. lia.
  - unfold tokenize_function in Hmask. rewrite tokenizer_attention_mask in Hmask.
    injection Hmask as <-. rewrite <- list_fmap_compose.
    apply list_fmap_ext. intros _ text _.
    unfold compose, pad_width, pad, encode, MAX_LENGTH.
    change (256 - 2) with 254.
    rewrite length_replicate, length_cons, length_app, length_take. cbn [length].
    f_equal; f_equal; lia.
Qed.

End TokenizerProperties.
(** ** Cell 5: the dataset *)

Lemma getitem_raises (self : IMDbDataset) idx e :
  __getitem__ self idx = Raise e → e = IndexError.
Proof.
  unfold __getitem__. intros H.
  pose proof (dict_comprehension_spec
    (λ (_ : string) v, x ← py_index v idx; mret (vector x)) (encodings self)) as Hs.
  destruct (dict_comprehension _ _) as [item|e']; simpl in H.
  - destruct (py_index (labels self) idx) eqn:Hl; simpl in H; [done|].
    injection H as <-. by eapply py_index_raises.
  - injection H as <-. destruct Hs as (k & v & _ & Hf).
    destruct (py_index v idx) eqn:Hv; simpl in Hf; [done|].
    injection Hf as <-. by eapply py_index_raises.
Qed.

(** With every encoding list at least as long as [labels], an index in range
    yields the item with one vector per encoding key and the label. *)
Lemma getitem_in_bounds (self : IMDbDataset) (idx : Z) :
  (∀ k v, encodings self !! k = Some v → length (labels self) ≤ length v) →
  (0 ≤ idx < Z.of_nat (__len__ self))%Z →
  ∃ item l,
    __getitem__ self idx = Ok item ∧
    labels self !! Z.to_nat idx = Some l ∧
    item !! "labels" = Some (scalar l) ∧
    dom item = dom (encodings self) ∪ {["labels"]} ∧
    ∀ k v, k ≠ "labels" → encodings self !! k = Some v →
      ∃ x, v !! Z.to_nat idx = Some x ∧ item !! k = Some (vector x).
Proof.
  intros Hlen Hidx. unfold __len__ in Hidx. unfold __getitem__.
  destruct (dict_comprehension_Ok
    (λ (_ : string) v, x ← py_index v idx; mret (vector x)) (encodings self))
    as (item & Heq & Hitem).
  { intros k v Hk. specialize (Hlen k v Hk).
    destruct (py_index_in_range v idx) as (x & -> & _); [lia|]. by eexists. }
  rewrite Heq.
  destruct (py_index_in_range (labels self) idx) as (l & -> & Hl); [lia|].
  simpl. exists (<["labels" := scalar l]> item), l.
  split; [done|]. split; [done|]. split; [by rewrite lookup_insert_eq|]. split.
  - rewrite dom_insert_L, (dict_comprehension_dom _ _ _ Heq). apply union_comm_L.
  - intros k v Hne Hk. rewrite lookup_insert_ne by done.
    specialize (Hitem k). rewrite Hk in Hitem. destruct Hitem as (w & Hw & ->).
    specialize (Hlen k v Hk).
    destruct (py_index_in_range v idx) as (x & Hx & Hx'); [lia|].
    rewrite Hx in Hw. simpl in Hw. injection Hw as <-. eauto.
Qed.

(** An encoding list shorter than [labels] makes the last index raise. *)
Lemma getitem_short_encoding (self : IMDbDataset) k v :
  encodings self !! k = Some v → length v < length (labels self) →
  __getitem__ self (Z.of_nat (__len__ self) - 1) = Raise IndexError.
Proof.
  intros Hk Hlt. unfold __len__.
  destruct (__getitem__ self _) as [item|e] eqn:Hg.
  - exfalso. unfold __getitem__ in Hg.
    pose proof (dict_comprehension_spec
      (λ (_ : string) v, x ← py_index v (Z.of_nat (length (labels self)) - 1);
         mret (vector x)) (encodings self)) as Hs.
    destruct (dict_comprehension _ _) as [item'|e']; simpl in Hg; [|done].
    specialize (Hs k). rewrite Hk in Hs. destruct Hs as (w & Hw & _).
    rewrite py_index_past_end in Hw; [done | lia].
  - f_equal. by eapply getitem_raises.
Qed.

(** C9. [__len__] is the number of labels, whatever the encoding lists hold.
    Every index [0 <= idx < len(labels)] returns the item (one vector per
    encoding key, read at [idx], plus ['labels'] equal to [labels[idx]])
    exactly when every encoding list has at least [len(labels)] entries;
    an encoding list that is shorter makes [__getitem__] raise [IndexError]
    at the last index. *)
Theorem getitem_in_bounds_iff (self : IMDbDataset) :
  __len__ self = length (labels self) ∧
  (∀ enc', __len__ {| encodings := enc'; labels := labels self |} = __len__ self) ∧
  ((∀ k v, encodings self !! k = Some v → length (labels self) ≤ length v) ↔
   (∀ idx : Z, (0 ≤ idx < Z.of_nat (__len__ self))%Z →
      ∃ item l,
        __getitem__ self idx = Ok item ∧
        labels self !! Z.to_nat idx = Some l ∧
        item !! "labels" = Some (scalar l) ∧
        dom item = dom (encodings self) ∪ {["labels"]} ∧
        ∀ k v, k ≠ "labels" → encodings self !! k = Some v →
          ∃ x, v !! Z.to_nat idx = Some x ∧ item !! k = Some (vector x))) ∧
  (∀ k v, encodings self !! k = Some v → length v < length (labels self) →
     __getitem__ self (Z.of_nat (__len__ self) - 1) = Raise IndexError).
Proof.
  split; [done|]. split; [done|]. split; [split|].
  - intros Hlen idx Hidx. by apply getitem_in_bounds.
  - intros Hall k v Hk.
    destruct (decide (length (labels self) ≤ length v)) as [|Hgt]; [done|].
    exfalso.
    destruct (Hall (Z.of_nat (__len__ self) - 1)%Z) as (item & l & Hg & _).
    { unfold __len__. lia. }
    rewrite (getitem_short_encoding self k v) in Hg; [done | done | lia].
  - apply getitem_short_encoding.
Qed.

(** ** Cell 8: data loaders *)

Lemma BatchSampler_concat sampler batch_size batch :
  concat (BatchSampler sampler batch_size false batch) = batch ++ sampler.
Proof.
  revert batch. induction sampler as [|idx sampler IH]; intros batch; simpl.
  - rewrite andb_true_r. case_bool_decide as Hlen; simpl.
    + by rewrite !app_nil_r.
    + destruct batch; [done | simpl in Hlen; lia].
  - case_bool_decide; simpl; rewrite IH; by rewrite <- app_assoc.
Qed.

Lemma BatchSampler_sizes sampler batch_size batch :
  0 < batch_size → length batch < batch_size →
  Forall (λ b, 1 ≤ length b ≤ batch_size) (BatchSampler sampler batch_size false batch).
Proof.
  intros Hpos. revert batch.
  induction sampler as [|idx sampler IH]; intros batch Hlt; simpl.
  - rewrite andb_true_r. case_bool_decide; [|constructor].
    constructor; [lia | constructor].
  - case_bool_decide as Hfull.
    + constructor; [lia|]. apply IH. simpl. lia.
    + apply IH. rewrite length_app in *. simpl in *. lia.
Qed.

(** Every batch before the last one is full. *)
Lemma BatchSampler_full sampler batch_size batch i b :
  0 < batch_size → length batch < batch_size →
  BatchSampler sampler batch_size false batch !! i = Some b →
  S i < length (BatchSampler sampler batch_size false batch) →
  length b = batch_size.
Proof.
  intros Hpos. revert batch i.
  induction sampler as [|idx sampler IH]; intros batch i Hlt; simpl.
  - rewrite andb_true_r. case_bool_decide; simpl; intros _ ?; lia.
  - case_bool_decide as Hfull.
    + destruct i as [|i]; simpl.
      * intros [= <-] _. done.
      * intros Hb Hi. apply (IH [] i); [simpl; lia | done | lia].
    + apply IH. rewrite length_app in *. simpl in *. lia.
Qed.

Lemma BatchSampler_length sampler batch_size batch :
  0 < batch_size → length batch < batch_size →
  length (BatchSampler sampler batch_size false batch) =
  (length batch + length sampler + batch_size - 1) / batch_size.
Proof.
  intros Hpos. revert batch.
  induction sampler as [|idx sampler IH]; intros batch Hlt; simpl.
  - rewrite andb_true_r. case_bool_decide as Hne; simpl.
    + apply (Nat.div_unique _ _ _ (length batch - 1)); lia.
    + symmetry. apply Nat.div_small. lia.
  - case_bool_decide as Hfull; simpl.
    + rewrite IH by (simpl; lia). simpl.
      rewrite length_app in Hfull. simpl in Hfull.
      replace (length batch + S (length sampler) + batch_size - 1)
        with (1 * batch_size + (length sampler + batch_size - 1)) by lia.
      rewrite Nat.div_add_l by lia. lia.
    + rewrite IH by (rewrite length_app in *; simpl in *; lia).
      rewrite length_app. simpl. f_equal. lia.
Qed.

(** The last batch holds what the full ones leave over. *)
Lemma BatchSampler_last sampler batch_size b :
  0 < batch_size →
  last (BatchSampler sampler batch_size false []) = Some b →
  length b = length sampler - batch_size * (length (BatchSampler sampler batch_size false []) - 1).
Proof.
  intros Hpos Hlast.
  pose proof (BatchSampler_concat sampler batch_size []) as Hc.
  pose proof (λ i b, BatchSampler_full sampler batch_size [] i b Hpos) as Hfull.
  simpl in Hc. revert Hc Hfull Hlast.
  generalize (BatchSampler sampler batch_size false []) as bs.
  intros bs. revert sampler.
  induction bs as [|b0 bs IH]; intros sampler Hc Hfull Hlast; [done|].
  destruct bs as [|b1 bs].
  - simpl in *. injection Hlast as ->. rewrite app_nil_r in Hc. subst. lia.
  - assert (length b0 = batch_size) as Hb0.
    { apply (Hfull 0 b0); simpl; [lia | done | lia]. }
    simpl in Hc. subst sampler.
    rewrite length_app.
    rewrite (IH (concat (b1 :: bs))); [simpl length; nia | done | | done].
    intros i b' _ Hi Hlen. apply (Hfull (S i) b'); simpl in *; [lia | done | lia].
Qed.

(** ** The [result] monad *)

Lemma mapM_Ok_Forall2 {A B} (f : A → result B) xs ys :
  mapM f xs = Ok ys ↔ Forall2 (λ x y, f x = Ok y) xs ys.
Proof.
  split.
  - revert ys. induction xs as [|x xs IH]; intros ys; simpl.
    + intros [= <-]. constructor.
    + destruct (f x) as [y|e] eqn:Hf; simpl; [|done].
      destruct (mapM f xs) as [k|e] eqn:Hm; simpl; [|done].
      intros [= <-]. constructor; [done|]. by apply IH.
  - induction 1 as [|x y xs ys Hf _ IH]; simpl; [done|].
    by rewrite Hf, IH.
Qed.

Lemma bind_Ok {A B} (f : A → result B) (a : A) : (Ok a ≫= f) = f a.
Proof. reflexivity. Qed.

Lemma mapM_cons {A B} (f : A → result B) x xs :
  mapM f (x :: xs) = (y ← f x; k ← mapM f xs; mret (y :: k)).
Proof. reflexivity. Qed.

(** ** Cell 8: collating the items of a tokenized dataset *)

Lemma stack_scalars (ls : list Z) :
  ls ≠ [] → stack (scalar <$> ls) = Ok (batch_vector ls).
Proof.
  destruct ls as [|l ls]; [done|]. intros _. unfold stack.
  change (scalar <$> l :: ls) with (scalar l :: (scalar <$> ls)).
  cbv iota beta.
  change (scalar l :: (scalar <$> ls)) with (scalar <$> l :: ls).
  rewrite (proj2 (mapM_Ok_Forall2 _ (scalar <$> l :: ls) (l :: ls))); [done|].
  apply Forall2_fmap_l, Forall_Forall2_diag, Forall_forall. done.
Qed.

Lemma stack_vectors (xs : list (list Z)) n :
  xs ≠ [] → Forall (λ x, length x = n) xs →
  stack (vector <$> xs) = Ok (batch_matrix xs).
Proof.
  destruct xs as [|x xs]; [done|]. intros _ Hlen. unfold stack.
  change (vector <$> x :: xs) with (vector x :: (vector <$> xs)).
  cbv iota beta.
  change (vector x :: (vector <$> xs)) with (vector <$> x :: xs).
  rewrite (proj2 (mapM_Ok_Forall2 _ (vector <$> x :: xs) (x :: xs))); [done|].
  apply Forall2_fmap_l, Forall_Forall2_diag.
  assert (length x = n) as Hx by (by inversion Hlen).
  eapply Forall_impl; [exact Hlen|]. intros y Hy. simpl.
  rewrite bool_decide_eq_true_2; [done | congruence].
Qed.

Lemma labels_not_tokenizer_key : "labels" ∉ tokenizer_keys_list.
Proof.
  unfold tokenizer_keys_list. intros H.
  repeat (apply elem_of_cons in H as [H|H]; [done|]).
  by apply elem_of_nil in H.
Qed.

Lemma tokenizer_key_cases k :
  k ∈ tokenizer_keys_list ↔ k = "input_ids" ∨ k = "token_type_ids" ∨ k = "attention_mask".
Proof.
  unfold tokenizer_keys_list. rewrite !elem_of_cons, elem_of_nil. tauto.
Qed.

Lemma field_labels ls items :
  Forall2 well_formed_item ls items →
  mapM (λ d : gmap string tensor, py_getitem d "labels") items = Ok (scalar <$> ls).
Proof.
  intros H. apply mapM_Ok_Forall2, Forall2_fmap_r, Forall2_flip.
  eapply Forall2_impl; [exact H|]. intros l item [Hl _]. simpl.
  unfold py_getitem. by rewrite Hl.
Qed.

Lemma field_vectors k ls items :
  k ∈ tokenizer_keys_list →
  Forall2 well_formed_item ls items →
  ∃ xs, length xs = length items ∧ Forall (λ x, length x = MAX_LENGTH) xs ∧
        mapM (λ d : gmap string tensor, py_getitem d k) items = Ok (vector <$> xs).
Proof.
  intros Hk H.
  assert (k ≠ "labels") as Hne.
  { intros ->. by apply labels_not_tokenizer_key. }
  induction H as [|l item ls items [_ Hwf] _ (xs & Hlen & Hall & Hm)].
  - exists []. by repeat split.
  - specialize (Hwf k Hne). rewrite bool_decide_eq_true_2 in Hwf by done.
    destruct Hwf as (x & Hx & Hlx).
    exists (x :: xs). simpl. split; [by rewrite Hlen|]. split; [by constructor|].
    assert (py_getitem item k = Ok (vector x)) as -> by (unfold py_getitem; by rewrite Hx).
    simpl. by rewrite Hm.
Qed.

(** Collating well-formed items succeeds; the batch holds one row per item
    under [input_ids] and [attention_mask], and the items' labels in order. *)
Lemma collate_well_formed ls items :
  ls ≠ [] → Forall2 well_formed_item ls items →
  ∃ batch, default_collate items = Ok batch ∧
    ∃ input_ids attention_mask,
      batch !! "input_ids" = Some (batch_matrix input_ids) ∧
      batch !! "attention_mask" = Some (batch_matrix attention_mask) ∧
      batch !! "labels" = Some (batch_vector ls) ∧
      length input_ids = length ls ∧ length attention_mask = length ls.
Proof.
  intros Hne Hwf. pose proof (Forall2_length _ _ _ Hwf) as Hlen.
  unfold default_collate.
  destruct Hwf as [|l it0 ls items Hwf0 Hwf]; [done|].
  assert (Hall : Forall2 well_formed_item (l :: ls) (it0 :: items)) by by constructor.
  change (py_index (it0 :: items) 0) with (Ok it0). rewrite bind_Ok.
  set (f := λ (key : string) (_ : tensor),
              ts ← mapM (λ d : gmap string tensor, py_getitem d key) (it0 :: items); stack ts).
  assert (Hlab : ∀ v, f "labels" v = Ok (batch_vector (l :: ls))).
  { intros v. unfold f. rewrite (field_labels _ _ Hall), bind_Ok.
    by apply stack_scalars. }
  assert (Hvec : ∀ k v, k ∈ tokenizer_keys_list →
            ∃ xs, f k v = Ok (batch_matrix xs) ∧ length xs = length (l :: ls)).
  { intros k v Hk. destruct (field_vectors k _ _ Hk Hall) as (xs & Hl & Hxs & Hm).
    exists xs. unfold f. rewrite Hm, bind_Ok. split; [|congruence].
    apply (stack_vectors xs MAX_LENGTH); [|done].
    intros ->. done. }
  destruct (dict_comprehension_Ok f it0) as (batch & Hb & Hspec).
  { intros k v Hk. destruct (decide (k = "labels")) as [->|Hnl].
    - rewrite Hlab. by eexists.
    - destruct Hwf0 as [_ Hwf0]. specialize (Hwf0 k Hnl).
      case_bool_decide as Hin.
      + destruct (Hvec k v Hin) as (xs & -> & _). by eexists.
      + congruence. }
  exists batch. split; [done|].
  assert (Hget : ∀ k, k ∈ tokenizer_keys_list →
            ∃ xs, batch !! k = Some (batch_matrix xs) ∧ length xs = length (l :: ls)).
  { intros k Hk. assert (k ≠ "labels") as Hnl.
    { intros ->. by apply labels_not_tokenizer_key. }
    destruct Hwf0 as [_ Hwf0]. specialize (Hwf0 k Hnl).
    rewrite bool_decide_eq_true_2 in Hwf0 by done. destruct Hwf0 as (x & Hx & _).
    specialize (Hspec k). rewrite Hx in Hspec. destruct Hspec as (w & Hw & ->).
    destruct (Hvec k (vector x) Hk) as (xs & Hxs & Hl). exists xs. split; congruence. }
  destruct (Hget "input_ids") as (input_ids & Hi & Hil).
  { apply tokenizer_key_cases. auto. }
  destruct (Hget "attention_mask") as (attention_mask & Ha & Hal).
  { apply tokenizer_key_cases. auto. }
  exists input_ids, attention_mask. repeat split; try done.
  destruct Hwf0 as [Hl0 _]. specialize (Hspec "labels"). rewrite Hl0 in Hspec.
  destruct Hspec as (w & Hw & ->). rewrite Hlab in Hw. congruence.
Qed.

Section FetchProperties.
Context {F : Type} `{!Imports F}.

(** Every index below the number of examples yields a well-formed item when
    the dataset was built from as many texts as labels. *)
Lemma getitem_tokenized texts labels i :
  length texts = length labels → i < length labels →
  ∃ item l, __getitem__ (tokenized_dataset texts labels) (Z.of_nat i) = Ok item ∧
            labels !! i = Some l ∧ well_formed_item l item.
Proof.
  intros Hlen Hi.
  destruct (getitem_in_bounds (tokenized_dataset texts labels) (Z.of_nat i))
    as (item & l & Hg & Hl & Hlab & Hdom & Hk).
  { intros k v Hkv. simpl in *. apply tokenize_function_shape in Hkv as [-> _]. lia. }
  { unfold __len__. simpl. lia. }
  simpl in *. rewrite Nat2Z.id in *.
  exists item, l. split; [done|]. split; [done|]. split; [done|].
  intros k Hne. case_bool_decide as Hin.
  - assert (∃ v, tokenize_function texts !! k = Some v) as [v Hv].
    { apply tokenizer_key_cases in Hin as [-> | [-> | ->]]; by eexists. }
    destruct (Hk k v Hne Hv) as (x & Hx & Hitem). exists x. split; [done|].
    apply tokenize_function_shape in Hv as [_ Hall].
    by eapply (Forall_lookup_1 _ _ _ _ Hall).
  - apply not_elem_of_dom. rewrite Hdom.
    assert (tokenize_function texts !! k = None) as Hnone.
    { destruct (tokenize_function texts !! k) as [v|] eqn:Hv; [|done].
      exfalso. apply Hin. unfold tokenize_function in Hv.
      apply tokenizer_keys in Hv. by apply tokenizer_key_cases. }
    apply not_elem_of_dom in Hnone.
    rewrite elem_of_union, elem_of_singleton. tauto.
Qed.

(** Fetching a non-empty batch of valid indices succeeds and yields one row
    per index and the labels at those indices. *)
Lemma fetch_tokenized texts labels bs shuffle indices :
  length texts = length labels →
  indices ≠ [] → Forall (λ i, i < length labels) indices →
  ∃ batch ls input_ids attention_mask,
    fetch {| dataset := tokenized_dataset texts labels; batch_size := bs;
             shuffle := shuffle |} indices = Ok batch ∧
    batch !! "input_ids" = Some (batch_matrix input_ids) ∧
    batch !! "attention_mask" = Some (batch_matrix attention_mask) ∧
    batch !! "labels" = Some (batch_vector ls) ∧
    length input_ids = length indices ∧ length attention_mask = length indices ∧
    Forall2 (λ i l, labels !! i = Some l) indices ls.
Proof.
  intros Hlen Hne Hall. unfold fetch. simpl.
  assert (∃ items ls,
    mapM (λ idx, __getitem__ (tokenized_dataset texts labels) (Z.of_nat idx)) indices
      = Ok items ∧
    Forall2 well_formed_item ls items ∧ Forall2 (λ i l, labels !! i = Some l) indices ls)
    as (items & ls & -> & Hwf & Hls).
  { clear Hne. induction Hall as [|i indices Hi _ (items & ls & Hm & Hwf & Hls)].
    - exists [], []. repeat split; constructor.
    - destruct (getitem_tokenized texts labels i Hlen Hi) as (item & l & Hg & Hl & Hw).
      exists (item :: items), (l :: ls). simpl. rewrite Hg, Hm. simpl.
      repeat split; by constructor. }
  rewrite bind_Ok.
  pose proof (Forall2_length _ _ _ Hls) as Hll.
  destruct (collate_well_formed ls items) as (batch & -> & ids & mask & Hi & Ha & Hl & Hil & Hal);
    [by intros ->; destruct indices | done |].
  exists batch, ls, ids, mask. repeat split; try done; congruence.
Qed.

End FetchProperties.

Lemma unpack_lookup (batch : gmap string batch_tensor) input_ids attention_mask ls :
  batch !! "input_ids" = Some (batch_matrix input_ids) →
  batch !! "attention_mask" = Some (batch_matrix attention_mask) →
  batch !! "labels" = Some (batch_vector ls) →
  unpack batch = Ok (input_ids, attention_mask, ls).
Proof.
  intros Hi Ha Hl. unfold unpack, py_getitem. by rewrite Hi, Ha, Hl.
Qed.

Section LoaderProperties.
Context {F : Type} `{!Imports F}.

Lemma DataLoader_len_make_loader ds shuffle :
  DataLoader_len (make_loader ds shuffle) = (length (labels ds) + 7) / 8.
Proof.
  unfold DataLoader_len, make_loader, __len__. cbn [dataset batch_size].
  f_equal. lia.
Qed.

(** The constructor returns the loader unless it is asked to shuffle an
    empty dataset. *)
Lemma DataLoader_init_make_loader ds shuffle :
  DataLoader_init ds 8 shuffle =
  if shuffle && bool_decide (labels ds = []) then Raise ValueError
  else Ok (make_loader ds shuffle).
Proof.
  unfold DataLoader_init, __len__.
  destruct (labels ds) as [|l ls]; destruct shuffle; reflexivity.
Qed.

Lemma notebook_loader_make_loader loader shuffle texts lbls :
  notebook_loader loader shuffle texts lbls →
  loader = make_loader (tokenized_dataset texts lbls) shuffle.
Proof.
  intros (Hinit & _ & Hne & _). rewrite DataLoader_init_make_loader in Hinit.
  cbn [labels tokenized_dataset] in Hinit.
  rewrite bool_decide_eq_false_2, andb_false_r in Hinit by done. congruence.
Qed.

(** One pass over a loader of the notebook, whatever order the sampler
    gives, as long as it is an order of the dataset's indices. *)
Lemma pass_over_loader texts lbls shuffle sampler :
  length texts = length lbls →
  sampler ≡ₚ seq 0 (length lbls) →
  batches_of_pass (make_loader (tokenized_dataset texts lbls) shuffle)
    (length lbls) (BatchSampler sampler 8 false []).
Proof.
  intros Hlen Hperm.
  pose proof (Permutation_length Hperm) as Hn. rewrite length_seq in Hn.
  unfold batches_of_pass. rewrite DataLoader_len_make_loader.
  cbn [labels tokenized_dataset dataset make_loader].
  split; [|split; [done|split; [|split; [|split]]]].
  - rewrite BatchSampler_length by (cbn [length]; lia). cbn [length].
    rewrite Hn. f_equal. lia.
  - apply BatchSampler_sizes; cbn [length]; lia.
  - intros i b. apply BatchSampler_full; cbn [length]; lia.
  - intros b Hb. rewrite (BatchSampler_last sampler 8 b) by (done || lia). by rewrite Hn.
  - pose proof (BatchSampler_sizes sampler 8 [] ltac:(lia) ltac:(cbn [length]; lia)) as Hsz.
    pose proof (BatchSampler_concat sampler 8 []) as Hc. rewrite app_nil_l in Hc.
    apply Forall_forall. intros b Hb.
    assert (Forall (λ i, i < length lbls) b) as Hrange.
    { apply Forall_forall. intros i Hi.
      assert (i ∈ sampler) as His.
      { apply list_elem_of_In. rewrite <- Hc. apply in_concat.
        exists b. split; by apply list_elem_of_In. }
      rewrite Hperm in His. apply elem_of_seq in His. lia. }
    assert (b ≠ []) as Hne.
    { rewrite Forall_forall in Hsz. specialize (Hsz b Hb). intros ->.
      cbn [length] in Hsz. lia. }
    destruct (fetch_tokenized texts lbls 8 shuffle b Hlen Hne Hrange)
      as (batch & ls & ids & mask & Hf & Hi & Ha & Hl & Hil & Hal & Hls).
    exists ids, mask, ls. split; [|done].
    exists batch. split; [done|]. by apply unpack_lookup.
Qed.

(** C7 (as the code has it). Each loader cuts the order of its sampler into
    batches of [batch_size = 8] with [drop_last=False]: a pass yields
    [ceil(n / 8)] batches, none empty and none larger than 8, all but the
    last with exactly 8 examples and the last with the remaining
    [n - 8 * (batches - 1)].  Every pass starts by drawing the iterator's
    base seed from the default generator.  The validation and test loaders
    then yield the examples in dataset order.  The train loader draws a
    second number from the default generator, seeds a generator of its own
    with it and yields the examples in the order of the permutation it
    takes from that generator; the default generator, advanced by the two
    draws, goes to the next pass.  Over an empty dataset the train loader
    is not even built: its constructor raises [ValueError]. *)
Theorem DataLoader_batches (texts : list string) (lbls : list Z) (g : generator) :
  length texts = length lbls →
  randperm_permutes →
  let ds := tokenized_dataset texts lbls in
  let n := length lbls in
  (∃ loader batches,
     DataLoader_init ds 8 false = Ok loader ∧
     iter loader g = (batches, (random_ g).2) ∧
     concat batches = seq 0 n ∧
     batches_of_pass loader n batches) ∧
  (lbls = [] → DataLoader_init ds 8 true = Raise ValueError) ∧
  (lbls ≠ [] →
   ∃ loader batches,
     let draw := random_ (random_ g).2 in
     DataLoader_init ds 8 true = Ok loader ∧
     iter loader g = (batches, draw.2) ∧
     concat batches = (randperm (manual_seed draw.1) n).1 ∧
     concat batches ≡ₚ seq 0 n ∧
     batches_of_pass loader n batches).
Proof.
  intros Hlen Hperm ds n. split; [|split].
  - exists (make_loader ds false), (BatchSampler (seq 0 n) 8 false []).
    split; [by rewrite DataLoader_init_make_loader|]. split; [|split].
    + unfold iter, make_loader, ds, __len__.
      cbn [dataset batch_size shuffle labels tokenized_dataset]. fold n.
      by destruct (random_ g).
    + apply (BatchSampler_concat _ _ []).
    + by apply pass_over_loader.
  - intros Hempty. rewrite DataLoader_init_make_loader.
    unfold ds. cbn [labels tokenized_dataset]. by rewrite Hempty.
  - intros Hne. cbv zeta.
    set (draw := random_ (random_ g).2).
    exists (make_loader ds true),
           (BatchSampler (randperm (manual_seed draw.1) n).1 8 false []).
    split; [|split; [|split; [|split]]].
    + rewrite DataLoader_init_make_loader. unfold ds. cbn [labels tokenized_dataset].
      by rewrite bool_decide_eq_false_2.
    + unfold iter, make_loader, ds, __len__.
      cbn [dataset batch_size shuffle labels tokenized_dataset]. fold n.
      unfold draw. destruct (random_ g) as [base_seed g1]. cbn [snd].
      by destruct (random_ g1) as [seed g2].
    + apply (BatchSampler_concat _ _ []).
    + rewrite (BatchSampler_concat _ 8 []). rewrite app_nil_l. apply Hperm.
    + apply pass_over_loader; [done | apply Hperm].
Qed.

End LoaderProperties.

(** ** Concrete runs of the loaders *)

(** C7, as stated, fails: with twelve examples the validation loader yields
    a batch of eight and then a batch of four; with the notebook's own 2500
    validation and 22500 training examples the last batch holds four. *)
Lemma DataLoader_last_batch_short :
  let loader := make_loader (@tokenized_dataset Z toy_imports toy_texts toy_labels) false in
  (@iter Z toy_imports loader 0).1 = [[0; 1; 2; 3; 4; 5; 6; 7]; [8; 9; 10; 11]] ∧
  (λ b, (length b.1.1, length b.1.2, b.2)) <$> (fetch loader [8; 9; 10; 11] ≫= unpack)
    = Ok (4, 4, [1; 0; 1; 0]%Z) ∧
  last (length <$> BatchSampler (SequentialSampler 2500) 8 false []) = Some 4 ∧
  last (length <$> BatchSampler (SequentialSampler 22500) 8 false []) = Some 4.
Proof. vm_compute. repeat split; reflexivity. Qed.

Lemma DataLoader_batches_witness :
  let ds := @tokenized_dataset Z toy_imports toy_texts toy_labels in
  let n := length toy_labels in
  (∃ loader batches,
     @DataLoader_init ds 8 false = Ok loader ∧
     @iter Z toy_imports loader 0 = (batches, 1) ∧
     concat batches = seq 0 n ∧
     @batches_of_pass Z toy_imports loader n batches) ∧
  (∃ loader batches,
     @DataLoader_init ds 8 true = Ok loader ∧
     @iter Z toy_imports loader 0 = (batches, 2) ∧
     concat batches = rev (seq 0 n) ∧
     concat batches ≡ₚ seq 0 n ∧
     @batches_of_pass Z toy_imports loader n batches).
Proof.
  destruct (@DataLoader_batches Z toy_imports toy_texts toy_labels 0 eq_refl)
    as (Hseq & _ & Hshuffled).
  - intros g n. symmetry. apply Permutation_rev.
  - split; [exact Hseq|]. apply Hshuffled. done.
Defined.

(** ** Cell 6: the classifier head *)

Section ModelProperties.
Context {F : Type} `{!Scalar F} `{!Imports F}.

Lemma Linear_forward_shape (W b : list F) in_features out_features x :
  length x = in_features →
  ∃ y, Linear_forward W b in_features out_features x = Ok y ∧ length y = out_features.
Proof.
  intros Hx. unfold Linear_forward. rewrite bool_decide_eq_true_2 by done.
  eexists. split; [done|]. by rewrite length_fmap, length_seq.
Qed.

Lemma Linear_forward_batch (W b : list F) in_features out_features xs :
  Forall (λ x, length x = in_features) xs →
  ∃ ys, mapM (Linear_forward W b in_features out_features) xs = Ok ys ∧
        length ys = length xs ∧ Forall (λ y, length y = out_features) ys.
Proof.
  induction 1 as [|x xs Hx _ (ys & Hm & Hl & Hall)].
  - exists []. by repeat split.
  - destruct (Linear_forward_shape W b in_features out_features x Hx) as (y & Hy & Hly).
    exists (y :: ys). rewrite mapM_cons, Hy, bind_Ok, Hm, bind_Ok.
    repeat split; [simpl; by rewrite Hl | by constructor].
Qed.

(** A [Sequential] whose shapes chain maps a batch of rows of the input
    width to as many rows of the inferred output width. *)
Lemma Sequential_forward_shape (params : gmap pname (nn_Parameter F)) layers :
  ∀ i width width' xs,
    output_width layers width = Some width' →
    Forall (λ x, length x = width) xs →
    ∃ ys, Sequential_forward params i layers xs = Ok ys ∧
          length ys = length xs ∧ Forall (λ y, length y = width') ys.
Proof.
  induction layers as [|[in_features out_features|] layers IH];
    intros i width width' xs Hw Hxs; simpl in *.
  - injection Hw as <-. by exists xs.
  - case_bool_decide as Heq; [subst width | done].
    destruct (Linear_forward_batch (weights params (classifier_param i weight))
                (weights params (classifier_param i bias))
                in_features out_features xs Hxs) as (ys & -> & Hl & Hys).
    rewrite bind_Ok.
    destruct (IH (S i) out_features width' ys Hw Hys) as (zs & Hz & Hlz & Hzs).
    exists zs. repeat split; [done | congruence | done].
  - destruct (IH (S i) width width' (map (map relu) xs) Hw) as (zs & Hz & Hlz & Hzs).
    { apply Forall_fmap. eapply Forall_impl; [exact Hxs|].
      intros x Hx. simpl. by rewrite length_map. }
    exists zs. repeat split; [done | by rewrite Hlz, length_map | done].
Qed.

Lemma classifier_init num_classes :
  classifier (__init__ num_classes) =
  [ Linear 768 512; ReLU; Linear 512 256; ReLU; Linear 256 128; ReLU;
    Linear 128 num_classes ].
Proof. reflexivity. Qed.

Lemma output_width_classifier num_classes :
  output_width (classifier (__init__ num_classes)) 768 = Some num_classes.
Proof.
  rewrite classifier_init. cbn [output_width].
  by rewrite !bool_decide_eq_true_2 by reflexivity.
Qed.

(** The forward pass of any model that has the head of [__init__], whatever
    its parameters hold. *)
Lemma forward_shape (self : CustomBERTModel F) num_classes input_ids attention_mask :
  pooler_output_shape →
  classifier self = classifier (__init__ num_classes) →
  ∃ logits, forward self input_ids attention_mask = Ok logits ∧
            length logits = length input_ids ∧
            Forall (λ row, length row = num_classes) logits.
Proof.
  intros Hbert Hc. unfold forward. rewrite Hc.
  destruct (Hbert (λ name, weights (named_parameters self) (bert_param name))
              (training self) input_ids attention_mask) as [Hlen Hrows].
  destruct (Sequential_forward_shape (named_parameters self) _ 0 768 num_classes _
              (output_width_classifier num_classes) Hrows) as (ys & Hy & Hl & Hys).
  exists ys. repeat split; [done | congruence | done].
Qed.

(** C2. The head built by [__init__] is the stack
    [Linear(768,512), ReLU, Linear(512,256), ReLU, Linear(256,128), ReLU,
    Linear(128,2)]: four linear layers, a ReLU between each two.  For every
    input batch the forward pass is that stack applied to the encoder's
    pooled output, and it returns one row of 2 logits per example. *)
Theorem classifier_head_logits (self : CustomBERTModel F)
    (input_ids attention_mask : list (list Z)) :
  pooler_output_shape →
  classifier self = classifier (__init__ 2) →
  classifier (__init__ 2) =
    [ Linear 768 512; ReLU; Linear 512 256; ReLU; Linear 256 128; ReLU; Linear 128 2 ] ∧
  length (filter is_Linear (classifier (__init__ 2))) = 4 ∧
  forward self input_ids attention_mask =
    Sequential_forward (named_parameters self) 0 (classifier (__init__ 2))
      (bert_pooler_output (λ name, weights (named_parameters self) (bert_param name))
         (training self) input_ids attention_mask) ∧
  ∃ logits, forward self input_ids attention_mask = Ok logits ∧
            length logits = length input_ids ∧
            Forall (λ row, length row = 2) logits.
Proof.
  intros Hbert Hc. split; [reflexivity|]. split; [reflexivity|]. split.
  - unfold forward. by rewrite Hc.
  - by apply forward_shape.
Qed.

End ModelProperties.

(** ** Loops *)

(** A property of the loop variables that every iteration preserves holds
    when the loop ends. *)
Lemma for_each_invariant {S A} (body : S → A → result S) (P : S → Prop) :
  (∀ s x s', P s → body s x = Ok s' → P s') →
  ∀ xs s s', P s → for_each body s xs = Ok s' → P s'.
Proof.
  intros Hbody. induction xs as [|x xs IH]; intros s s' Hs; simpl.
  - by intros [= <-].
  - destruct (body s x) as [s1|e] eqn:Hb; simpl; [|done].
    apply IH. by eapply Hbody.
Qed.

(** ** Cells 6 and 9: which parameters are trained *)

#[global] Instance bert_param_inj : Inj (=) (=) bert_param.
Proof. by intros ?? [= ->]. Qed.

Section FrozenEncoder.
Context {F : Type} `{!Scalar F} `{!Imports F}.

Lemma Sequential_parameters_bert i layers name :
  Sequential_parameters i layers !! bert_param name = None.
Proof.
  revert i. induction layers as [|[in_features out_features|] layers IH]; intros i; simpl.
  - apply lookup_empty.
  - apply lookup_union_None. split; [|apply IH].
    unfold Linear_parameters. by rewrite lookup_insert_ne, lookup_singleton_ne.
  - apply IH.
Qed.

Lemma Sequential_parameters_trainable i layers name p :
  Sequential_parameters i layers !! name = Some p → requires_grad p = true.
Proof.
  revert i. induction layers as [|[in_features out_features|] layers IH]; intros i; simpl.
  - by rewrite lookup_empty.
  - rewrite lookup_union_Some_raw. intros [Hl | [_ Hr]]; [|by eapply IH].
    unfold Linear_parameters in Hl.
    apply lookup_insert_Some in Hl as [[_ <-] | [_ Hl]]; [done|].
    apply lookup_singleton_Some in Hl as [_ <-]. done.
  - apply IH.
Qed.

(** After [__init__] an encoder parameter holds its pretrained value, does
    not require a gradient and has none. *)
Lemma init_bert_param num_classes name p :
  named_parameters (__init__ num_classes) !! bert_param name = Some p →
  bert_pretrained !! name = Some (data p) ∧ requires_grad p = false ∧ grad p = None.
Proof.
  unfold __init__. cbn [named_parameters].
  rewrite lookup_union_l by apply Sequential_parameters_bert.
  rewrite lookup_fmap. unfold BertModel_from_pretrained.
  rewrite lookup_kmap; [|apply _]. rewrite lookup_fmap.
  destruct (bert_pretrained !! name) as [w|]; [|done].
  intros [= <-]. done.
Qed.

Lemma init_classifier_param num_classes i field p :
  named_parameters (__init__ num_classes) !! classifier_param i field = Some p →
  requires_grad p = true.
Proof.
  unfold __init__. cbn [named_parameters].
  rewrite lookup_union_r.
  - apply Sequential_parameters_trainable.
  - rewrite lookup_fmap. unfold BertModel_from_pretrained.
    assert (kmap bert_param (new_parameter <$> bert_pretrained)
              !! classifier_param i field = None) as ->; [|done].
    apply lookup_kmap_None; [apply _|]. intros name Hname. done.
Qed.

Lemma elem_of_trainable_params (model : CustomBERTModel F) name :
  name ∈ trainable_params model ↔
  ∃ p, named_parameters model !! name = Some p ∧ requires_grad p = true.
Proof.
  unfold trainable_params. rewrite list_elem_of_fmap. split.
  - intros ([name' p] & -> & Hin). apply list_elem_of_filter in Hin as [Hrg Hin].
    apply elem_of_map_to_list in Hin. eauto.
  - intros (p & Hp & Hrg). exists (name, p). split; [done|].
    apply list_elem_of_filter. split; [done|]. by apply elem_of_map_to_list.
Qed.

Lemma init_classifier_names num_classes name :
  is_Some (named_parameters (__init__ num_classes) !! name) ∧ (∃ i f, name = classifier_param i f)
  ↔ name ∈ classifier_parameter_names.
Proof.
  unfold classifier_parameter_names. split.
  - intros [[p Hp] (i & f & ->)].
    unfold __init__ in Hp. cbn [named_parameters] in Hp.
    rewrite lookup_union_r in Hp.
    2:{ rewrite lookup_fmap. unfold BertModel_from_pretrained.
        assert (kmap bert_param (new_parameter <$> bert_pretrained)
                  !! classifier_param i f = None) as ->; [|done].
        apply lookup_kmap_None; [apply _|]. intros name Hname. done. }
    cbn [Sequential_parameters] in Hp. unfold Linear_parameters in Hp.
    repeat (apply lookup_union_Some_raw in Hp as [Hp | [_ Hp]];
            [ apply lookup_insert_Some in Hp as [[<- _] | [_ Hp]];
              [ set_solver
              | apply lookup_singleton_Some in Hp as [<- _]; set_solver ] | ]).
    by rewrite lookup_empty in Hp.
  - intros Hin. split.
    + unfold __init__. cbn [named_parameters Sequential_parameters].
      unfold Linear_parameters.
      repeat (apply elem_of_cons in Hin as [-> | Hin];
              [ rewrite lookup_union_r
                  by (rewrite lookup_fmap; unfold BertModel_from_pretrained;
                      match goal with
                      | |- _ <$> ?m = None => assert (m = None) as ->; [|done]
                      end;
                      apply lookup_kmap_None; [apply _|]; intros name Hname; done);
                rewrite !lookup_union, ?lookup_insert_eq, ?lookup_insert_ne,
                  ?lookup_singleton_eq, ?lookup_singleton_ne, ?lookup_empty by done;
                by eexists | ]).
      by apply elem_of_nil in Hin.
    + repeat (apply elem_of_cons in Hin as [-> | Hin]; [by eexists _, _ |]).
      by apply elem_of_nil in Hin.
Qed.

End FrozenEncoder.

Section TrainingStep.
Context {F : Type} `{!Scalar F} `{!Imports F}.

Lemma zero_grad_lookup_other (opt : Adam F) (m : CustomBERTModel F) name :
  name ∉ param_groups opt →
  named_parameters (zero_grad opt m) !! name = named_parameters m !! name.
Proof.
  unfold zero_grad. cbn [named_parameters with_named_parameters].
  induction (param_groups opt) as [|name' names IH]; intros Hnot; simpl; [done|].
  apply not_elem_of_cons in Hnot as [Hne Hnot].
  rewrite lookup_alter_ne by done. by apply IH.
Qed.

(** [zero_grad] changes gradients only. *)
Lemma zero_grad_lookup (opt : Adam F) (m : CustomBERTModel F) name :
  match named_parameters m !! name with
  | Some p => ∃ p', named_parameters (zero_grad opt m) !! name = Some p' ∧
                    data p' = data p ∧ requires_grad p' = requires_grad p ∧
                    (grad p' = grad p ∨ grad p' = None)
  | None => named_parameters (zero_grad opt m) !! name = None
  end.
Proof.
  unfold zero_grad. cbn [named_parameters with_named_parameters].
  induction (param_groups opt) as [|name' names IH]; simpl.
  - destruct (named_parameters m !! name); eauto 6.
  - destruct (decide (name' = name)) as [->|Hne].
    + rewrite lookup_alter_eq. destruct (named_parameters m !! name) as [p|].
      * destruct IH as (p' & -> & Hd & Hr & Hg). simpl. eauto 6.
      * by rewrite IH.
    + by rewrite lookup_alter_ne.
Qed.

Lemma backward_lookup (m : CustomBERTModel F) input_ids attention_mask ls name :
  named_parameters (backward m input_ids attention_mask ls) !! name =
  (λ p, if requires_grad p
        then {| data := data p; requires_grad := true;
                grad := Some (accumulate (grad p)
                                (autograd_grad (weights (named_parameters m)) input_ids
                                   attention_mask ls name)) |}
        else p) <$> named_parameters m !! name.
Proof.
  unfold backward. cbn [named_parameters with_named_parameters].
  rewrite map_lookup_imap. by destruct (named_parameters m !! name).
Qed.

Lemma Adam_step_param_groups (opt : Adam F) (m : CustomBERTModel F) :
  param_groups (Adam_step opt m).1 = param_groups opt.
Proof.
  unfold Adam_step. by destruct (foldl _ _ _).
Qed.

Lemma Adam_step_param_other acc name' name :
  name' ≠ name → (Adam_step_param acc name').1 !! name = acc.1 !! name.
Proof.
  intros Hne. destruct acc as [params st]. unfold Adam_step_param.
  destruct (params !! name') as [p|]; [|done].
  destruct (grad p) as [g|]; [|done].
  destruct (adam_update _ _ _ _ _) as [[d m] v]. simpl.
  by rewrite lookup_insert_ne.
Qed.

(** [optimizer.step()] writes only to the parameters the optimizer holds. *)
Lemma Adam_step_lookup_other (opt : Adam F) (m : CustomBERTModel F) name :
  name ∉ param_groups opt →
  named_parameters (Adam_step opt m).2 !! name = named_parameters m !! name.
Proof.
  intros Hnot. unfold Adam_step.
  assert (∀ names acc, name ∉ names →
            (foldl Adam_step_param acc names).1 !! name = acc.1 !! name) as Hfold.
  { induction names as [|name' names IH]; intros acc Hn; simpl; [done|].
    apply not_elem_of_cons in Hn as [Hne Hn].
    rewrite IH by done. by apply Adam_step_param_other. }
  specialize (Hfold (param_groups opt) (named_parameters m, state opt) Hnot).
  destruct (foldl _ _ _) as [params st]. done.
Qed.

Lemma Adam_step_param_state_other acc name' name :
  name' ≠ name → (Adam_step_param acc name').2 !! name = acc.2 !! name.
Proof.
  intros Hne. destruct acc as [params st]. unfold Adam_step_param.
  destruct (params !! name') as [p|]; [|done].
  destruct (grad p) as [g|]; [|done].
  destruct (adam_update _ _ _ _ _) as [[d m] v]. simpl.
  by rewrite lookup_insert_ne.
Qed.

(** Nor does it keep a state for any other parameter. *)
Lemma Adam_step_state_other (opt : Adam F) (m : CustomBERTModel F) name :
  name ∉ param_groups opt →
  state (Adam_step opt m).1 !! name = state opt !! name.
Proof.
  intros Hnot. unfold Adam_step.
  assert (∀ names acc, name ∉ names →
            (foldl Adam_step_param acc names).2 !! name = acc.2 !! name) as Hfold.
  { induction names as [|name' names IH]; intros acc Hn; simpl; [done|].
    apply not_elem_of_cons in Hn as [Hne Hn].
    rewrite IH by done. by apply Adam_step_param_state_other. }
  specialize (Hfold (param_groups opt) (named_parameters m, state opt) Hnot).
  destruct (foldl _ _ _) as [params st]. done.
Qed.

(** It also skips a parameter that has no gradient. *)
Lemma Adam_step_param_no_grad acc name' name p :
  acc.1 !! name = Some p → grad p = None →
  (Adam_step_param acc name').1 !! name = Some p.
Proof.
  intros Hp Hg. destruct acc as [params st]. simpl in Hp. unfold Adam_step_param.
  destruct (params !! name') as [p'|] eqn:Hp'; [|done].
  destruct (grad p') as [g|] eqn:Hg'; [|done].
  destruct (adam_update _ _ _ _ _) as [[d m] v]. simpl.
  rewrite lookup_insert_ne; [done|]. intros ->. congruence.
Qed.

Lemma Adam_step_lookup_no_grad (opt : Adam F) (m : CustomBERTModel F) name p :
  named_parameters m !! name = Some p → grad p = None →
  named_parameters (Adam_step opt m).2 !! name = Some p.
Proof.
  intros Hp Hg. unfold Adam_step.
  assert (∀ names acc, acc.1 !! name = Some p →
            (foldl Adam_step_param acc names).1 !! name = Some p) as Hfold.
  { induction names as [|name' names IH]; intros acc Hacc; simpl; [done|].
    apply IH. by apply Adam_step_param_no_grad. }
  specialize (Hfold (param_groups opt) (named_parameters m, state opt) Hp).
  destruct (foldl _ _ _) as [params st]. done.
Qed.

Lemma Adam_step_classifier (opt : Adam F) (m : CustomBERTModel F) :
  classifier (Adam_step opt m).2 = classifier m ∧
  training (Adam_step opt m).2 = training m.
Proof. unfold Adam_step. by destruct (foldl _ _ _). Qed.

(** What one iteration of the training loop does, when it does not raise. *)
Lemma train_body_Ok (train_loader : DataLoader) (vars vars' : train_vars F) indices :
  train_body train_loader vars indices = Ok vars' ↔
  ∃ batch input_ids attention_mask ls logits loss correct,
    fetch train_loader indices = Ok batch ∧
    unpack batch = Ok (input_ids, attention_mask, ls) ∧
    forward (zero_grad (tv_optimizer vars) (tv_model vars)) input_ids attention_mask
      = Ok logits ∧
    criterion logits ls = Ok loss ∧
    count_correct logits ls = Ok correct ∧
    let stepped :=
      Adam_step (tv_optimizer vars)
        (backward (zero_grad (tv_optimizer vars) (tv_model vars))
           input_ids attention_mask ls) in
    vars' = {| tv_model := stepped.2;
               tv_optimizer := stepped.1;
               total_train_loss := f_add (total_train_loss vars) loss;
               total_train_correct := total_train_correct vars + correct;
               total_examples := total_examples vars + length ls |}.
Proof.
  unfold train_body. split.
  - intros H.
    destruct (fetch train_loader indices) as [batch|] eqn:Hf; [|done].
    rewrite bind_Ok in H.
    destruct (unpack batch) as [[[input_ids attention_mask] ls]|] eqn:Hu; [|done].
    rewrite bind_Ok in H.
    destruct (forward _ input_ids attention_mask) as [logits|] eqn:Hfw; [|done].
    rewrite bind_Ok in H.
    destruct (criterion logits ls) as [loss|] eqn:Hl; [|done].
    rewrite bind_Ok in H.
    destruct (Adam_step _ _) as [opt' m'] eqn:Hs.
    destruct (count_correct logits ls) as [correct|] eqn:Hc; [|done].
    rewrite bind_Ok in H. injection H as <-.
    exists batch, input_ids, attention_mask, ls, logits, loss, correct.
    repeat split; try done. by rewrite Hs.
  - intros (batch & input_ids & attention_mask & ls & logits & loss & correct
            & -> & Hu & Hfw & Hl & Hc & ->).
    rewrite bind_Ok, Hu, bind_Ok, Hfw, bind_Ok, Hl, bind_Ok.
    destruct (Adam_step _ _) as [opt' m'].
    by rewrite Hc, bind_Ok.
Qed.

(** One iteration keeps the encoder frozen and leaves each of its parameters
    exactly as it was; the head's architecture and the optimizer's parameter
    list stay as they were. *)
Lemma train_body_frame (train_loader : DataLoader) (vars vars' : train_vars F) indices :
  encoder_frozen (tv_model vars) (tv_optimizer vars) →
  train_body train_loader vars indices = Ok vars' →
  encoder_frozen (tv_model vars') (tv_optimizer vars') ∧
  (∀ name, named_parameters (tv_model vars') !! bert_param name
           = named_parameters (tv_model vars) !! bert_param name) ∧
  (∀ name, state (tv_optimizer vars') !! bert_param name
           = state (tv_optimizer vars) !! bert_param name) ∧
  classifier (tv_model vars') = classifier (tv_model vars) ∧
  training (tv_model vars') = training (tv_model vars) ∧
  param_groups (tv_optimizer vars') = param_groups (tv_optimizer vars).
Proof.
  intros [Hout Hfrozen] Hbody.
  apply train_body_Ok in Hbody
    as (batch & input_ids & attention_mask & ls & logits & loss & correct
        & _ & _ & _ & _ & _ & ->).
  cbn [tv_model tv_optimizer].
  assert (Hsame : ∀ name,
    named_parameters
      (Adam_step (tv_optimizer vars)
         (backward (zero_grad (tv_optimizer vars) (tv_model vars))
            input_ids attention_mask ls)).2 !! bert_param name
    = named_parameters (tv_model vars) !! bert_param name).
  { intros name. rewrite Adam_step_lookup_other by apply Hout.
    rewrite backward_lookup, zero_grad_lookup_other by apply Hout.
    destruct (named_parameters (tv_model vars) !! bert_param name) as [p|] eqn:Hp; [|done].
    destruct (Hfrozen name p Hp) as [Hrg _]. simpl. by rewrite Hrg. }
  split; [split|split; [done|split]].
  - intros name. rewrite Adam_step_param_groups. apply Hout.
  - intros name p. rewrite Hsame. apply Hfrozen.
  - intros name. apply Adam_step_state_other, Hout.
  - destruct (Adam_step_classifier (tv_optimizer vars)
               (backward (zero_grad (tv_optimizer vars) (tv_model vars))
                  input_ids attention_mask ls)) as [-> ->].
    by rewrite Adam_step_param_groups.
Qed.

End TrainingStep.

(** ** Accuracy: argmax and compare *)

Section AccuracyProperties.
Context {F : Type} `{!Scalar F} `{!Imports F}.

Lemma argmax_from_range (best : F) best_i i row :
  best_i < i → argmax_from best best_i i row < i + length row.
Proof.
  revert best best_i i. induction row as [|x row IH]; intros best best_i i Hlt; simpl.
  - lia.
  - destruct (f_ltb best x).
    + specialize (IH x i (S i)). lia.
    + specialize (IH best best_i (S i)). lia.
Qed.

(** The argmax of a non-empty row is a position of the row. *)
Lemma argmax_range (row : list F) :
  row ≠ [] → ∃ z, argmax row = Ok z ∧ (0 ≤ z < Z.of_nat (length row))%Z.
Proof.
  destruct row as [|x row]; [done|]. intros _. eexists. split; [done|].
  pose proof (argmax_from_range x 0 1 row). simpl. lia.
Qed.

(** Over two logits it is class 0 or class 1, and class 1 exactly when the
    second logit is strictly the greater. *)
Lemma argmax_binary (row : list F) :
  length row = 2 → ∃ z, argmax row = Ok z ∧ (z = 0%Z ∨ z = 1%Z).
Proof.
  intros Hlen. destruct (argmax_range row) as (z & Hz & Hr).
  { intros ->. done. }
  exists z. split; [done|]. rewrite Hlen in Hr. lia.
Qed.

Lemma argmax_dim1_Ok (logits : list (list F)) :
  Forall (λ row, row ≠ []) logits →
  ∃ preds, argmax_dim1 logits = Ok preds ∧
           Forall2 (λ row p, argmax row = Ok p) logits preds.
Proof.
  intros Hrows. unfold argmax_dim1.
  assert (∃ preds, Forall2 (λ row p, argmax row = Ok p) logits preds) as [preds Hp].
  { induction Hrows as [|row logits Hrow _ [preds IH]]; [by exists []|].
    destruct (argmax_range row Hrow) as (z & Hz & _). exists (z :: preds). by constructor. }
  exists preds. split; [|done]. by apply mapM_Ok_Forall2.
Qed.

Lemma matches_correct_examples (logits : list (list F)) preds :
  Forall2 (λ row p, argmax row = Ok p) logits preds →
  ∀ ls, length (filter (λ pl : Z * Z, pl.1 = pl.2) (zip preds ls))
        = correct_examples (zip logits ls).
Proof.
  unfold correct_examples.
  induction 1 as [|row p logits preds Hp _ IH]; intros [|l ls]; simpl; try done.
  rewrite !filter_cons. simpl. rewrite Hp.
  destruct (decide (p = l)) as [->|Hne].
  - rewrite decide_True by done. simpl. by rewrite IH.
  - rewrite decide_False by congruence. apply IH.
Qed.

(** [count_correct] is the number of examples of the batch whose argmax is
    their label. *)
Lemma count_correct_spec (logits : list (list F)) (ls : list Z) :
  length logits = length ls → Forall (λ row, row ≠ []) logits →
  count_correct logits ls = Ok (correct_examples (zip logits ls)).
Proof.
  intros Hlen Hrows. unfold count_correct.
  destruct (argmax_dim1_Ok logits Hrows) as (preds & -> & Hp). rewrite bind_Ok.
  unfold eq_sum. rewrite bool_decide_eq_true_2.
  - f_equal. by apply matches_correct_examples.
  - apply Forall2_length in Hp. congruence.
Qed.

Lemma correct_examples_app (e1 e2 : list (list F * Z)) :
  correct_examples (e1 ++ e2) = correct_examples e1 + correct_examples e2.
Proof. unfold correct_examples. by rewrite filter_app, length_app. Qed.

Lemma correct_examples_le (examples : list (list F * Z)) :
  correct_examples examples ≤ length examples.
Proof. unfold correct_examples. apply length_filter. Qed.

Lemma examples_of_cons o (obs : list (list (list F) * list Z)) :
  examples_of (o :: obs) = zip o.1 o.2 ++ examples_of obs.
Proof. reflexivity. Qed.

Lemma binary_logits_rows (o : list (list F) * list Z) :
  binary_logits o → Forall (λ row, row ≠ []) o.1.
Proof.
  intros (_ & _ & Hrows & _). eapply Forall_impl; [exact Hrows|].
  intros row Hrow ->. done.
Qed.

Lemma binary_logits_examples (o : list (list F) * list Z) :
  binary_logits o → length (zip o.1 o.2) = length o.2 ∧ (zip o.1 o.2).*2 = o.2.
Proof.
  intros (Hlen & _). split.
  - rewrite length_zip_with. lia.
  - apply snd_zip. lia.
Qed.

(** On such a batch the loss is defined. *)
Lemma criterion_binary (o : list (list F) * list Z) :
  binary_logits o → criterion o.1 o.2 = Ok (cross_entropy o.1 o.2).
Proof.
  intros (Hlen & _ & Hrows & Hls). unfold criterion.
  rewrite bool_decide_eq_true_2 by done.
  rewrite bool_decide_eq_true_2; [done|].
  apply Forall2_same_length_lookup. split; [done|].
  intros i row l Hrow Hl. right.
  rewrite (Forall_lookup_1 _ _ _ _ Hrows Hrow).
  destruct (Forall_lookup_1 _ _ _ _ Hls Hl) as [-> | ->]; lia.
Qed.

Lemma criterion_value (logits : list (list F)) ls loss :
  criterion logits ls = Ok loss → loss = cross_entropy logits ls.
Proof.
  unfold criterion. repeat case_bool_decide; congruence.
Qed.

End AccuracyProperties.

(** ** Cells 10 and 11: what the loops compute *)

Section LoopProperties.
Context {F : Type} `{!Scalar F} `{!Imports F}.

Lemma batches_of_pass_fetchable loader n batches :
  batches_of_pass loader n batches → Forall (fetchable loader) batches.
Proof.
  intros (_ & _ & Hsz & _ & _ & Hf).
  apply Forall_forall. intros b Hb.
  rewrite Forall_forall in Hsz, Hf. specialize (Hsz b Hb). specialize (Hf b Hb).
  split; [|done]. intros ->. simpl in Hsz. lia.
Qed.

Lemma labels_at_binary (lbls : list Z) (b : list nat) ls :
  binary_labels lbls → Forall2 (λ i l, lbls !! i = Some l) b ls → binary_labels ls.
Proof.
  intros Hbin H. induction H as [|i l b ls Hi _ IH]; constructor; [|done].
  by eapply (Forall_lookup_1 _ _ _ _ Hbin).
Qed.

(** The model's logits on a fetchable batch. *)
Lemma batch_logits_total (model : CustomBERTModel F) loader b :
  pooler_output_shape →
  classifier model = classifier (__init__ 2) →
  binary_labels (labels (dataset loader)) →
  fetchable loader b →
  ∃ o, batch_logits model loader b = Ok o ∧ binary_logits o ∧
       Forall2 (λ i l, labels (dataset loader) !! i = Some l) b o.2.
Proof.
  intros Hbert Hc Hbin [Hne (ids & mask & ls & (batch & Hf & Hu) & Hli & Hlm & Hls)].
  destruct (forward_shape model 2 ids mask Hbert Hc) as (logits & Hfw & Hll & Hrows).
  exists (logits, ls). unfold batch_logits.
  rewrite Hf, bind_Ok, Hu, bind_Ok, Hfw, bind_Ok. split; [done|]. split; [|done].
  pose proof (Forall2_length _ _ _ Hls) as Hlen.
  repeat split; simpl; [congruence | | done | by eapply labels_at_binary].
  intros ->. destruct b; [done | simpl in Hlen; lia].
Qed.

Lemma batch_logits_Ok (model : CustomBERTModel F) loader b o :
  batch_logits model loader b = Ok o ↔
  ∃ batch input_ids attention_mask,
    fetch loader b = Ok batch ∧
    unpack batch = Ok (input_ids, attention_mask, o.2) ∧
    forward model input_ids attention_mask = Ok o.1.
Proof.
  unfold batch_logits. split.
  - intros H.
    destruct (fetch loader b) as [batch|] eqn:Hf; [|done]. rewrite bind_Ok in H.
    destruct (unpack batch) as [[[ids mask] ls]|] eqn:Hu; [|done]. rewrite bind_Ok in H.
    destruct (forward model ids mask) as [logits|] eqn:Hfw; [|done]. rewrite bind_Ok in H.
    injection H as <-. by exists batch, ids, mask.
  - intros (batch & ids & mask & -> & Hu & Hfw).
    rewrite bind_Ok, Hu, bind_Ok, Hfw, bind_Ok. by destruct o.
Qed.

(** A training step on a fetchable batch. *)
Lemma train_step_total loader (s : CustomBERTModel F * Adam F) b :
  pooler_output_shape →
  classifier s.1 = classifier (__init__ 2) →
  binary_labels (labels (dataset loader)) →
  fetchable loader b →
  ∃ s' o, train_step loader s b = Ok (s', o) ∧
          batch_logits (zero_grad s.2 s.1) loader b = Ok o ∧
          binary_logits o ∧
          Forall2 (λ i l, labels (dataset loader) !! i = Some l) b o.2 ∧
          classifier s'.1 = classifier (__init__ 2).
Proof.
  intros Hbert Hc Hbin Hfetch.
  destruct (batch_logits_total (zero_grad s.2 s.1) loader b Hbert Hc Hbin Hfetch)
    as (o & Hbl & Hbinary & Hls).
  pose proof Hbl as Hbl'.
  apply batch_logits_Ok in Hbl as (batch & ids & mask & Hf & Hu & Hfw).
  exists ((Adam_step s.2 (backward (zero_grad s.2 s.1) ids mask o.2)).2,
          (Adam_step s.2 (backward (zero_grad s.2 s.1) ids mask o.2)).1), o.
  split; [|split; [done|split; [done|split; [done|]]]].
  - unfold train_step. rewrite Hf, bind_Ok, Hu, bind_Ok, Hfw, bind_Ok.
    rewrite (criterion_binary o Hbinary), bind_Ok. by destruct o.
  - cbn [fst snd]. destruct (Adam_step_classifier s.2
      (backward (zero_grad s.2 s.1) ids mask o.2)) as [-> _]. done.
Qed.

(** A pass of training steps over fetchable batches. *)
Lemma train_scan_total loader batches :
  pooler_output_shape →
  binary_labels (labels (dataset loader)) →
  Forall (fetchable loader) batches →
  ∀ s : CustomBERTModel F * Adam F,
    classifier s.1 = classifier (__init__ 2) →
    ∃ s' obs, scan (train_step loader) s batches = Ok (s', obs) ∧
              length obs = length batches ∧
              Forall binary_logits obs ∧
              Forall2 (λ i l, labels (dataset loader) !! i = Some l)
                (concat batches) (examples_of obs).*2 ∧
              classifier s'.1 = classifier (__init__ 2).
Proof.
  intros Hbert Hbin Hall. induction Hall as [|b batches Hb _ IH]; intros s Hc.
  - exists s, []. repeat split; try done; constructor.
  - destruct (train_step_total loader s b Hbert Hc Hbin Hb)
      as (s1 & o & Hstep & _ & Ho & Hls & Hc1).
    destruct (IH s1 Hc1) as (s' & obs & Hscan & Hlen & Hobs & Hlss & Hc').
    exists s', (o :: obs). cbn [scan]. rewrite Hstep, bind_Ok. cbn [fst snd].
    rewrite Hscan, bind_Ok. cbn [fst snd].
    split; [done|]. split; [simpl; by rewrite Hlen|]. split; [by constructor|].
    split; [|done].
    rewrite examples_of_cons, fmap_app. cbn [concat].
    apply Forall2_app; [|done].
    by rewrite (proj2 (binary_logits_examples o Ho)).
Qed.

(** The training loop's accumulators, given what the pass saw: the losses
    added up in order, the correct examples and the examples counted. *)
Lemma train_loop_accumulates loader batches :
  ∀ (vars : train_vars F) s' obs,
    scan (train_step loader) (tv_model vars, tv_optimizer vars) batches = Ok (s', obs) →
    Forall binary_logits obs →
    for_each (train_body loader) vars batches =
    Ok {| tv_model := s'.1;
          tv_optimizer := s'.2;
          total_train_loss := foldl f_add (total_train_loss vars) (batch_losses obs);
          total_train_correct := total_train_correct vars + correct_examples (examples_of obs);
          total_examples := total_examples vars + length (examples_of obs) |}.
Proof.
  induction batches as [|b batches IH]; intros vars s' obs Hscan Hobs.
  - injection Hscan as <- <-. simpl. rewrite !Nat.add_0_r. by destruct vars.
  - cbn [scan] in Hscan.
    destruct (train_step loader _ b) as [[s1 o]|] eqn:Hstep; [|done].
    rewrite bind_Ok in Hscan. cbn [fst snd] in Hscan.
    destruct (scan (train_step loader) s1 batches) as [[s2 obs']|] eqn:Hrest; [|done].
    rewrite bind_Ok in Hscan. cbn [fst snd] in Hscan. injection Hscan as <- <-.
    apply Forall_cons in Hobs as [Ho Hobs].
    unfold train_step in Hstep. cbn [fst snd] in Hstep.
    destruct (fetch loader b) as [batch|] eqn:Hf; [|done]. rewrite bind_Ok in Hstep.
    destruct (unpack batch) as [[[ids mask] ls]|] eqn:Hu; [|done].
    rewrite bind_Ok in Hstep.
    destruct (forward _ ids mask) as [logits|] eqn:Hfw; [|done].
    rewrite bind_Ok in Hstep.
    destruct (criterion logits ls) as [loss|] eqn:Hl; [|done].
    rewrite bind_Ok in Hstep. injection Hstep as <- <-.
    apply criterion_value in Hl as Hloss.
    cbn [for_each].
    set (stepped := Adam_step (tv_optimizer vars)
           (backward (zero_grad (tv_optimizer vars) (tv_model vars)) ids mask ls)) in *.
    assert (train_body loader vars b =
            Ok {| tv_model := stepped.2;
                  tv_optimizer := stepped.1;
                  total_train_loss := f_add (total_train_loss vars) loss;
                  total_train_correct :=
                    total_train_correct vars + correct_examples (zip logits ls);
                  total_examples := total_examples vars + length ls |}) as ->.
    { apply train_body_Ok.
      exists batch, ids, mask, ls, logits, loss, (correct_examples (zip logits ls)).
      repeat split; try done.
      pose proof (binary_logits_rows (logits, ls) Ho) as Hrows.
      destruct Ho as (Hlen & _). by apply count_correct_spec. }
    rewrite bind_Ok.
    rewrite (IH _ s2 obs'); [|done|done].
    cbn [tv_model tv_optimizer total_train_loss total_train_correct total_examples].
    rewrite examples_of_cons, correct_examples_app, length_app. cbn [fst snd].
    pose proof (proj1 (binary_logits_examples (logits, ls) Ho)) as Hzip.
    cbn [fst snd] in Hzip. rewrite Hzip.
    f_equal. unfold batch_losses. cbn [fmap list_fmap foldl fst snd]. subst loss.
    f_equal; lia.
Qed.

(** One iteration of the validation loop and of the test loop, given the
    logits of the batch. *)
Lemma val_body_value (model : CustomBERTModel F) loader (vars : val_vars) b o :
  batch_logits model loader b = Ok o → binary_logits o →
  val_body model loader vars b =
  Ok {| total_val_loss := f_add (total_val_loss vars) (cross_entropy o.1 o.2);
        total_val_correct := total_val_correct vars + correct_examples (zip o.1 o.2);
        total_val_examples := total_val_examples vars + length o.2 |}.
Proof.
  intros Hb Ho.
  apply batch_logits_Ok in Hb as (batch & ids & mask & Hf & Hu & Hfw).
  unfold val_body.
  rewrite Hf, bind_Ok, Hu, bind_Ok, Hfw, bind_Ok, (criterion_binary o Ho), bind_Ok.
  rewrite count_correct_spec; [done | by destruct Ho | by apply binary_logits_rows].
Qed.

Lemma test_body_value (model : CustomBERTModel F) loader (vars : test_vars) b o :
  batch_logits model loader b = Ok o → binary_logits o →
  test_body model loader vars b =
  Ok {| total_test_correct := total_test_correct vars + correct_examples (zip o.1 o.2);
        total_test_examples := total_test_examples vars + length o.2 |}.
Proof.
  intros Hb Ho.
  apply batch_logits_Ok in Hb as (batch & ids & mask & Hf & Hu & Hfw).
  unfold test_body.
  rewrite Hf, bind_Ok, Hu, bind_Ok, Hfw, bind_Ok.
  rewrite count_correct_spec; [done | by destruct Ho | by apply binary_logits_rows].
Qed.

(** The validation loop's accumulators, given the logits of the pass. *)
Lemma val_loop_accumulates (model : CustomBERTModel F) loader batches :
  ∀ (vars : val_vars) obs,
    mapM (batch_logits model loader) batches = Ok obs →
    Forall binary_logits obs →
    for_each (val_body model loader) vars batches =
    Ok {| total_val_loss := foldl f_add (total_val_loss vars) (batch_losses obs);
          total_val_correct := total_val_correct vars + correct_examples (examples_of obs);
          total_val_examples := total_val_examples vars + length (examples_of obs) |}.
Proof.
  induction batches as [|b batches IH]; intros vars obs Hm Hobs.
  - injection Hm as <-. simpl. rewrite !Nat.add_0_r. by destruct vars.
  - rewrite mapM_cons in Hm.
    destruct (batch_logits model loader b) as [o|] eqn:Hb; [|done].
    rewrite bind_Ok in Hm.
    destruct (mapM (batch_logits model loader) batches) as [obs'|] eqn:Hrest; [|done].
    rewrite bind_Ok in Hm. injection Hm as <-.
    apply Forall_cons in Hobs as [Ho Hobs].
    cbn [for_each]. rewrite (val_body_value model loader vars b o Hb Ho), bind_Ok.
    rewrite (IH _ obs'); [|done|done].
    cbn [total_val_loss total_val_correct total_val_examples].
    rewrite examples_of_cons, correct_examples_app, length_app.
    rewrite (proj1 (binary_logits_examples o Ho)).
    f_equal. unfold batch_losses. cbn [fmap list_fmap foldl].
    f_equal; lia.
Qed.

(** The test loop's accumulators, given the logits of the pass. *)
Lemma test_loop_accumulates (model : CustomBERTModel F) loader batches :
  ∀ (vars : test_vars) obs,
    mapM (batch_logits model loader) batches = Ok obs →
    Forall binary_logits obs →
    for_each (test_body model loader) vars batches =
    Ok {| total_test_correct := total_test_correct vars + correct_examples (examples_of obs);
          total_test_examples := total_test_examples vars + length (examples_of obs) |}.
Proof.
  induction batches as [|b batches IH]; intros vars obs Hm Hobs.
  - injection Hm as <-. simpl. rewrite !Nat.add_0_r. by destruct vars.
  - rewrite mapM_cons in Hm.
    destruct (batch_logits model loader b) as [o|] eqn:Hb; [|done].
    rewrite bind_Ok in Hm.
    destruct (mapM (batch_logits model loader) batches) as [obs'|] eqn:Hrest; [|done].
    rewrite bind_Ok in Hm. injection Hm as <-.
    apply Forall_cons in Hobs as [Ho Hobs].
    cbn [for_each]. rewrite (test_body_value model loader vars b o Hb Ho), bind_Ok.
    rewrite (IH _ obs'); [|done|done].
    cbn [total_test_correct total_test_examples].
    rewrite examples_of_cons, correct_examples_app, length_app.
    rewrite (proj1 (binary_logits_examples o Ho)).
    f_equal. f_equal; lia.
Qed.

(** The logits of a pass over fetchable batches, in evaluation. *)
Lemma eval_pass_total (model : CustomBERTModel F) loader batches :
  pooler_output_shape →
  classifier model = classifier (__init__ 2) →
  binary_labels (labels (dataset loader)) →
  Forall (fetchable loader) batches →
  ∃ obs, mapM (batch_logits model loader) batches = Ok obs ∧
         length obs = length batches ∧
         Forall binary_logits obs ∧
         Forall2 (λ i l, labels (dataset loader) !! i = Some l)
           (concat batches) (examples_of obs).*2.
Proof.
  intros Hbert Hc Hbin Hall. induction Hall as [|b batches Hb _ IH].
  - exists []. repeat split; try done; constructor.
  - destruct (batch_logits_total model loader b Hbert Hc Hbin Hb) as (o & Ho & Hbo & Hls).
    destruct IH as (obs & Hm & Hlen & Hobs & Hlss).
    exists (o :: obs). rewrite mapM_cons, Ho, bind_Ok, Hm, bind_Ok.
    split; [done|]. split; [simpl; by rewrite Hlen|]. split; [by constructor|].
    rewrite examples_of_cons, fmap_app. cbn [concat].
    apply Forall2_app; [|done].
    by rewrite (proj2 (binary_logits_examples o Hbo)).
Qed.

End LoopProperties.

(** ** Cell 10: an epoch *)

Section EpochProperties.
Context {F : Type} `{!Scalar F} `{!Imports F}.

Lemma labels_at_seq (lbls ls : list Z) :
  Forall2 (λ i l, lbls !! i = Some l) (seq 0 (length lbls)) ls → ls = lbls.
Proof.
  intros H. pose proof (Forall2_length _ _ _ H) as Hlen. rewrite length_seq in Hlen.
  apply list_eq_same_length with (length lbls); [done|done|].
  intros i x y Hi Hx Hy.
  destruct (Forall2_lookup_r _ _ _ _ _ H Hx) as (j & Hj & Hl).
  apply lookup_seq in Hj as [-> _]. simpl in Hl. congruence.
Qed.

Lemma labels_at_Permutation (lbls ls : list Z) (order : list nat) :
  order ≡ₚ seq 0 (length lbls) →
  Forall2 (λ i l, lbls !! i = Some l) order ls → ls ≡ₚ lbls.
Proof.
  intros Hperm H.
  assert (ls = (λ i, default 0%Z (lbls !! i)) <$> order) as ->.
  { clear Hperm. induction H as [|i l order ls Hi _ IH]; [done|].
    simpl. rewrite Hi. simpl. f_equal. apply IH. }
  rewrite Hperm. apply reflexive_eq, list_eq. intros i.
  rewrite list_lookup_fmap.
  destruct (decide (i < length lbls)) as [Hlt|Hge].
  - rewrite lookup_seq_lt by done. simpl.
    destruct (lookup_lt_is_Some_2 lbls i Hlt) as [x Hx]. by rewrite Hx.
  - rewrite lookup_seq_ge by lia. simpl. symmetry. apply lookup_ge_None. lia.
Qed.

(** A fresh iteration of a notebook loader. *)
Lemma iter_notebook_loader loader shuffled texts lbls (g : generator) :
  randperm_permutes →
  notebook_loader loader shuffled texts lbls →
  batches_of_pass loader (length lbls) (iter loader g).1 ∧
  concat (iter loader g).1 ≡ₚ seq 0 (length lbls) ∧
  (shuffled = false → concat (iter loader g).1 = seq 0 (length lbls)
                     ∧ (iter loader g).2 = (random_ g).2) ∧
  (shuffled = true →
     let draw := random_ (random_ g).2 in
     concat (iter loader g).1 = (randperm (manual_seed draw.1) (length lbls)).1
     ∧ (iter loader g).2 = draw.2).
Proof.
  intros Hrand Hl. pose proof (notebook_loader_make_loader _ _ _ _ Hl) as ->.
  destruct Hl as (_ & Hlen & _ & _).
  unfold iter. cbn [dataset make_loader batch_size shuffle].
  unfold __len__. cbn [labels tokenized_dataset].
  destruct (random_ g) as [base_seed g1]. cbn [snd].
  destruct shuffled.
  - destruct (random_ g1) as [seed g2]. cbn [fst snd].
    specialize (Hrand (manual_seed seed) (length lbls)).
    split; [by apply pass_over_loader|].
    rewrite (BatchSampler_concat _ 8 []). rewrite app_nil_l.
    split; [done|]. split; [done|]. done.
  - cbn [fst snd]. split; [by apply pass_over_loader|].
    rewrite (BatchSampler_concat _ 8 []). rewrite app_nil_l.
    split; [done|]. split; [done|]. done.
Qed.

Lemma DataLoader_len_pos loader shuffle texts lbls :
  notebook_loader loader shuffle texts lbls → 0 < DataLoader_len loader.
Proof.
  intros Hl. pose proof (notebook_loader_make_loader _ _ _ _ Hl) as ->.
  destruct Hl as (_ & _ & Hne & _). rewrite DataLoader_len_make_loader.
  cbn [labels tokenized_dataset].
  destruct lbls as [|l lbls]; [done|]. cbn [length].
  apply Nat.div_str_pos. lia.
Qed.

Lemma notebook_loader_labels loader shuffle texts lbls :
  notebook_loader loader shuffle texts lbls → labels (dataset loader) = lbls.
Proof. intros Hl. by rewrite (notebook_loader_make_loader _ _ _ _ Hl). Qed.

Lemma float_truediv_mean (xs : list F) n :
  0 < n → length xs = n →
  float_truediv (foldl f_add f_zero xs) n = Ok (mean xs).
Proof.
  intros Hpos <-. unfold float_truediv, mean.
  destruct (length xs); [lia | done].
Qed.

Lemma py_truediv_accuracy (examples : list (list F * Z)) :
  0 < length examples →
  py_truediv (0 + correct_examples examples) (0 + length examples)
  = Ok (accuracy examples).
Proof.
  intros Hpos. rewrite !Nat.add_0_l. unfold py_truediv, accuracy.
  destruct (length examples); [lia | done].
Qed.

(** One epoch over notebook loaders runs to its end, and is the epoch
    [epoch_pass] describes. *)
Lemma epoch_body_total train_loader val_loader train_texts train_labels
    val_texts val_labels (prog : program F) (epoch : nat) :
  pooler_output_shape → randperm_permutes →
  notebook_loader train_loader true train_texts train_labels →
  notebook_loader val_loader false val_texts val_labels →
  classifier (model prog) = classifier (__init__ 2) →
  ∃ tobs vobs prog',
    epoch_body train_loader val_loader prog epoch = Ok prog' ∧
    epoch_pass train_loader val_loader epoch prog tobs vobs prog' ∧
    classifier (model prog') = classifier (__init__ 2) ∧
    length tobs = DataLoader_len train_loader ∧
    length vobs = DataLoader_len val_loader ∧
    Forall binary_logits tobs ∧ Forall binary_logits vobs ∧
    (examples_of tobs).*2 ≡ₚ train_labels ∧
    (examples_of vobs).*2 = val_labels.
Proof.
  intros Hbert Hrand Htl Hvl Hc.
  pose proof (notebook_loader_labels _ _ _ _ Htl) as Htlabels.
  pose proof (notebook_loader_labels _ _ _ _ Hvl) as Hvlabels.
  destruct (iter_notebook_loader _ _ _ _ (default_generator prog) Hrand Htl)
    as (Htpass & Htperm & _ & _).
  destruct (iter_notebook_loader _ _ _ _ (iter train_loader (default_generator prog)).2
              Hrand Hvl) as (Hvpass & _ & Hvseq & _).
  destruct (Hvseq eq_refl) as [Hvconcat _].
  assert (binary_labels (labels (dataset train_loader))) as Htbin
    by (rewrite Htlabels; apply Htl).
  assert (binary_labels (labels (dataset val_loader))) as Hvbin
    by (rewrite Hvlabels; apply Hvl).
  destruct (train_scan_total train_loader _ Hbert Htbin
              (batches_of_pass_fetchable _ _ _ Htpass)
              (set_training (model prog) true, optimizer prog) Hc)
    as (trained & tobs & Hscan & Htlen & Htobs & Htls & Hc1).
  destruct (eval_pass_total (set_training trained.1 false) val_loader _ Hbert Hc1 Hvbin
              (batches_of_pass_fetchable _ _ _ Hvpass))
    as (vobs & Hmap & Hvlen & Hvobs & Hvls).
  rewrite Htlabels in Htls. rewrite Hvlabels, Hvconcat in Hvls.
  apply labels_at_seq in Hvls.
  pose proof (labels_at_Permutation _ _ _ Htperm Htls) as Htp.
  destruct Htpass as (Htn & _). destruct Hvpass as (Hvn & _).
  assert (0 < length (examples_of tobs)) as Htpos.
  { apply Permutation_length in Htp. rewrite length_fmap in Htp. rewrite Htp.
    destruct Htl as (_ & _ & Hne & _). destruct train_labels; [done | simpl; lia]. }
  assert (0 < length (examples_of vobs)) as Hvpos.
  { rewrite <- (length_fmap snd), Hvls.
    destruct Hvl as (_ & _ & Hne & _). destruct val_labels; [done | simpl; lia]. }
  exists tobs, vobs.
  exists {| model := set_training trained.1 false;
            optimizer := trained.2;
            default_generator :=
              (iter val_loader (iter train_loader (default_generator prog)).2).2;
            stdout := stdout prog ++ epoch_report epoch tobs vobs |}.
  split; [|split; [|repeat split; try done; congruence]].
  - unfold epoch_body.
    destruct (iter train_loader (default_generator prog)) as [tb g1] eqn:Hti.
    cbn [fst snd] in *.
    destruct (iter val_loader g1) as [vb g2] eqn:Hvi. cbn [fst snd] in *.
    rewrite (train_loop_accumulates train_loader tb
               {| tv_model := set_training (model prog) true;
                  tv_optimizer := optimizer prog;
                  total_train_loss := f_zero;
                  total_train_correct := 0;
                  total_examples := 0 |} trained tobs Hscan Htobs), bind_Ok.
    cbn [tv_model tv_optimizer total_train_loss total_train_correct total_examples].
    rewrite float_truediv_mean;
      [|by eapply DataLoader_len_pos|unfold batch_losses; rewrite length_fmap; congruence].
    rewrite bind_Ok, py_truediv_accuracy, bind_Ok by done.
    rewrite (val_loop_accumulates _ val_loader vb _ vobs Hmap Hvobs), bind_Ok.
    cbn [total_val_loss total_val_correct total_val_examples].
    rewrite float_truediv_mean;
      [|by eapply DataLoader_len_pos|unfold batch_losses; rewrite length_fmap; congruence].
    rewrite bind_Ok, py_truediv_accuracy, bind_Ok by done.
    reflexivity.
  - unfold epoch_pass. exists trained. done.
Qed.

End EpochProperties.

(** ** Cell 10: one optimizer step per batch *)

Section OptimizerSteps.
Context {F : Type} `{!Scalar F} `{!Imports F}.

(** Folding [Adam.step] over distinct parameters that all have a gradient
    advances the step count of each by one and of no other, and changes
    neither which parameters exist nor their [requires_grad]. *)
Lemma Adam_fold_steps names :
  ∀ acc : gmap pname (nn_Parameter F) * gmap pname (AdamState F),
    NoDup names →
    (∀ name, name ∈ names → ∃ p g, acc.1 !! name = Some p ∧ grad p = Some g) →
    (∀ name, name ∈ names →
       ∃ st, (foldl Adam_step_param acc names).2 !! name = Some st ∧
             step st = S (default 0 (step <$> acc.2 !! name))) ∧
    (∀ name, name ∉ names →
       (foldl Adam_step_param acc names).2 !! name = acc.2 !! name) ∧
    (∀ name, match acc.1 !! name with
             | Some p => ∃ p', (foldl Adam_step_param acc names).1 !! name = Some p' ∧
                               requires_grad p' = requires_grad p ∧ grad p' = grad p
             | None => (foldl Adam_step_param acc names).1 !! name = None
             end).
Proof.
  induction names as [|a names IH]; intros acc Hnd Hgrad.
  - split; [|split].
    + intros name Hin. by apply elem_of_nil in Hin.
    + done.
    + intros name. simpl. destruct (acc.1 !! name); eauto.
  - apply NoDup_cons in Hnd as [Ha Hnd].
    destruct (Hgrad a) as (p & g & Hp & Hg); [by left|].
    destruct acc as [params st]. cbn [fst snd] in *.
    set (st0 := default {| step := 0;
                           exp_avg := replicate (length (data p)) f_zero;
                           exp_avg_sq := replicate (length (data p)) f_zero |}
                        (st !! a)).
    destruct (adam_update (S (step st0)) (data p) g (exp_avg st0) (exp_avg_sq st0))
      as [[d m] v] eqn:Hupd.
    set (p1 := {| data := d; requires_grad := requires_grad p; grad := grad p |}).
    set (st1 := {| step := S (step st0); exp_avg := m; exp_avg_sq := v |}).
    assert (Adam_step_param (params, st) a = (<[a := p1]> params, <[a := st1]> st))
      as Hone.
    { unfold Adam_step_param. rewrite Hp, Hg. fold st0. rewrite Hupd.
      unfold p1. by rewrite Hg. }
    cbn [foldl]. rewrite Hone.
    destruct (IH (<[a := p1]> params, <[a := st1]> st) Hnd) as (Hin & Hout & Hsame).
    { intros name Hname. cbn [fst]. rewrite lookup_insert_ne by (intros ->; done).
      apply Hgrad. by right. }
    cbn [fst snd] in *. split; [|split].
    + intros name Hname. apply elem_of_cons in Hname as [->|Hname].
      * rewrite (Hout a Ha), lookup_insert_eq. eexists. split; [done|].
        unfold st1, st0. cbn [step]. by destruct (st !! a).
      * destruct (Hin name Hname) as (st' & Hst' & Hstep). exists st'. split; [done|].
        rewrite Hstep, lookup_insert_ne; [done|]. intros ->. done.
    + intros name Hname. apply not_elem_of_cons in Hname as [Hne Hname].
      rewrite (Hout name Hname). by rewrite lookup_insert_ne.
    + intros name. specialize (Hsame name).
      destruct (decide (a = name)) as [<-|Hne].
      * rewrite lookup_insert_eq in Hsame. rewrite Hp.
        destruct Hsame as (p' & Hp' & Hr & Hg'). by exists p'.
      * by rewrite lookup_insert_ne in Hsame.
Qed.

(** One training step advances the step count of every parameter of the
    optimizer by one. *)
Lemma train_step_steps loader (s s' : CustomBERTModel F * Adam F) b o :
  optimizes s.2 s.1 →
  train_step loader s b = Ok (s', o) →
  optimizes s'.2 s'.1 ∧
  param_groups s'.2 = param_groups s.2 ∧
  ∀ name, name ∈ param_groups s.2 → steps_taken s'.2 name = S (steps_taken s.2 name).
Proof.
  intros [Hnd Hreq] Hstep. unfold train_step in Hstep.
  destruct (fetch loader b) as [batch|]; [|done]. rewrite bind_Ok in Hstep.
  destruct (unpack batch) as [[[ids mask] ls]|]; [|done]. rewrite bind_Ok in Hstep.
  destruct (forward _ ids mask) as [logits|]; [|done]. rewrite bind_Ok in Hstep.
  destruct (criterion logits ls) as [loss|]; [|done]. rewrite bind_Ok in Hstep.
  injection Hstep as <- <-. cbn [fst snd].
  set (m := backward (zero_grad s.2 s.1) ids mask ls).
  assert (Hgrad : ∀ name, name ∈ param_groups s.2 →
            ∃ p g, named_parameters m !! name = Some p ∧ grad p = Some g
                   ∧ requires_grad p = true).
  { intros name Hin. destruct (Hreq name Hin) as (p & Hp & Hrg).
    pose proof (zero_grad_lookup s.2 s.1 name) as Hz. rewrite Hp in Hz.
    destruct Hz as (p' & Hp' & _ & Hr' & _).
    unfold m. rewrite backward_lookup, Hp'. cbn [fmap option_fmap option_map].
    rewrite Hr', Hrg. eauto. }
  unfold Adam_step.
  destruct (Adam_fold_steps (param_groups s.2) (named_parameters m, state s.2) Hnd)
    as (Hin & Hout & Hsame).
  { intros name Hname. destruct (Hgrad name Hname) as (p & g & Hp & Hg & _). eauto. }
  destruct (foldl Adam_step_param _ _) as [params st] eqn:Hfold.
  cbn [fst snd param_groups named_parameters with_named_parameters] in *.
  split; [split; [done|]|split; [done|]].
  - intros name Hname. destruct (Hgrad name Hname) as (p & g & Hp & Hg & Hrg).
    specialize (Hsame name). rewrite Hp in Hsame.
    destruct Hsame as (p' & Hp' & Hr' & _). exists p'. split; [done|]. congruence.
  - intros name Hname. destruct (Hin name Hname) as (st' & Hst' & Hs').
    unfold steps_taken. cbn [state]. rewrite Hst', Hs'.
    by destruct (state s.2 !! name).
Qed.

(** A pass of training steps advances it by the number of batches. *)
Lemma train_scan_steps loader batches :
  ∀ (s s' : CustomBERTModel F * Adam F) obs,
    optimizes s.2 s.1 →
    scan (train_step loader) s batches = Ok (s', obs) →
    optimizes s'.2 s'.1 ∧
    param_groups s'.2 = param_groups s.2 ∧
    ∀ name, name ∈ param_groups s.2 →
      steps_taken s'.2 name = steps_taken s.2 name + length batches.
Proof.
  induction batches as [|b batches IH]; intros s s' obs Hopt Hscan.
  - injection Hscan as <- <-. split; [done|]. split; [done|]. intros. simpl. lia.
  - cbn [scan] in Hscan.
    destruct (train_step loader s b) as [[s1 o]|] eqn:Hstep; [|done].
    rewrite bind_Ok in Hscan. cbn [fst snd] in Hscan.
    destruct (scan (train_step loader) s1 batches) as [[s2 obs']|] eqn:Hrest; [|done].
    rewrite bind_Ok in Hscan. cbn [fst snd] in Hscan. injection Hscan as <- <-.
    destruct (train_step_steps loader s s1 b o Hopt Hstep) as (Hopt1 & Hg1 & Hs1).
    destruct (IH s1 s2 obs' Hopt1 Hrest) as (Hopt2 & Hg2 & Hs2).
    split; [done|]. split; [congruence|].
    intros name Hname. rewrite Hs2 by (by rewrite Hg1). rewrite Hs1 by done.
    simpl. lia.
Qed.

(** An epoch advances it by [len(train_loader)], given the length of the
    training pass. *)
Lemma epoch_pass_steps train_loader val_loader epoch (prog prog' : program F) tobs vobs n :
  optimizes (optimizer prog) (model prog) →
  epoch_pass train_loader val_loader epoch prog tobs vobs prog' →
  length (iter train_loader (default_generator prog)).1 = n →
  optimizes (optimizer prog') (model prog') ∧
  param_groups (optimizer prog') = param_groups (optimizer prog) ∧
  ∀ name, name ∈ param_groups (optimizer prog) →
    steps_taken (optimizer prog') name = steps_taken (optimizer prog) name + n.
Proof.
  intros Hopt (trained & Hscan & _ & ->) <-. cbn [model optimizer].
  apply (train_scan_steps train_loader _ (set_training (model prog) true, optimizer prog)
           trained tobs Hopt Hscan).
Qed.

(** The optimizer of the notebook is one over parameters of its model, and
    has taken no step yet. *)
Lemma setup_optimizes : optimizes (optimizer setup) (model setup).
Proof.
  unfold setup. cbn [model optimizer optim_Adam param_groups]. split.
  - unfold trainable_params. apply (NoDup_fmap_fst _).
    + intros name p1 p2 H1 H2.
      apply list_elem_of_filter in H1 as [_ H1]. apply list_elem_of_filter in H2 as [_ H2].
      apply elem_of_map_to_list in H1, H2. congruence.
    + apply NoDup_filter, NoDup_map_to_list.
  - intros name Hin. by apply elem_of_trainable_params in Hin.
Qed.

Lemma setup_steps_taken name : steps_taken (optimizer setup) name = 0.
Proof. unfold steps_taken, setup. cbn [optimizer optim_Adam state]. by rewrite lookup_empty. Qed.

End OptimizerSteps.

(** ** Cell 10: the encoder stays as pretrained *)

Section FrozenDuringTraining.
Context {F : Type} `{!Scalar F} `{!Imports F}.

Lemma setup_encoder_frozen : encoder_frozen (model setup) (optimizer setup).
Proof.
  unfold setup. cbn [model optimizer optim_Adam param_groups]. split.
  - intros name Hin. apply elem_of_trainable_params in Hin as (p & Hp & Hrg).
    apply init_bert_param in Hp as (_ & Hrg' & _). congruence.
  - intros name p Hp. by apply init_bert_param in Hp as (_ & ? & ?).
Qed.

(** The encoder relative to a reference model and optimizer: frozen, every
    encoder parameter equal to the reference's, and no more optimizer state
    for it than in the reference. *)
Lemma train_loop_frame train_loader batches (reference : CustomBERTModel F)
    (reference_opt : Adam F) :
  ∀ vars vars' : train_vars F,
    encoder_frozen (tv_model vars) (tv_optimizer vars) →
    (∀ name, named_parameters (tv_model vars) !! bert_param name
             = named_parameters reference !! bert_param name) →
    (∀ name, state (tv_optimizer vars) !! bert_param name
             = state reference_opt !! bert_param name) →
    for_each (train_body train_loader) vars batches = Ok vars' →
    encoder_frozen (tv_model vars') (tv_optimizer vars') ∧
    (∀ name, named_parameters (tv_model vars') !! bert_param name
             = named_parameters reference !! bert_param name) ∧
    (∀ name, state (tv_optimizer vars') !! bert_param name
             = state reference_opt !! bert_param name).
Proof.
  intros vars vars' Hfrozen Hsame Hstate Hloop.
  apply (for_each_invariant (train_body train_loader)
    (λ v, encoder_frozen (tv_model v) (tv_optimizer v) ∧
          (∀ name, named_parameters (tv_model v) !! bert_param name
                   = named_parameters reference !! bert_param name) ∧
          (∀ name, state (tv_optimizer v) !! bert_param name
                   = state reference_opt !! bert_param name))
    ) with (xs := batches) (s := vars); [|done|done].
  intros s x s' (Hf & Hs & Hst) Hbody.
  destruct (train_body_frame train_loader s s' x Hf Hbody) as (Hf' & Hs' & Hst' & _).
  split; [done|]. split; intros name; [by rewrite Hs' | by rewrite Hst'].
Qed.

Lemma epoch_body_frame train_loader val_loader (prog prog' : program F) epoch :
  encoder_frozen (model prog) (optimizer prog) →
  epoch_body train_loader val_loader prog epoch = Ok prog' →
  encoder_frozen (model prog') (optimizer prog') ∧
  (∀ name, named_parameters (model prog') !! bert_param name
           = named_parameters (model prog) !! bert_param name) ∧
  (∀ name, state (optimizer prog') !! bert_param name
           = state (optimizer prog) !! bert_param name).
Proof.
  intros Hfrozen. unfold epoch_body.
  destruct (iter train_loader (default_generator prog)) as [tb g1].
  destruct (for_each (train_body train_loader) _ tb) as [vars|] eqn:Hloop; [|done].
  rewrite bind_Ok.
  destruct (float_truediv _ _) as [avg_train_loss|]; [|done]. rewrite bind_Ok.
  destruct (py_truediv _ _) as [train_acc|]; [|done]. rewrite bind_Ok.
  destruct (iter val_loader g1) as [vb g2].
  destruct (for_each (val_body _ val_loader) _ vb) as [vvars|]; [|done].
  rewrite bind_Ok.
  destruct (float_truediv _ _) as [avg_val_loss|]; [|done]. rewrite bind_Ok.
  destruct (py_truediv _ _) as [val_acc|]; [|done]. rewrite bind_Ok.
  intros [= <-]. cbn [model optimizer].
  apply (train_loop_frame train_loader tb (model prog) (optimizer prog)) in Hloop;
    [|done|done|done].
  exact Hloop.
Qed.

Lemma training_loop_frame train_loader val_loader (prog prog' : program F) :
  encoder_frozen (model prog) (optimizer prog) →
  training_loop train_loader val_loader prog = Ok prog' →
  encoder_frozen (model prog') (optimizer prog') ∧
  (∀ name, named_parameters (model prog') !! bert_param name
           = named_parameters (model prog) !! bert_param name) ∧
  (∀ name, state (optimizer prog') !! bert_param name
           = state (optimizer prog) !! bert_param name).
Proof.
  intros Hfrozen Hloop. unfold training_loop in Hloop.
  apply (for_each_invariant (epoch_body train_loader val_loader)
    (λ pr, encoder_frozen (model pr) (optimizer pr) ∧
           (∀ name, named_parameters (model pr) !! bert_param name
                    = named_parameters (model prog) !! bert_param name) ∧
           (∀ name, state (optimizer pr) !! bert_param name
                    = state (optimizer prog) !! bert_param name))
    ) with (xs := seq 0 EPOCHS) (s := prog); [|done|done].
  intros s x s' (Hf & Hs & Hst) Hbody.
  destruct (epoch_body_frame train_loader val_loader s s' x Hf Hbody) as (Hf' & Hs' & Hst').
  split; [done|]. split; intros name; [by rewrite Hs' | by rewrite Hst'].
Qed.

(** C1. After [__init__] every encoder parameter has
    [requires_grad = False] and no gradient; the optimizer is built over
    exactly the parameters with [requires_grad], which are the eight
    weights and biases of the head.  Every iteration of the training loop
    keeps it so and leaves every encoder parameter unchanged (data and
    gradient), because [backward] gives a gradient only to parameters that
    require one and [optimizer.step()] skips a parameter without gradient,
    as it skips any parameter it was not given.  So does the training loop
    as a whole: when it ends, each encoder parameter still holds its
    pretrained value, has received no gradient, and Adam has taken no step
    on it. *)
Theorem encoder_frozen_during_training (train_loader val_loader : DataLoader)
    (prog' : program F) :
  training_loop train_loader val_loader setup = Ok prog' →
  (∀ name p, named_parameters (model setup) !! bert_param name = Some p →
     requires_grad p = false ∧ grad p = None ∧ bert_pretrained !! name = Some (data p)) ∧
  (∀ name, name ∈ param_groups (optimizer setup) ↔
     ∃ p, named_parameters (model setup) !! name = Some p ∧ requires_grad p = true) ∧
  (∀ name, name ∈ param_groups (optimizer setup) ↔ name ∈ classifier_parameter_names) ∧
  encoder_frozen (model setup) (optimizer setup) ∧
  (∀ (m : CustomBERTModel F) input_ids attention_mask ls name p,
     named_parameters m !! name = Some p → requires_grad p = false →
     named_parameters (backward m input_ids attention_mask ls) !! name = Some p) ∧
  (∀ (opt : Adam F) (m : CustomBERTModel F) name p,
     named_parameters m !! name = Some p → grad p = None →
     named_parameters (Adam_step opt m).2 !! name = Some p) ∧
  (∀ (vars vars' : train_vars F) indices,
     encoder_frozen (tv_model vars) (tv_optimizer vars) →
     train_body train_loader vars indices = Ok vars' →
     encoder_frozen (tv_model vars') (tv_optimizer vars') ∧
     ∀ name, named_parameters (tv_model vars') !! bert_param name
             = named_parameters (tv_model vars) !! bert_param name) ∧
  encoder_frozen (model prog') (optimizer prog') ∧
  (∀ name, named_parameters (model prog') !! bert_param name
           = named_parameters (model setup) !! bert_param name) ∧
  (∀ name, steps_taken (optimizer prog') (bert_param name) = 0).
Proof.
  intros Hloop.
  destruct (training_loop_frame train_loader val_loader setup prog'
              setup_encoder_frozen Hloop) as (Hfrozen & Hsame & Hstate).
  split; [|split; [|split; [|split; [|split; [|split; [|split; [|split; [|split]]]]]]]];
    try done.
  - intros name p Hp. apply init_bert_param in Hp. tauto.
  - intros name. apply elem_of_trainable_params.
  - intros name. rewrite <- init_classifier_names.
    change (param_groups (optimizer setup)) with (trainable_params (__init__ 2)).
    rewrite elem_of_trainable_params. split.
    + intros (p & Hp & Hrg). split; [by eexists|].
      destruct name as [name|i f]; [|by eexists _, _].
      apply init_bert_param in Hp as (_ & Hrg' & _). congruence.
    + intros [[p Hp] (i & f & ->)]. exists p. split; [done|].
      by eapply init_classifier_param.
  - apply setup_encoder_frozen.
  - intros m input_ids attention_mask ls name p Hp Hrg.
    rewrite backward_lookup, Hp. simpl. by rewrite Hrg.
  - intros opt m name p. apply Adam_step_lookup_no_grad.
  - intros vars vars' indices Hf Hbody.
    destruct (train_body_frame train_loader vars vars' indices Hf Hbody) as (? & ? & _).
    done.
  - intros name. unfold steps_taken. rewrite Hstate.
    unfold setup. cbn [optimizer optim_Adam state]. by rewrite lookup_empty.
Qed.

End FrozenDuringTraining.

(** ** Cells 10 to 12: the reports *)

Section Reports.
Context {F : Type} `{!Scalar F} `{!Imports F}.

Lemma accuracy_unit_interval (examples : list (list F * Z)) :
  (0 <= accuracy examples)%Q ∧ (accuracy examples <= 1)%Q.
Proof.
  unfold accuracy, Qle. cbn [Qnum Qden].
  pose proof (correct_examples_le examples).
  destruct (length examples) as [|n] eqn:Hn; [simpl; lia|]. lia.
Qed.

Lemma epoch_pass_stdout train_loader val_loader epoch (prog prog' : program F) tobs vobs :
  epoch_pass train_loader val_loader epoch prog tobs vobs prog' →
  stdout prog' = stdout prog ++ epoch_report epoch tobs vobs.
Proof. by intros (trained & _ & _ & ->). Qed.

(** The training loop over notebook loaders runs to its end: two epochs,
    each as [epoch_pass] describes it, the second starting from the program
    the first one left. *)
Lemma training_loop_total train_loader val_loader train_texts train_labels
    val_texts val_labels (prog : program F) :
  pooler_output_shape → randperm_permutes →
  notebook_loader train_loader true train_texts train_labels →
  notebook_loader val_loader false val_texts val_labels →
  classifier (model prog) = classifier (__init__ 2) →
  ∃ tobs1 vobs1 prog1 tobs2 vobs2 prog2,
    training_loop train_loader val_loader prog = Ok prog2 ∧
    epoch_pass train_loader val_loader 0 prog tobs1 vobs1 prog1 ∧
    epoch_pass train_loader val_loader 1 prog1 tobs2 vobs2 prog2 ∧
    (length tobs1 = DataLoader_len train_loader ∧
     length tobs2 = DataLoader_len train_loader) ∧
    (length vobs1 = DataLoader_len val_loader ∧
     length vobs2 = DataLoader_len val_loader) ∧
    ((examples_of tobs1).*2 ≡ₚ train_labels ∧ (examples_of tobs2).*2 ≡ₚ train_labels) ∧
    ((examples_of vobs1).*2 = val_labels ∧ (examples_of vobs2).*2 = val_labels) ∧
    classifier (model prog2) = classifier (__init__ 2).
Proof.
  intros Hbert Hrand Htl Hvl Hc.
  destruct (epoch_body_total train_loader val_loader _ _ _ _ prog 0 Hbert Hrand Htl Hvl Hc)
    as (tobs1 & vobs1 & prog1 & Hrun1 & Hpass1 & Hc1 & Ht1 & Hv1 & _ & _ & Htl1 & Hvl1).
  destruct (epoch_body_total train_loader val_loader _ _ _ _ prog1 1 Hbert Hrand Htl Hvl Hc1)
    as (tobs2 & vobs2 & prog2 & Hrun2 & Hpass2 & Hc2 & Ht2 & Hv2 & _ & _ & Htl2 & Hvl2).
  exists tobs1, vobs1, prog1, tobs2, vobs2, prog2.
  split; [|done].
  unfold training_loop, EPOCHS. cbn [seq for_each].
  by rewrite Hrun1, bind_Ok, Hrun2, bind_Ok.
Qed.

(** C6. The training loop runs for exactly two epochs.  Each epoch passes
    once over the batches of a fresh iteration of the train loader (every
    index of the dataset in exactly one batch), taking one training step per
    batch (loss, backward, optimizer step) in order, so that after the loop
    Adam has updated each of its parameters [2 * len(train_loader)] times;
    then it evaluates on the validation loader and prints four lines: the
    epoch number out of 2, the train loss and accuracy, the validation loss
    and accuracy, a rule.  The reported loss of a pass is the sum of its
    per-batch cross-entropy losses divided by the number of batches
    [len(loader)]; the examples a pass covers are those of its dataset, each
    once. *)
Theorem training_loop_two_epochs train_loader val_loader train_texts train_labels
    val_texts val_labels (prog : program F) :
  pooler_output_shape → randperm_permutes →
  notebook_loader train_loader true train_texts train_labels →
  notebook_loader val_loader false val_texts val_labels →
  classifier (model prog) = classifier (__init__ 2) →
  optimizes (optimizer prog) (model prog) →
  EPOCHS = 2 ∧
  ∃ tobs1 vobs1 prog1 tobs2 vobs2 prog2,
    training_loop train_loader val_loader prog = Ok prog2 ∧
    epoch_pass train_loader val_loader 0 prog tobs1 vobs1 prog1 ∧
    epoch_pass train_loader val_loader 1 prog1 tobs2 vobs2 prog2 ∧
    stdout prog2 = stdout prog ++
      [ print_epoch 1 2;
        print_train (f_div (foldl f_add f_zero (batch_losses tobs1))
                       (DataLoader_len train_loader))
                    (accuracy (examples_of tobs1));
        print_val (f_div (foldl f_add f_zero (batch_losses vobs1))
                     (DataLoader_len val_loader))
                  (accuracy (examples_of vobs1));
        print_rule;
        print_epoch 2 2;
        print_train (f_div (foldl f_add f_zero (batch_losses tobs2))
                       (DataLoader_len train_loader))
                    (accuracy (examples_of tobs2));
        print_val (f_div (foldl f_add f_zero (batch_losses vobs2))
                     (DataLoader_len val_loader))
                  (accuracy (examples_of vobs2));
        print_rule ] ∧
    (length (batch_losses tobs1) = DataLoader_len train_loader ∧
     length (batch_losses tobs2) = DataLoader_len train_loader ∧
     length (batch_losses vobs1) = DataLoader_len val_loader ∧
     length (batch_losses vobs2) = DataLoader_len val_loader) ∧
    DataLoader_len train_loader = (length train_labels + 7) / 8 ∧
    DataLoader_len val_loader = (length val_labels + 7) / 8 ∧
    (concat (iter train_loader (default_generator prog)).1
       ≡ₚ seq 0 (length train_labels) ∧
     concat (iter train_loader (default_generator prog1)).1
       ≡ₚ seq 0 (length train_labels)) ∧
    ((examples_of tobs1).*2 ≡ₚ train_labels ∧ (examples_of tobs2).*2 ≡ₚ train_labels) ∧
    ((examples_of vobs1).*2 = val_labels ∧ (examples_of vobs2).*2 = val_labels) ∧
    (∀ name, name ∈ param_groups (optimizer prog) →
       steps_taken (optimizer prog2) name
       = steps_taken (optimizer prog) name + 2 * DataLoader_len train_loader).
Proof.
  intros Hbert Hrand Htl Hvl Hc Hopt. split; [reflexivity|].
  destruct (training_loop_total train_loader val_loader _ _ _ _ prog
              Hbert Hrand Htl Hvl Hc)
    as (tobs1 & vobs1 & prog1 & tobs2 & vobs2 & prog2
        & Hrun & Hp1 & Hp2 & [Ht1 Ht2] & [Hv1 Hv2] & Htl' & Hvl' & _).
  destruct (iter_notebook_loader _ _ _ _ (default_generator prog) Hrand Htl)
    as ((Hn1 & _) & Hperm1 & _).
  destruct (iter_notebook_loader _ _ _ _ (default_generator prog1) Hrand Htl)
    as ((Hn2 & _) & Hperm2 & _).
  destruct (epoch_pass_steps _ _ _ _ _ _ _ _ Hopt Hp1 Hn1) as (Hopt1 & Hg1 & Hs1).
  destruct (epoch_pass_steps _ _ _ _ _ _ _ _ Hopt1 Hp2 Hn2) as (_ & _ & Hs2).
  exists tobs1, vobs1, prog1, tobs2, vobs2, prog2.
  split; [done|]. split; [done|]. split; [done|].
  split; [|split; [|split; [|split; [|split; [|split; [|split]]]]]]; try done.
  - rewrite (epoch_pass_stdout _ _ _ _ _ _ _ Hp2), (epoch_pass_stdout _ _ _ _ _ _ _ Hp1).
    rewrite <- app_assoc. f_equal. unfold epoch_report, mean, batch_losses, EPOCHS.
    rewrite !length_fmap, Ht1, Ht2, Hv1, Hv2. reflexivity.
  - unfold batch_losses. by rewrite !length_fmap.
  - rewrite (notebook_loader_make_loader _ _ _ _ Htl). apply DataLoader_len_make_loader.
  - rewrite (notebook_loader_make_loader _ _ _ _ Hvl). apply DataLoader_len_make_loader.
  - intros name Hname. rewrite Hs2 by (by rewrite Hg1). rewrite Hs1 by done. lia.
Qed.

(** The test cell over a notebook loader. *)
Lemma test_evaluation_total test_loader test_texts test_labels (prog : program F) :
  pooler_output_shape → randperm_permutes →
  notebook_loader test_loader false test_texts test_labels →
  classifier (model prog) = classifier (__init__ 2) →
  ∃ obs,
    mapM (batch_logits (set_training (model prog) false) test_loader)
         (iter test_loader (default_generator prog)).1 = Ok obs ∧
    test_evaluation test_loader prog =
    Ok {| model := set_training (model prog) false;
          optimizer := optimizer prog;
          default_generator := (random_ (default_generator prog)).2;
          stdout := stdout prog ++
            [ print_test_accuracy (accuracy (examples_of obs)) (length test_labels) ] |} ∧
    (examples_of obs).*2 = test_labels.
Proof.
  intros Hbert Hrand Htl Hc.
  pose proof (notebook_loader_labels _ _ _ _ Htl) as Hlabels.
  destruct (iter_notebook_loader _ _ _ _ (default_generator prog) Hrand Htl)
    as (Hpass & _ & Hseq & _).
  destruct (Hseq eq_refl) as [Hconcat Hg].
  assert (binary_labels (labels (dataset test_loader))) as Hbin
    by (rewrite Hlabels; apply Htl).
  destruct (eval_pass_total (set_training (model prog) false) test_loader _ Hbert Hc Hbin
              (batches_of_pass_fetchable _ _ _ Hpass))
    as (obs & Hmap & Hlen & Hobs & Hls).
  rewrite Hlabels, Hconcat in Hls. apply labels_at_seq in Hls.
  assert (length (examples_of obs) = length test_labels) as Hn
    by (by rewrite <- (length_fmap snd), Hls).
  exists obs. split; [done|]. split; [|done].
  unfold test_evaluation.
  destruct (iter test_loader (default_generator prog)) as [batches g] eqn:Hi.
  cbn [fst snd] in *. subst g.
  rewrite (test_loop_accumulates _ test_loader batches _ obs Hmap Hobs), bind_Ok.
  cbn [total_test_correct total_test_examples].
  rewrite py_truediv_accuracy, bind_Ok.
  - rewrite Nat.add_0_l, Hn. reflexivity.
  - rewrite Hn. destruct Htl as (_ & _ & Hne & _).
    destruct test_labels; [done | simpl; lia].
Qed.

(** C5. Every accuracy the notebook reports is the number of examples of
    the partition whose argmax over the logits equals their label, divided
    by the number of examples of the partition, and lies in [0, 1]: the
    test accuracy of cell 11, over the test examples in dataset order, and
    the train and validation accuracies of an epoch of cell 10, over the
    examples each pass covered. *)
Theorem accuracy_argmax_compare test_loader test_texts test_labels
    train_loader val_loader train_texts train_labels val_texts val_labels
    (prog : program F) (epoch : nat) :
  pooler_output_shape → randperm_permutes →
  notebook_loader test_loader false test_texts test_labels →
  notebook_loader train_loader true train_texts train_labels →
  notebook_loader val_loader false val_texts val_labels →
  classifier (model prog) = classifier (__init__ 2) →
  (∃ obs prog' test_acc,
     test_evaluation test_loader prog = Ok prog' ∧
     mapM (batch_logits (set_training (model prog) false) test_loader)
          (iter test_loader (default_generator prog)).1 = Ok obs ∧
     (examples_of obs).*2 = test_labels ∧
     stdout prog' = stdout prog ++ [ print_test_accuracy test_acc (length test_labels) ] ∧
     test_acc = (Z.of_nat (length (filter (λ e, argmax e.1 = Ok e.2) (examples_of obs)))
                 # Pos.of_nat (length test_labels))%Q ∧
     (0 <= test_acc)%Q ∧ (test_acc <= 1)%Q) ∧
  (∃ tobs vobs prog' train_loss train_acc val_loss val_acc,
     epoch_body train_loader val_loader prog epoch = Ok prog' ∧
     epoch_pass train_loader val_loader epoch prog tobs vobs prog' ∧
     (examples_of tobs).*2 ≡ₚ train_labels ∧
     (examples_of vobs).*2 = val_labels ∧
     stdout prog' = stdout prog ++
       [ print_epoch (epoch + 1) 2;
         print_train train_loss train_acc;
         print_val val_loss val_acc;
         print_rule ] ∧
     train_acc = (Z.of_nat (length (filter (λ e, argmax e.1 = Ok e.2) (examples_of tobs)))
                  # Pos.of_nat (length train_labels))%Q ∧
     val_acc = (Z.of_nat (length (filter (λ e, argmax e.1 = Ok e.2) (examples_of vobs)))
                # Pos.of_nat (length val_labels))%Q ∧
     (0 <= train_acc)%Q ∧ (train_acc <= 1)%Q ∧
     (0 <= val_acc)%Q ∧ (val_acc <= 1)%Q).
Proof.
  intros Hbert Hrand Htest Htl Hvl Hc. split.
  - destruct (test_evaluation_total test_loader _ _ prog Hbert Hrand Htest Hc)
      as (obs & Hmap & Hrun & Hls).
    eexists obs, _, (accuracy (examples_of obs)).
    split; [exact Hrun|]. split; [done|]. split; [done|]. split; [done|].
    split; [|apply accuracy_unit_interval].
    unfold accuracy, correct_examples.
    by rewrite <- (length_fmap snd (examples_of obs)), Hls.
  - destruct (epoch_body_total train_loader val_loader _ _ _ _ prog epoch
                Hbert Hrand Htl Hvl Hc)
      as (tobs & vobs & prog' & Hrun & Hpass & _ & _ & _ & _ & _ & Htp & Hvp).
    exists tobs, vobs, prog', (mean (batch_losses tobs)), (accuracy (examples_of tobs)),
      (mean (batch_losses vobs)), (accuracy (examples_of vobs)).
    split; [done|]. split; [done|]. split; [done|]. split; [done|].
    split; [by rewrite (epoch_pass_stdout _ _ _ _ _ _ _ Hpass)|].
    split; [|split; [|by repeat split; apply accuracy_unit_interval]].
    + unfold accuracy, correct_examples.
      by rewrite <- (length_fmap snd (examples_of tobs)), (Permutation_length Htp).
    + unfold accuracy, correct_examples.
      by rewrite <- (length_fmap snd (examples_of vobs)), Hvp.
Qed.

Lemma sentiment_cases (pred : Z) :
  (sentiment pred = "POSITIVE" ↔ pred = 1%Z) ∧
  (sentiment pred = "NEGATIVE" ↔ pred ≠ 1%Z).
Proof.
  unfold sentiment. case_bool_decide; split; split; try done; congruence.
Qed.

(** C8. The inference cell prints, for each example text, the sentiment of
    the argmax of its two logits: "POSITIVE" exactly when the predicted
    class is 1, "NEGATIVE" otherwise, that is, exactly when it is 0.  The
    label depends on the prediction alone. *)
Theorem sentiment_by_argmax (example_texts : list string) (prog : program F) :
  pooler_output_shape →
  classifier (model prog) = classifier (__init__ 2) →
  (∀ pred, (sentiment pred = "POSITIVE" ↔ pred = 1%Z) ∧
           (sentiment pred = "NEGATIVE" ↔ pred ≠ 1%Z)) ∧
  ∃ input_ids attention_mask logits predictions prog',
    tokenizer example_texts 256 to_max_length true !! "input_ids" = Some input_ids ∧
    tokenizer example_texts 256 to_max_length true !! "attention_mask"
      = Some attention_mask ∧
    forward (set_training (model prog) false) input_ids attention_mask = Ok logits ∧
    Forall2 (λ row pred, argmax row = Ok pred) logits predictions ∧
    length predictions = length example_texts ∧
    inference example_texts prog = Ok prog' ∧
    stdout prog' = stdout prog ++
      print_predictions predictions ::
      zip_with (λ text pred, print_review text (sentiment pred))
               example_texts predictions ∧
    Forall (λ pred, (pred = 0%Z ∨ pred = 1%Z) ∧
                    (sentiment pred = "POSITIVE" ↔ pred = 1%Z) ∧
                    (sentiment pred = "NEGATIVE" ↔ pred = 0%Z)) predictions.
Proof.
  intros Hbert Hc. split; [apply sentiment_cases|].
  set (tokens := tokenizer example_texts 256 to_max_length true).
  destruct (tokens !! "input_ids") as [input_ids|] eqn:Hi; [|done].
  destruct (tokens !! "attention_mask") as [attention_mask|] eqn:Ha; [|done].
  assert (length input_ids = length example_texts) as Hlen.
  { unfold tokens in Hi. rewrite tokenizer_input_ids in Hi. injection Hi as <-.
    by rewrite !length_fmap. }
  destruct (forward_shape (set_training (model prog) false) 2 input_ids attention_mask
              Hbert Hc) as (logits & Hfw & Hll & Hrows).
  destruct (argmax_dim1_Ok logits) as (predictions & Hpred & Hargmax).
  { eapply Forall_impl; [exact Hrows|]. intros row Hrow ->. done. }
  pose proof (Forall2_length _ _ _ Hargmax) as Hpl.
  eexists input_ids, attention_mask, logits, predictions, _.
  split; [done|]. split; [done|]. split; [done|]. split; [done|].
  split; [congruence|]. split; [|split].
  - unfold inference. fold tokens. unfold py_getitem. rewrite Hi, Ha, !bind_Ok.
    rewrite Hfw, bind_Ok, Hpred, bind_Ok. reflexivity.
  - cbn [stdout]. do 2 f_equal. clear.
    revert predictions. induction example_texts as [|t ts IH]; intros [|p ps]; try done.
    simpl. f_equal. apply IH.
  - apply Forall_forall. intros pred Hin.
    apply list_elem_of_lookup in Hin as [i Hi'].
    destruct (Forall2_lookup_r _ _ _ _ _ Hargmax Hi') as (row & Hrow & Harg).
    pose proof (Forall_lookup_1 _ _ _ _ Hrows Hrow) as Hrl.
    destruct (argmax_binary row Hrl) as (z & Hz & Hz01).
    assert (z = pred) as -> by congruence.
    destruct (sentiment_cases pred) as [Hpos Hneg].
    split; [done|]. split; [done|]. rewrite Hneg. lia.
Qed.

End Reports.

(** ** Cell 3: the train/validation split *)





(** *** Counting *)






(** *** The allotment of [_approximate_mode] *)








(** *** [_approximate_mode] *)



Section ApproximateMode.
Context `{!NumpyRandom}.





End ApproximateMode.

(** *** Classes and their positions *)









(** *** [take] and [permutation] *)



Section SplitProperties.
Context `{!NumpyRandom}.



End SplitProperties.

(** *** Indexing by a list of positions *)











Section SplitSound.
Context `{!NumpyRandom}.




End SplitSound.









(** ** Cell 5: indices outside [0, len) *)

Lemma py_index_before_start {A} (l : list A) (i : Z) :
  (i < - Z.of_nat (length l))%Z → py_index l i = Raise IndexError.
Proof.
  intros Hi. unfold py_index.
  destruct (Z.ltb_spec i 0); [|lia].
  destruct (Z.ltb_spec (Z.of_nat (length l) + i) 0); [done|lia].
Qed.

Lemma py_index_negative {A} (l : list A) (i : Z) :
  (- Z.of_nat (length l) ≤ i < 0)%Z →
  py_index l i = py_index l (Z.of_nat (length l) + i) ∧ is_Ok (py_index l i).
Proof.
  intros Hi. unfold py_index.
  destruct (Z.ltb_spec i 0); [|lia].
  destruct (Z.ltb_spec (Z.of_nat (length l) + i) 0); [lia|].
  destruct (Z.ltb_spec (Z.of_nat (length l) + i) 0); [lia|].
  split; [done|].
  destruct (lookup_lt_is_Some_2 l (Z.to_nat (Z.of_nat (length l) + i))) as [x ->]; [lia|].
  by eexists.
Qed.

Lemma dict_comprehension_ext {V W} (f g : string → V → result W) (d : gmap string V) :
  (∀ k v, d !! k = Some v → f k v = g k v) →
  dict_comprehension f d = dict_comprehension g d.
Proof.
  intros Hfg. unfold dict_comprehension. rewrite !map_fold_foldr.
  assert (Forall (λ kv, f kv.1 kv.2 = g kv.1 kv.2) (map_to_list d)) as Hall.
  { apply Forall_forall. intros [k v] Hin. apply Hfg. by apply elem_of_map_to_list. }
  induction Hall as [|[k v] kvs Hkv _ IH]; [done|].
  cbn [foldr uncurry]. rewrite IH. simpl in Hkv. by rewrite Hkv.
Qed.

(** X1. [dataset[idx]] with an index outside [-len(labels), len(labels))
    raises [IndexError], whatever the encodings hold: the label lookup
    fails if no encoding lookup has failed before it. *)
Theorem getitem_out_of_range (self : IMDbDataset) (idx : Z) :
  (idx < - Z.of_nat (__len__ self) ∨ Z.of_nat (__len__ self) ≤ idx)%Z →
  __getitem__ self idx = Raise IndexError.
Proof.
  intros Hidx.
  assert (py_index (labels self) idx = Raise IndexError) as Hl.
  { destruct Hidx; [by apply py_index_before_start | by apply py_index_past_end]. }
  destruct (__getitem__ self idx) as [item|e] eqn:Hg.
  - exfalso. unfold __getitem__ in Hg.
    destruct (dict_comprehension _ (encodings self)); [|done].
    rewrite bind_Ok, Hl in Hg. done.
  - f_equal. by eapply getitem_raises.
Qed.

Lemma getitem_out_of_range_witness :
  let ds := {| encodings := {[ "input_ids" := [[1; 2]; [3; 4]; [5; 6]; [7; 8]]%Z ]};
               labels := [0; 1; 1]%Z |} in
  __getitem__ ds 3 = Raise IndexError ∧ __getitem__ ds (-4) = Raise IndexError.
Proof.
  split.
  - apply getitem_out_of_range. right. cbn. lia.
  - apply getitem_out_of_range. left. cbn. lia.
Defined.

(** X2. When every encoding list has exactly [len(labels)] entries, a
    negative index counts from the end: [dataset[idx]] for
    [-len(labels) <= idx < 0] returns the item [dataset[len(labels) + idx]]
    (so [dataset[-1]] is the last example). *)
Theorem getitem_negative_index (self : IMDbDataset) (idx : Z) :
  (∀ k v, encodings self !! k = Some v → length v = length (labels self)) →
  (- Z.of_nat (__len__ self) ≤ idx < 0)%Z →
  ∃ item l,
    __getitem__ self idx = Ok item ∧
    __getitem__ self (Z.of_nat (__len__ self) + idx) = Ok item ∧
    labels self !! Z.to_nat (Z.of_nat (__len__ self) + idx) = Some l ∧
    item !! "labels" = Some (scalar l).
Proof.
  intros Hlen Hidx.
  destruct (getitem_in_bounds self (Z.of_nat (__len__ self) + idx)) as (item & l & Hg & Hl & Hi & _).
  { intros k v Hk. by rewrite (Hlen k v Hk). }
  { lia. }
  exists item, l. split; [|done].
  rewrite <- Hg. unfold __getitem__, __len__ in *.
  destruct (py_index_negative (labels self) idx Hidx) as [-> _].
  f_equal. apply dict_comprehension_ext. intros k v Hk.
  destruct (py_index_negative v idx) as [-> _]; [rewrite (Hlen k v Hk); lia|].
  by rewrite (Hlen k v Hk).
Qed.

Lemma getitem_negative_index_witness :
  let ds := {| encodings := {[ "input_ids" := [[1; 2]; [3; 4]; [5; 6]]%Z ]};
               labels := [0; 1; 1]%Z |} in
  ∃ item l, __getitem__ ds (-1) = Ok item ∧ __getitem__ ds (3 + -1) = Ok item ∧
            labels ds !! Z.to_nat (3 + -1) = Some l ∧ item !! "labels" = Some (scalar l).
Proof.
  apply (getitem_negative_index
           {| encodings := {[ "input_ids" := [[1; 2]; [3; 4]; [5; 6]]%Z ]};
              labels := [0; 1; 1]%Z |} (-1)).
  - intros k v Hk. cbn [encodings] in Hk.
    apply lookup_singleton_Some in Hk as [_ <-]. reflexivity.
  - cbn. lia.
Defined.

(** ** Cells 4 and 12: what truncation hides *)

Section TruncationProperties.
Context {F : Type} `{!Scalar F} `{!Imports F}.

Lemma encode_truncated_ext texts1 texts2 :
  Forall2 (λ a b, take 254 (wordpiece a) = take 254 (wordpiece b)) texts1 texts2 →
  encode 256 true <$> texts1 = encode 256 true <$> texts2.
Proof.
  induction 1 as [|a b texts1 texts2 Hab _ IH]; [done|].
  rewrite !fmap_cons, IH. f_equal.
  unfold encode. change (256 - 2) with 254. by rewrite Hab.
Qed.

(** X3. With [truncation=True] and [max_length=256] only the first 254 word
    pieces of a text are kept: texts that agree on them are tokenized to
    the same encodings, and the inference cell, which makes the same
    tokenizer call, predicts the same classes for them. *)
Theorem tokenize_function_ignores_tail (texts1 texts2 : list string) :
  Forall2 (λ a b, take 254 (wordpiece a) = take 254 (wordpiece b)) texts1 texts2 →
  tokenize_function texts1 = tokenize_function texts2 ∧
  ∀ prog prog1 : program F,
    inference texts1 prog = Ok prog1 →
    ∃ predictions,
      stdout prog1 = stdout prog ++
        print_predictions predictions ::
        ((λ tp, print_review tp.1 (sentiment tp.2)) <$> zip texts1 predictions) ∧
      inference texts2 prog =
      Ok {| model := model prog1; optimizer := optimizer prog1;
            default_generator := default_generator prog1;
            stdout := stdout prog ++
              print_predictions predictions ::
              ((λ tp, print_review tp.1 (sentiment tp.2)) <$> zip texts2 predictions) |}.
Proof.
  intros Hsame. pose proof (encode_truncated_ext _ _ Hsame) as Henc.
  assert (tokenizer texts1 256 to_max_length true = tokenizer texts2 256 to_max_length true)
    as Htok.
  { unfold tokenizer. by rewrite Henc. }
  split; [exact Htok|].
  intros prog prog1 Hrun. unfold inference in *. rewrite <- Htok.
  destruct (py_getitem (tokenizer texts1 256 to_max_length true) "input_ids")
    as [input_ids|]; [|done].
  destruct (py_getitem (tokenizer texts1 256 to_max_length true) "attention_mask")
    as [attention_mask|]; [|done].
  rewrite !bind_Ok in *.
  destruct (forward _ input_ids attention_mask) as [logits|]; [|done].
  rewrite !bind_Ok in *.
  destruct (argmax_dim1 logits) as [predictions|]; [|done].
  rewrite !bind_Ok in *. injection Hrun as <-.
  by exists predictions.
Qed.

End TruncationProperties.

(** ** Cell 10: what training never changes, and what a step's gradient is *)

Section TrainingStructure.
Context {F : Type} `{!Scalar F} `{!Imports F}.

Lemma zero_grad_flags (opt : Adam F) (m : CustomBERTModel F) name :
  requires_grad <$> named_parameters (zero_grad opt m) !! name
  = requires_grad <$> named_parameters m !! name.
Proof.
  pose proof (zero_grad_lookup opt m name) as Hz.
  destruct (named_parameters m !! name) as [p|].
  - destruct Hz as (p' & -> & _ & Hr & _). simpl. by rewrite Hr.
  - by rewrite Hz.
Qed.

Lemma backward_flags (m : CustomBERTModel F) input_ids attention_mask ls name :
  requires_grad <$> named_parameters (backward m input_ids attention_mask ls) !! name
  = requires_grad <$> named_parameters m !! name.
Proof.
  rewrite backward_lookup. destruct (named_parameters m !! name) as [p|]; [|done].
  simpl. destruct (requires_grad p) eqn:Hr; simpl; congruence.
Qed.

Lemma Adam_step_param_flags acc name' name :
  requires_grad <$> (Adam_step_param acc name').1 !! name
  = requires_grad <$> acc.1 !! name.
Proof.
  destruct acc as [params st]. unfold Adam_step_param.
  destruct (params !! name') as [p|] eqn:Hp; [|done].
  destruct (grad p) as [g|]; [|done].
  destruct (adam_update _ _ _ _ _) as [[d m] v]. cbn [fst].
  destruct (decide (name' = name)) as [<-|Hne].
  - by rewrite lookup_insert_eq, Hp.
  - by rewrite lookup_insert_ne.
Qed.

Lemma Adam_step_flags (opt : Adam F) (m : CustomBERTModel F) name :
  requires_grad <$> named_parameters (Adam_step opt m).2 !! name
  = requires_grad <$> named_parameters m !! name.
Proof.
  unfold Adam_step.
  assert (∀ names acc,
            requires_grad <$> (foldl Adam_step_param acc names).1 !! name
            = requires_grad <$> acc.1 !! name) as Hfold.
  { induction names as [|name' names IH]; intros acc; simpl; [done|].
    rewrite IH. apply Adam_step_param_flags. }
  specialize (Hfold (param_groups opt) (named_parameters m, state opt)).
  destruct (foldl _ _ _) as [params st]. done.
Qed.

(** What an iteration of the training loop keeps. *)
Lemma train_body_structure (train_loader : DataLoader) (vars vars' : train_vars F) indices :
  train_body train_loader vars indices = Ok vars' →
  classifier (tv_model vars') = classifier (tv_model vars) ∧
  training (tv_model vars') = training (tv_model vars) ∧
  param_groups (tv_optimizer vars') = param_groups (tv_optimizer vars) ∧
  ∀ name, requires_grad <$> named_parameters (tv_model vars') !! name
          = requires_grad <$> named_parameters (tv_model vars) !! name.
Proof.
  intros Hbody. apply train_body_Ok in Hbody
    as (batch & input_ids & attention_mask & ls & logits & loss & correct
        & _ & _ & _ & _ & _ & ->).
  cbn [tv_model tv_optimizer].
  destruct (Adam_step_classifier (tv_optimizer vars)
              (backward (zero_grad (tv_optimizer vars) (tv_model vars))
                 input_ids attention_mask ls)) as [-> ->].
  split; [done|]. split; [done|]. split; [apply Adam_step_param_groups|].
  intros name. by rewrite Adam_step_flags, backward_flags, zero_grad_flags.
Qed.

Lemma epoch_body_structure train_loader val_loader (prog prog' : program F) epoch :
  epoch_body train_loader val_loader prog epoch = Ok prog' →
  training (model prog') = false ∧
  classifier (model prog') = classifier (model prog) ∧
  param_groups (optimizer prog') = param_groups (optimizer prog) ∧
  (∀ name, requires_grad <$> named_parameters (model prog') !! name
           = requires_grad <$> named_parameters (model prog) !! name) ∧
  ∃ lines, stdout prog' = stdout prog ++ lines ∧ length lines = 4.
Proof.
  unfold epoch_body. intros Hrun.
  destruct (iter train_loader (default_generator prog)) as [tb g1].
  destruct (for_each (train_body train_loader) _ tb) as [vars|] eqn:Hloop; [|done].
  rewrite bind_Ok in Hrun.
  destruct (float_truediv _ _) as [avg_train_loss|]; [|done]. rewrite bind_Ok in Hrun.
  destruct (py_truediv _ _) as [train_acc|]; [|done]. rewrite bind_Ok in Hrun.
  destruct (iter val_loader g1) as [vb g2].
  destruct (for_each (val_body _ val_loader) _ vb) as [vvars|]; [|done].
  rewrite bind_Ok in Hrun.
  destruct (float_truediv _ _) as [avg_val_loss|]; [|done]. rewrite bind_Ok in Hrun.
  destruct (py_truediv _ _) as [val_acc|]; [|done]. rewrite bind_Ok in Hrun.
  injection Hrun as <-. cbn [model optimizer stdout set_training training classifier
                             named_parameters].
  pose proof (for_each_invariant (train_body train_loader)
    (λ v, classifier (tv_model v) = classifier (model prog) ∧
          param_groups (tv_optimizer v) = param_groups (optimizer prog) ∧
          ∀ name, requires_grad <$> named_parameters (tv_model v) !! name
                  = requires_grad <$> named_parameters (model prog) !! name)) as Hinv.
  destruct (Hinv) with (xs := tb) (s' := vars)
    (s := {| tv_model := set_training (model prog) true; tv_optimizer := optimizer prog;
             total_train_loss := f_zero; total_train_correct := 0;
             total_examples := 0 |}) as (Hc & Hg & Hf); try done.
  { intros s x s' (Hc & Hg & Hf) Hbody.
    destruct (train_body_structure _ _ _ _ Hbody) as (Hc' & _ & Hg' & Hf').
    split; [congruence|]. split; [congruence|]. intros name. by rewrite Hf'. }
  split; [done|]. split; [done|]. split; [done|]. split; [done|].
  eexists. split; [reflexivity|]. reflexivity.
Qed.

(** X6. Training changes values only.  When the training loop returns, the
    model has the layers it had, every parameter it had and no other, each
    with its [requires_grad] flag as before, so the same parameters are
    trainable; the optimizer holds the parameters it held; the model is in
    eval mode; and the output has grown by four lines per epoch. *)
Theorem training_loop_keeps_structure train_loader val_loader (prog prog' : program F) :
  training_loop train_loader val_loader prog = Ok prog' →
  training (model prog') = false ∧
  classifier (model prog') = classifier (model prog) ∧
  param_groups (optimizer prog') = param_groups (optimizer prog) ∧
  (∀ name, requires_grad <$> named_parameters (model prog') !! name
           = requires_grad <$> named_parameters (model prog) !! name) ∧
  (∀ name, name ∈ trainable_params (model prog') ↔ name ∈ trainable_params (model prog)) ∧
  ∃ lines, stdout prog' = stdout prog ++ lines ∧ length lines = 4 * EPOCHS.
Proof.
  unfold training_loop. change (seq 0 EPOCHS) with [0; 1]. cbn [for_each].
  intros Hrun.
  destruct (epoch_body train_loader val_loader prog 0) as [prog1|] eqn:H1; [|done].
  rewrite bind_Ok in Hrun.
  destruct (epoch_body train_loader val_loader prog1 1) as [prog2|] eqn:H2; [|done].
  rewrite bind_Ok in Hrun. injection Hrun as <-.
  destruct (epoch_body_structure _ _ _ _ _ H1) as (_ & Hc1 & Hg1 & Hf1 & l1 & Hs1 & Hl1).
  destruct (epoch_body_structure _ _ _ _ _ H2) as (Ht2 & Hc2 & Hg2 & Hf2 & l2 & Hs2 & Hl2).
  assert (∀ name, requires_grad <$> named_parameters (model prog2) !! name
                  = requires_grad <$> named_parameters (model prog) !! name) as Hf.
  { intros name. by rewrite Hf2. }
  split; [done|]. split; [congruence|]. split; [congruence|]. split; [done|]. split.
  - intros name. rewrite !elem_of_trainable_params.
    specialize (Hf name).
    destruct (named_parameters (model prog2) !! name) as [p2|],
             (named_parameters (model prog) !! name) as [p|]; simplify_eq/=.
    + split; intros (? & [= <-] & ?); eexists; split; try done; congruence.
    + split; intros (? & ? & ?); done.
  - exists (l1 ++ l2). rewrite Hs2, Hs1, <- app_assoc. split; [done|].
    rewrite length_app, Hl1, Hl2. reflexivity.
Qed.

Lemma zero_grad_lookup_in (opt : Adam F) (m : CustomBERTModel F) name p :
  name ∈ param_groups opt →
  named_parameters m !! name = Some p →
  named_parameters (zero_grad opt m) !! name
  = Some {| data := data p; requires_grad := requires_grad p; grad := None |}.
Proof.
  intros Hin Hp. unfold zero_grad. cbn [named_parameters with_named_parameters].
  induction (param_groups opt) as [|name' names IH]; [by apply elem_of_nil in Hin|].
  cbn [foldr].
  destruct (decide (name' = name)) as [->|Hne].
  - rewrite lookup_alter_eq.
    pose proof (zero_grad_lookup {| param_groups := names; state := ∅ |} m name) as Hz.
    rewrite Hp in Hz. destruct Hz as (p' & Hp' & Hd & Hr & _).
    unfold zero_grad in Hp'. cbn [named_parameters with_named_parameters param_groups] in Hp'.
    rewrite Hp'. simpl. by rewrite Hd, Hr.
  - rewrite lookup_alter_ne by done. apply IH.
    apply elem_of_cons in Hin as [->|Hin]; done.
Qed.

(** X7. Gradients do not pile up from batch to batch.  After
    [optimizer.zero_grad()] and [loss.backward()], a parameter the optimizer
    holds has as its gradient the gradient of the current batch's loss
    alone, whatever gradient it held before; its value is untouched until
    [optimizer.step()].  [zero_grad] leaves every parameter's value as it
    was. *)
Theorem backward_after_zero_grad (opt : Adam F) (m : CustomBERTModel F)
    (input_ids attention_mask : list (list Z)) (ls : list Z) (name : pname)
    (p : nn_Parameter F) :
  name ∈ param_groups opt →
  named_parameters m !! name = Some p →
  requires_grad p = true →
  (∀ name', weights (named_parameters (zero_grad opt m)) name'
            = weights (named_parameters m) name') ∧
  named_parameters (backward (zero_grad opt m) input_ids attention_mask ls) !! name
  = Some {| data := data p; requires_grad := true;
            grad := Some (autograd_grad (weights (named_parameters (zero_grad opt m)))
                            input_ids attention_mask ls name) |}.
Proof.
  intros Hin Hp Hr. split.
  - intros name'. unfold weights.
    pose proof (zero_grad_lookup opt m name') as Hz.
    destruct (named_parameters m !! name') as [q|].
    + by destruct Hz as (q' & -> & -> & _).
    + by rewrite Hz.
  - rewrite backward_lookup, (zero_grad_lookup_in opt m name p Hin Hp).
    simpl. by rewrite Hr.
Qed.

End TrainingStructure.

(** ** Cell 9: the number of trainable parameters *)

Section ParameterCount.
Context {F : Type} `{!Scalar F} `{!Imports F}.

Lemma NoDup_trainable_params (model : CustomBERTModel F) : NoDup (trainable_params model).
Proof.
  unfold trainable_params.
  apply (sublist_NoDup _ ((map_to_list (named_parameters model)).*1)).
  - apply NoDup_fst_map_to_list.
  - apply fmap_sublist. apply sublist_filter.
Qed.

Lemma trainable_params_init num_classes :
  trainable_params (__init__ num_classes) ≡ₚ classifier_parameter_names.
Proof.
  apply NoDup_Permutation.
  - apply NoDup_trainable_params.
  - apply (bool_decide_unpack _). by vm_compute.
  - intros name. rewrite <- init_classifier_names, elem_of_trainable_params. split.
    + intros (p & Hp & Hrg). split; [by eexists|].
      destruct name as [name|i f]; [|by eexists _, _].
      apply init_bert_param in Hp as (_ & Hrg' & _). congruence.
    + intros [[p Hp] (i & f & ->)]. exists p. split; [done|].
      by eapply init_classifier_param.
Qed.

(** The parameters [__init__] registers for the head, each as [nn.Linear]
    initialises it. *)
Lemma init_classifier_weights num_classes :
  let w := weights (named_parameters (__init__ num_classes)) in
  w (classifier_param 0 weight) = linear_reset_parameters 0 weight (512 * 768) ∧
  w (classifier_param 0 bias) = linear_reset_parameters 0 bias 512 ∧
  w (classifier_param 2 weight) = linear_reset_parameters 2 weight (256 * 512) ∧
  w (classifier_param 2 bias) = linear_reset_parameters 2 bias 256 ∧
  w (classifier_param 4 weight) = linear_reset_parameters 4 weight (128 * 256) ∧
  w (classifier_param 4 bias) = linear_reset_parameters 4 bias 128 ∧
  w (classifier_param 6 weight) = linear_reset_parameters 6 weight (num_classes * 128) ∧
  w (classifier_param 6 bias) = linear_reset_parameters 6 bias num_classes.
Proof.
  assert (∀ i f, (freeze <$> BertModel_from_pretrained) !! classifier_param i f
                 = None) as Hbert.
  { intros i f. rewrite lookup_fmap. unfold BertModel_from_pretrained.
    assert (kmap bert_param (new_parameter <$> bert_pretrained)
              !! classifier_param i f = None) as ->; [|done].
    apply lookup_kmap_None; [apply _|]. intros name Hname. done. }
  unfold weights, __init__. cbn [named_parameters Sequential_parameters].
  unfold Linear_parameters.
  repeat split;
    rewrite lookup_union_r by apply Hbert;
    rewrite !lookup_union, ?lookup_insert_eq, ?lookup_insert_ne,
      ?lookup_singleton_eq, ?lookup_singleton_ne, ?lookup_empty by done;
    reflexivity.
Qed.

(** X8. The head built by [__init__] has
    [768*512 + 512 + 512*256 + 256 + 256*128 + 128 + 128*num_classes + num_classes]
    trainable parameters, that is [557952 + 129 * num_classes], and the
    encoder adds none to the count: with [num_classes = 2] the count cell 9
    prints is 558210. *)
Theorem trainable_parameter_count (num_classes : nat) :
  (∀ i field n, length (linear_reset_parameters i field n) = n) →
  N.of_nat (number_of_trainable_parameters (__init__ num_classes))
  = (557952 + 129 * N.of_nat num_classes)%N ∧
  N.of_nat (number_of_trainable_parameters (model setup)) = 558210%N.
Proof.
  intros Hreset.
  assert (∀ k, N.of_nat (number_of_trainable_parameters (__init__ k))
               = (557952 + 129 * N.of_nat k)%N) as Hcount.
  { intros k. unfold number_of_trainable_parameters.
    rewrite (trainable_params_init k).
    unfold classifier_parameter_names. rewrite !fmap_cons, fmap_nil.
    cbn [sum_list_with]. unfold id.
    destruct (init_classifier_weights k) as (-> & -> & -> & -> & -> & -> & -> & ->).
    rewrite !Hreset.
    rewrite !Nat2N.inj_add, !Nat2N.inj_mul.
    change (N.of_nat 768) with 768%N. change (N.of_nat 512) with 512%N.
    change (N.of_nat 256) with 256%N. change (N.of_nat 128) with 128%N.
    change (N.of_nat 0) with 0%N. lia. }
  split; [apply Hcount|].
  change (model setup) with (__init__ 2). rewrite Hcount. reflexivity.
Qed.

End ParameterCount.

(** ** Cell 6: other head widths, other encoders *)

Section HeadProperties.
Context {F : Type} `{!Scalar F} `{!Imports F}.

(** X9. The width of the head follows [num_classes]: a model built with
    [num_classes > 0] returns [num_classes] logits for each example, and
    the class predicted for each example by [torch.argmax(logits, dim=1)]
    is one of [0 .. num_classes - 1]. *)
Theorem head_predicts_num_classes (self : CustomBERTModel F) (num_classes : nat)
    (input_ids attention_mask : list (list Z)) :
  pooler_output_shape →
  classifier self = classifier (__init__ num_classes) →
  0 < num_classes →
  ∃ logits predictions,
    forward self input_ids attention_mask = Ok logits ∧
    length logits = length input_ids ∧
    Forall (λ row, length row = num_classes) logits ∧
    argmax_dim1 logits = Ok predictions ∧
    length predictions = length input_ids ∧
    Forall (λ pred, (0 ≤ pred < Z.of_nat num_classes)%Z) predictions.
Proof.
  intros Hbert Hc Hpos.
  destruct (forward_shape self num_classes input_ids attention_mask Hbert Hc)
    as (logits & Hfw & Hlen & Hrows).
  assert (Forall (λ row : list F, row ≠ []) logits) as Hne.
  { eapply Forall_impl; [exact Hrows|]. intros row Hrow ->. simpl in Hrow. lia. }
  destruct (argmax_dim1_Ok logits Hne) as (predictions & Hp & Hargmax).
  exists logits, predictions. repeat (split; [done|]).
  split; [by rewrite <- (Forall2_length _ _ _ Hargmax)|].
  apply Forall_forall. intros pred Hin.
  apply list_elem_of_lookup in Hin as [i Hi].
  destruct (Forall2_lookup_r _ _ _ _ _ Hargmax Hi) as (row & Hrow & Harg).
  pose proof (Forall_lookup_1 _ _ _ _ Hrows Hrow) as Hrl.
  destruct (argmax_range row) as (z & Hz & Hrange).
  { intros ->. simpl in Hrl. lia. }
  rewrite Hrl in Hrange. congruence.
Qed.

Lemma Linear_forward_wrong_width (W b : list F) in_features out_features xs :
  Exists (λ x, length x ≠ in_features) xs →
  mapM (Linear_forward W b in_features out_features) xs = Raise RuntimeError.
Proof.
  induction xs as [|x xs IH]; intros Hex; [by apply Exists_nil in Hex|].
  rewrite mapM_cons.
  destruct (decide (length x = in_features)) as [Hx|Hx].
  - destruct (Linear_forward_shape W b _ out_features x Hx) as (y & -> & _).
    rewrite bind_Ok. apply Exists_cons in Hex as [Hbad|Hex]; [done|].
    by rewrite (IH Hex).
  - assert (Linear_forward W b in_features out_features x = Raise RuntimeError) as ->; [|done].
    unfold Linear_forward. by rewrite bool_decide_eq_false_2.
Qed.

(** X10. The head only fits an encoder whose pooled output has 768 entries:
    if the encoder returns a pooled row of any other width, the forward
    pass raises a shape error at the first linear layer. *)
Theorem forward_needs_hidden_size_768 (self : CustomBERTModel F) (num_classes : nat)
    (input_ids attention_mask : list (list Z)) :
  classifier self = classifier (__init__ num_classes) →
  Exists (λ row, length row ≠ 768)
    (bert_pooler_output (λ name, weights (named_parameters self) (bert_param name))
       (training self) input_ids attention_mask) →
  forward self input_ids attention_mask = Raise RuntimeError.
Proof.
  intros Hc Hex. unfold forward. rewrite Hc, classifier_init.
  cbn [Sequential_forward]. by rewrite (Linear_forward_wrong_width _ _ _ _ _ Hex).
Qed.

End HeadProperties.

(** ** Cells 10 and 11: an empty evaluation set *)

Section EmptyEvaluation.
Context {F : Type} `{!Scalar F} `{!Imports F}.

Lemma iter_empty (ds : IMDbDataset) (g : generator) :
  labels ds = [] → iter (make_loader ds false) g = ([], (random_ g).2).
Proof.
  intros Hl. unfold iter, make_loader, __len__. cbn [dataset shuffle batch_size].
  rewrite Hl. by destruct (random_ g).
Qed.

(** X11. Over an empty test set the test cell divides zero correct
    predictions by zero examples: it raises [ZeroDivisionError] and prints
    nothing. *)
Theorem test_evaluation_empty (ds : IMDbDataset) (prog : program F) :
  labels ds = [] →
  test_evaluation (make_loader ds false) prog = Raise ZeroDivisionError.
Proof.
  intros Hl. unfold test_evaluation. by rewrite (iter_empty ds _ Hl).
Qed.


End EmptyEvaluation.

(** ** Cell 1: the device and the comment above it *)

(** X13. The device the code selects is the one its comment describes
    ("MPS if available, else GPU if available, else CPU") exactly on the
    machines that offer one of CUDA and MPS and not the other. *)
Theorem device_agrees_with_comment_iff (m : machine) :
  device m = device_as_commented m ↔ cuda_is_available m ≠ mps_is_available m.
Proof.
  destruct m as [[] []]; unfold device, device_as_commented; cbn; split; congruence.
Qed.

(** ** Cell 12: ties *)

Section Ties.
Context {F : Type} `{!Scalar F} `{!Imports F}.

(** X14. [torch.argmax] returns the first position of the maximum, so a
    review whose two logits are equal is predicted as class 0: when the
    model returns equal logits for every example, the inference cell
    prints only zeros and calls every review "NEGATIVE". *)
Theorem inference_ties_are_negative (example_texts : list string) (prog : program F)
    (input_ids attention_mask : list (list Z)) (logits : list (list F)) :
  (∀ x : F, f_ltb x x = false) →
  tokenizer example_texts 256 to_max_length true !! "input_ids" = Some input_ids →
  tokenizer example_texts 256 to_max_length true !! "attention_mask" = Some attention_mask →
  forward (set_training (model prog) false) input_ids attention_mask = Ok logits →
  length logits = length example_texts →
  Forall (λ row, ∃ a, row = [a; a]) logits →
  inference example_texts prog =
  Ok {| model := set_training (model prog) false;
        optimizer := optimizer prog;
        default_generator := default_generator prog;
        stdout := stdout prog ++
          print_predictions (replicate (length example_texts) 0%Z) ::
          ((λ text, print_review text "NEGATIVE") <$> example_texts) |}.
Proof.
  intros Hirr Hi Ha Hfw Hlen Hties.
  assert (argmax_dim1 logits = Ok (replicate (length logits) 0%Z)) as Hp.
  { unfold argmax_dim1. apply mapM_Ok_Forall2.
    clear Hfw Hlen. induction Hties as [|row logits (a & ->) _ IH]; [constructor|].
    cbn [length replicate]. constructor; [|exact IH].
    unfold argmax. cbn [argmax_from]. by rewrite Hirr. }
  unfold inference, py_getitem. rewrite Hi, Ha, !bind_Ok, Hfw, bind_Ok, Hp, bind_Ok.
  rewrite Hlen. do 4 f_equal.
  clear. induction example_texts as [|t ts IH]; [done|].
  cbn [length replicate zip zip_with fmap list_fmap]. f_equal. exact IH.
Qed.

End Ties.

(** ** Cells 5 and 8: a batch keeps each text with its label *)

Lemma stack_matrix_rows (ts : list tensor) (rows : list (list Z)) :
  stack ts = Ok (batch_matrix rows) → ts = vector <$> rows.
Proof.
  unfold stack. destruct ts as [|[z|v0] ts]; [done| |].
  - destruct (mapM _ _); done.
  - destruct (mapM _ (vector v0 :: ts)) as [rows'|] eqn:Hm; [|done].
    intros [= ->]. apply mapM_Ok_Forall2 in Hm.
    induction Hm as [|t row ts' rows' Ht _ IH]; [done|].
    rewrite fmap_cons, IH. f_equal.
    destruct t as [z|v]; [done|]. case_bool_decide; [|done]. by injection Ht as ->.
Qed.

(** Row [j] of a collated matrix is the field of item [j]. *)
Lemma default_collate_rows (items : list (gmap string tensor))
    (batch : gmap string batch_tensor) (k : string) (rows : list (list Z)) :
  default_collate items = Ok batch →
  batch !! k = Some (batch_matrix rows) →
  Forall2 (λ item row, item !! k = Some (vector row)) items rows.
Proof.
  unfold default_collate. destruct items as [|elem items]; [done|].
  change (py_index (elem :: items) 0) with (Ok elem). rewrite bind_Ok.
  intros Hb Hk.
  pose proof (dict_comprehension_spec
    (λ (key : string) (_ : tensor),
       ts ← mapM (λ d : gmap string tensor, py_getitem d key) (elem :: items); stack ts)
    elem) as Hspec.
  rewrite Hb in Hspec. specialize (Hspec k).
  destruct (elem !! k) as [v|]; [|congruence].
  destruct Hspec as (w & Hw & Hbw).
  assert (w = batch_matrix rows) as -> by congruence.
  destruct (mapM _ (elem :: items)) as [ts|] eqn:Hm; [|done].
  rewrite bind_Ok in Hw. apply stack_matrix_rows in Hw as ->.
  apply mapM_Ok_Forall2, Forall2_fmap_r in Hm.
  eapply Forall2_impl; [exact Hm|].
  intros item row. simpl. unfold py_getitem.
  destruct (item !! k); [|done]. by intros [= ->].
Qed.

Section BatchAlignment.
Context {F : Type} `{!Imports F}.

(** X15. Shuffling and batching keep every text with its label.  A
    non-empty batch of valid indices of a tokenized dataset is fetched as
    three tensors whose [j]-th entries are, for the [j]-th index [i] of the
    batch, the [input_ids] row of text [i], the [attention_mask] row of
    text [i], and label [i]. *)
Theorem batch_keeps_text_with_label (texts : list string) (lbls : list Z)
    (shuffled : bool) (indices : list nat) :
  length texts = length lbls →
  indices ≠ [] →
  Forall (λ i, i < length lbls) indices →
  ∃ all_ids all_masks input_ids attention_mask ls,
    tokenize_function texts !! "input_ids" = Some all_ids ∧
    tokenize_function texts !! "attention_mask" = Some all_masks ∧
    fetch (make_loader (tokenized_dataset texts lbls) shuffled) indices ≫= unpack
      = Ok (input_ids, attention_mask, ls) ∧
    Forall2 (λ i row, all_ids !! i = Some row) indices input_ids ∧
    Forall2 (λ i row, all_masks !! i = Some row) indices attention_mask ∧
    Forall2 (λ i l, lbls !! i = Some l) indices ls.
Proof.
  intros Hlen Hne Hall.
  destruct (fetch_tokenized texts lbls 8 shuffled indices Hlen Hne Hall)
    as (batch & ls & input_ids & attention_mask & Hfetch & Hi & Ha & Hl & _ & _ & Hls).
  destruct (tokenize_function texts !! "input_ids") as [all_ids|] eqn:Hids; [|done].
  destruct (tokenize_function texts !! "attention_mask") as [all_masks|] eqn:Hmasks; [|done].
  exists all_ids, all_masks, input_ids, attention_mask, ls.
  split; [done|]. split; [done|]. split.
  { unfold make_loader. rewrite Hfetch, bind_Ok. by apply unpack_lookup. }
  assert (∀ k all rows,
            k ≠ "labels" →
            tokenize_function texts !! k = Some all →
            batch !! k = Some (batch_matrix rows) →
            Forall2 (λ i row, all !! i = Some row) indices rows) as Hrows.
  { intros k all rows Hk Hall_k Hbk.
    unfold fetch in Hfetch. cbn [dataset] in Hfetch.
    destruct (mapM _ indices) as [items|] eqn:Hitems; [|done].
    rewrite bind_Ok in Hfetch.
    pose proof (default_collate_rows items batch k rows Hfetch Hbk) as Hcol.
    apply mapM_Ok_Forall2 in Hitems.
    clear Hfetch Hbk Hne Hls. revert rows Hcol.
    induction Hitems as [|i item indices items Hitem _ IH]; intros rows Hcol.
    - inversion Hcol. constructor.
    - inversion Hcol as [|? row ? rows' Hrow Hcol']; subst.
      apply Forall_cons in Hall as [Hi' Hall].
      constructor; [|by apply IH].
      destruct (getitem_in_bounds (tokenized_dataset texts lbls) (Z.of_nat i))
        as (item' & l & Hg & _ & _ & _ & Hfields).
      { intros k' v Hkv. cbn [encodings labels tokenized_dataset] in *.
        apply tokenize_function_shape in Hkv as [-> _]. lia. }
      { unfold __len__. cbn [labels tokenized_dataset]. lia. }
      assert (item' = item) as -> by congruence.
      destruct (Hfields k all Hk Hall_k) as (x & Hx & Hitem_k).
      rewrite Nat2Z.id in Hx. congruence. }
  split; [by apply (Hrows "input_ids")|].
  split; [by apply (Hrows "attention_mask")|]. done.
Qed.

End BatchAlignment.

(** ** Cell 10: what a training step does to a parameter of the head *)

Section HeadUpdate.
Context {F : Type} `{!Scalar F} `{!Imports F}.

Lemma Adam_fold_other names :
  ∀ (acc : gmap pname (nn_Parameter F) * gmap pname (AdamState F)) name,
    name ∉ names →
    (foldl Adam_step_param acc names).1 !! name = acc.1 !! name ∧
    (foldl Adam_step_param acc names).2 !! name = acc.2 !! name.
Proof.
  induction names as [|name' names IH]; intros acc name Hn; [done|].
  apply not_elem_of_cons in Hn as [Hne Hn]. cbn [foldl].
  destruct (IH (Adam_step_param acc name') name Hn) as [-> ->].
  split; [by apply Adam_step_param_other | by apply Adam_step_param_state_other].
Qed.

(** A parameter with a gradient that the optimizer holds once is updated
    once, from its own data, gradient and state. *)
Lemma Adam_fold_at names :
  ∀ (acc : gmap pname (nn_Parameter F) * gmap pname (AdamState F)) name p g,
    NoDup names → name ∈ names →
    acc.1 !! name = Some p → grad p = Some g →
    let st := default {| step := 0;
                         exp_avg := replicate (length (data p)) f_zero;
                         exp_avg_sq := replicate (length (data p)) f_zero |}
                      (acc.2 !! name) in
    let u := adam_update (S (step st)) (data p) g (exp_avg st) (exp_avg_sq st) in
    (foldl Adam_step_param acc names).1 !! name
    = Some {| data := u.1.1; requires_grad := requires_grad p; grad := Some g |} ∧
    (foldl Adam_step_param acc names).2 !! name
    = Some {| step := S (step st); exp_avg := u.1.2; exp_avg_sq := u.2 |}.
Proof.
  induction names as [|name' names IH]; intros acc name p g Hnd Hin Hp Hg;
    [by apply elem_of_nil in Hin|].
  apply NoDup_cons in Hnd as [Hnotin Hnd]. cbn [foldl].
  destruct (decide (name' = name)) as [->|Hne].
  - destruct (Adam_fold_other names (Adam_step_param acc name) name Hnotin) as [-> ->].
    destruct acc as [params st0]. cbn [fst snd] in *. unfold Adam_step_param.
    rewrite Hp, Hg.
    destruct (adam_update _ _ _ _ _) as [[d m] v]. cbn [fst snd].
    by rewrite !lookup_insert_eq.
  - apply elem_of_cons in Hin as [->|Hin]; [done|].
    pose proof (IH (Adam_step_param acc name') name p g Hnd Hin) as IH'.
    rewrite Adam_step_param_other, Adam_step_param_state_other in IH' by done.
    by apply IH'.
Qed.

(** X16. One iteration of the training loop updates each parameter of the
    head once.  For a parameter the optimizer holds (once) and that
    requires a gradient, the iteration replaces its value by the result of
    one Adam update of its previous value with the gradient of this batch's
    loss, the step number one more than before, and the moment estimates
    Adam kept for it (zeros before the first update); the parameter keeps
    that gradient, and Adam keeps the new step number and moments. *)
Theorem train_body_updates_head (train_loader : DataLoader) (vars vars' : train_vars F)
    (indices : list nat) (name : pname) (p : nn_Parameter F) :
  NoDup (param_groups (tv_optimizer vars)) →
  name ∈ param_groups (tv_optimizer vars) →
  named_parameters (tv_model vars) !! name = Some p →
  requires_grad p = true →
  train_body train_loader vars indices = Ok vars' →
  ∃ input_ids attention_mask ls,
    fetch train_loader indices ≫= unpack = Ok (input_ids, attention_mask, ls) ∧
    let g := autograd_grad
               (weights (named_parameters (zero_grad (tv_optimizer vars) (tv_model vars))))
               input_ids attention_mask ls name in
    let st := default {| step := 0;
                         exp_avg := replicate (length (data p)) f_zero;
                         exp_avg_sq := replicate (length (data p)) f_zero |}
                      (state (tv_optimizer vars) !! name) in
    let u := adam_update (S (step st)) (data p) g (exp_avg st) (exp_avg_sq st) in
    named_parameters (tv_model vars') !! name
    = Some {| data := u.1.1; requires_grad := true; grad := Some g |} ∧
    state (tv_optimizer vars') !! name
    = Some {| step := S (step st); exp_avg := u.1.2; exp_avg_sq := u.2 |}.
Proof.
  intros Hnd Hin Hp Hr Hbody.
  apply train_body_Ok in Hbody
    as (batch & input_ids & attention_mask & ls & logits & loss & correct
        & Hf & Hu & _ & _ & _ & ->).
  exists input_ids, attention_mask, ls. split; [by rewrite Hf, bind_Ok|].
  cbn [tv_model tv_optimizer].
  set (g := autograd_grad _ input_ids attention_mask ls name).
  set (m := backward (zero_grad (tv_optimizer vars) (tv_model vars))
              input_ids attention_mask ls).
  assert (named_parameters m !! name
          = Some {| data := data p; requires_grad := true; grad := Some g |}) as Hm.
  { unfold m. rewrite backward_lookup.
    rewrite (zero_grad_lookup_in _ _ _ _ Hin Hp). simpl. by rewrite Hr. }
  pose proof (Adam_fold_at (param_groups (tv_optimizer vars))
                (named_parameters m, state (tv_optimizer vars)) name _ g Hnd Hin Hm eq_refl)
    as Hfold.
  cbn [fst snd data requires_grad] in Hfold.
  unfold Adam_step. destruct (foldl _ _ _) as [params st']. exact Hfold.
Qed.

Lemma fetchable_tokenized (texts : list string) (lbls : list Z) (shuffled : bool)
    (indices : list nat) :
  length texts = length lbls →
  indices ≠ [] → Forall (λ i, i < length lbls) indices →
  fetchable (make_loader (tokenized_dataset texts lbls) shuffled) indices.
Proof.
  intros Hlen Hne Hall. split; [done|].
  destruct (fetch_tokenized texts lbls 8 shuffled indices Hlen Hne Hall)
    as (batch & ls & input_ids & attention_mask & Hfetch & Hi & Ha & Hl & Hil & Hal & Hls).
  exists input_ids, attention_mask, ls. split; [|done].
  exists batch. split; [exact Hfetch | by apply unpack_lookup].
Qed.

(** An iteration of the training loop on a fetchable batch returns. *)
Lemma train_body_total (loader : DataLoader) (vars : train_vars F) (b : list nat) :
  pooler_output_shape →
  classifier (tv_model vars) = classifier (__init__ 2) →
  binary_labels (labels (dataset loader)) →
  fetchable loader b →
  is_Ok (train_body loader vars b).
Proof.
  intros Hbert Hc Hbin Hb.
  destruct (train_scan_total loader [b] Hbert Hbin (Forall_cons_2 _ _ _ Hb (Forall_nil_2 _))
              (tv_model vars, tv_optimizer vars) Hc)
    as (s' & obs & Hscan & _ & Hobs & _).
  pose proof (train_loop_accumulates loader [b] vars s' obs Hscan Hobs) as Hloop.
  cbn [for_each] in Hloop.
  destruct (train_body loader vars b) as [vars'|]; [by eexists | done].
Qed.

End HeadUpdate.

(** ** Cells 5 and 8: more labels than texts *)

Lemma mapM_raises_IndexError {A B} (f : A → result B) (xs : list A) :
  (∀ x e, f x = Raise e → e = IndexError) →
  Exists (λ x, ¬ is_Ok (f x)) xs →
  mapM f xs = Raise IndexError.
Proof.
  intros Hexn. induction xs as [|x xs IH]; intros Hex; [by apply Exists_nil in Hex|].
  rewrite mapM_cons. destruct (f x) as [y|e] eqn:Hfx.
  - rewrite bind_Ok. apply Exists_cons in Hex as [Hbad|Hex].
    + exfalso. apply Hbad. rewrite Hfx. by eexists.
    + by rewrite (IH Hex).
  - by rewrite (Hexn x e Hfx).
Qed.

Lemma getitem_beyond_encoding (self : IMDbDataset) (k : string) (v : list (list Z))
    (i : nat) :
  encodings self !! k = Some v → length v ≤ i →
  __getitem__ self (Z.of_nat i) = Raise IndexError.
Proof.
  intros Hk Hlen.
  destruct (__getitem__ self (Z.of_nat i)) as [item|e] eqn:Hg.
  - exfalso. unfold __getitem__ in Hg.
    pose proof (dict_comprehension_spec
      (λ (_ : string) (v : list (list Z)), x ← py_index v (Z.of_nat i); mret (vector x))
      (encodings self)) as Hspec.
    destruct (dict_comprehension _ (encodings self)) as [out|]; [|done].
    specialize (Hspec k). rewrite Hk in Hspec. destruct Hspec as (w & Hw & _).
    rewrite py_index_past_end in Hw by lia. done.
  - f_equal. by eapply getitem_raises.
Qed.

Section MoreLabelsThanTexts.
Context {F : Type} `{!Imports F}.

(** X17. A dataset built from fewer texts than labels still reports
    [len(labels)] examples, and the loader fails when it reaches them: a
    batch that holds an index at or beyond the number of texts raises
    [IndexError] instead of being collated. *)
Theorem fetch_beyond_texts_raises (texts : list string) (lbls : list Z)
    (shuffled : bool) (indices : list nat) :
  Exists (λ i, length texts ≤ i) indices →
  __len__ (tokenized_dataset texts lbls) = length lbls ∧
  fetch (make_loader (tokenized_dataset texts lbls) shuffled) indices = Raise IndexError.
Proof.
  intros Hex. split; [done|].
  unfold fetch. cbn [dataset make_loader].
  rewrite (mapM_raises_IndexError _ indices); [done| |].
  - intros i e. apply getitem_raises.
  - eapply Exists_impl; [exact Hex|]. intros i Hi [item Hitem].
    pose proof (tokenizer_input_ids texts MAX_LENGTH to_max_length true) as Hids.
    rewrite (getitem_beyond_encoding (tokenized_dataset texts lbls) "input_ids" _ i Hids)
      in Hitem; [done|].
    by rewrite !length_fmap.
Qed.

End MoreLabelsThanTexts.

(** ** Concrete runs on the toy instance *)

Section ToyRuns.
#[local] Existing Instance toy_scalar.
#[local] Existing Instance toy_imports.

Lemma toy_pooler_output_shape : pooler_output_shape (F:=Z).
Proof.
  intros w training input_ids attention_mask.
  cbn [bert_pooler_output toy_imports]. split.
  - by rewrite length_fmap.
  - apply Forall_fmap, Forall_forall. intros ids _. apply length_replicate.
Qed.

Lemma toy_randperm_permutes : randperm_permutes (F:=Z).
Proof. intros g n. simpl. symmetry. apply Permutation_rev. Qed.

Lemma toy_notebook_loader shuffle :
  notebook_loader (F:=Z) (make_loader toy_dataset shuffle) shuffle
    toy_texts toy_labels.
Proof.
  split; [by destruct shuffle|]. split; [reflexivity|]. split; [done|].
  unfold binary_labels. apply (bool_decide_unpack _). by vm_compute.
Qed.

Lemma toy_setup_classifier :
  classifier (model toy_setup) = classifier (__init__ (F:=Z) 2).
Proof. reflexivity. Qed.

Lemma classifier_head_logits_witness :
  ∃ logits,
    forward (F:=Z) (model toy_setup) [[101; 102]%Z] [[1; 1]%Z]
      = Ok logits ∧
    length logits = 1 ∧ Forall (λ row, length row = 2) logits.
Proof.
  destruct (classifier_head_logits (F:=Z) (model toy_setup)
              [[101; 102]%Z] [[1; 1]%Z] toy_pooler_output_shape toy_setup_classifier)
    as (_ & _ & _ & H).
  exact H.
Defined.

Lemma encoder_frozen_during_training_witness :
  ∃ prog',
    training_loop (F:=Z) toy_train_loader toy_val_loader toy_setup
      = Ok prog' ∧
    ∀ name, named_parameters (model prog') !! bert_param name
            = named_parameters (model toy_setup) !! bert_param name.
Proof.
  destruct (training_loop_total (F:=Z)
              toy_train_loader toy_val_loader toy_texts toy_labels toy_texts toy_labels
              toy_setup toy_pooler_output_shape toy_randperm_permutes
              (toy_notebook_loader true) (toy_notebook_loader false)
              toy_setup_classifier)
    as (tobs1 & vobs1 & prog1 & tobs2 & vobs2 & prog2 & Hrun & _).
  exists prog2. split; [exact Hrun|].
  apply (encoder_frozen_during_training (F:=Z)
           toy_train_loader toy_val_loader prog2 Hrun).
Defined.

Lemma training_loop_two_epochs_witness :
  ∃ prog2 lines,
    training_loop (F:=Z) toy_train_loader toy_val_loader toy_setup = Ok prog2 ∧
    stdout prog2 = stdout toy_setup ++ lines ∧ length lines = 8 ∧
    Forall (λ name, steps_taken (optimizer prog2) name = 4) classifier_parameter_names.
Proof.
  destruct (training_loop_two_epochs (F:=Z)
              toy_train_loader toy_val_loader toy_texts toy_labels toy_texts toy_labels
              toy_setup toy_pooler_output_shape toy_randperm_permutes
              (toy_notebook_loader true) (toy_notebook_loader false)
              toy_setup_classifier setup_optimizes)
    as (_ & tobs1 & vobs1 & prog1 & tobs2 & vobs2 & prog2
        & Hrun & _ & _ & Hout & _ & _ & _ & _ & _ & _ & Hsteps).
  exists prog2. eexists. split; [exact Hrun|]. split; [exact Hout|].
  split; [reflexivity|].
  apply Forall_forall. intros name Hname.
  rewrite Hsteps.
  - unfold toy_setup. by rewrite setup_steps_taken.
  - apply elem_of_trainable_params.
    apply (init_classifier_names (F:=Z) 2) in Hname as [[p Hp] (i & f & ->)].
    exists p. split; [exact Hp|]. by eapply init_classifier_param.
Defined.

Lemma accuracy_argmax_compare_witness :
  ∃ prog' test_acc,
    test_evaluation (F:=Z) toy_test_loader toy_setup = Ok prog' ∧
    stdout prog' = stdout toy_setup ++ [print_test_accuracy test_acc 12] ∧
    (0 <= test_acc)%Q ∧ (test_acc <= 1)%Q.
Proof.
  destruct (accuracy_argmax_compare (F:=Z)
              toy_test_loader toy_texts toy_labels
              toy_train_loader toy_val_loader toy_texts toy_labels toy_texts toy_labels
              toy_setup 0 toy_pooler_output_shape toy_randperm_permutes
              (toy_notebook_loader false) (toy_notebook_loader true)
              (toy_notebook_loader false) toy_setup_classifier)
    as [(obs & prog' & test_acc & Hrun & _ & _ & Hout & _ & Hlo & Hhi) _].
  exists prog', test_acc. split; [exact Hrun|]. split; [exact Hout|]. by split.
Defined.

Lemma sentiment_by_argmax_witness :
  ∃ prog' predictions,
    inference (F:=Z) ["wonderful"; "terrible"] toy_setup = Ok prog' ∧
    length predictions = 2 ∧
    stdout prog' = stdout toy_setup ++
      print_predictions predictions ::
      zip_with (λ text pred, print_review text (sentiment pred))
               ["wonderful"; "terrible"] predictions.
Proof.
  destruct (sentiment_by_argmax (F:=Z) ["wonderful"; "terrible"]
              toy_setup toy_pooler_output_shape toy_setup_classifier)
    as (_ & ids & mask & logits & predictions & prog' & _ & _ & _ & _ & Hlen & Hrun & Hout & _).
  exists prog', predictions. split; [exact Hrun|]. split; [exact Hlen|]. exact Hout.
Defined.

(** *** Runs for the further properties *)

Lemma tokenize_function_ignores_tail_witness :
  let long := String.concat EmptyString (replicate 254 "a") in
  tokenize_function (F:=Z) [long +:+ "good"] = tokenize_function (F:=Z) [long +:+ "bad"].
Proof.
  apply (tokenize_function_ignores_tail (F:=Z) [_] [_]).
  repeat constructor.
Defined.

Lemma training_loop_keeps_structure_witness :
  ∃ prog',
    training_loop (F:=Z) toy_train_loader toy_val_loader toy_setup = Ok prog' ∧
    training (model prog') = false ∧
    classifier (model prog') = classifier (model toy_setup) ∧
    ∀ name, name ∈ trainable_params (model prog') ↔ name ∈ trainable_params (model toy_setup).
Proof.
  destruct (training_loop_total (F:=Z)
              toy_train_loader toy_val_loader toy_texts toy_labels toy_texts toy_labels
              toy_setup toy_pooler_output_shape toy_randperm_permutes
              (toy_notebook_loader true) (toy_notebook_loader false)
              toy_setup_classifier)
    as (tobs1 & vobs1 & prog1 & tobs2 & vobs2 & prog2 & Hrun & _).
  destruct (training_loop_keeps_structure (F:=Z) toy_train_loader toy_val_loader
              toy_setup prog2 Hrun) as (Ht & Hc & _ & _ & Htp & _).
  exists prog2. split; [exact Hrun|]. split; [exact Ht|]. split; [exact Hc|]. exact Htp.
Defined.

Lemma backward_after_zero_grad_witness :
  named_parameters
    (backward (F:=Z) (zero_grad (optimizer toy_setup) (model toy_setup))
       [[101; 102]%Z] [[1; 1]%Z] [1%Z])
    !! classifier_param 6 bias
  = Some {| data := [0; 0]%Z; requires_grad := true;
            grad := Some (autograd_grad (F:=Z)
                            (weights (named_parameters
                               (zero_grad (optimizer toy_setup) (model toy_setup))))
                            [[101; 102]%Z] [[1; 1]%Z] [1%Z] (classifier_param 6 bias)) |}.
Proof.
  apply (backward_after_zero_grad (F:=Z) (optimizer toy_setup) (model toy_setup)
           [[101; 102]%Z] [[1; 1]%Z] [1%Z] (classifier_param 6 bias)
           (new_parameter [0; 0]%Z)).
  - apply elem_of_trainable_params. exists (new_parameter [0; 0]%Z).
    split; [by vm_compute | reflexivity].
  - by vm_compute.
  - reflexivity.
Defined.

Lemma trainable_parameter_count_witness :
  N.of_nat (number_of_trainable_parameters (F:=Z) (__init__ 2)) = (557952 + 129 * 2)%N ∧
  N.of_nat (number_of_trainable_parameters (model toy_setup)) = 558210%N.
Proof.
  apply (trainable_parameter_count (F:=Z) 2).
  intros i field n. apply length_replicate.
Defined.

Lemma head_predicts_num_classes_witness :
  ∃ logits predictions,
    forward (F:=Z) (__init__ 3) [[101; 102]%Z] [[1; 1]%Z] = Ok logits ∧
    length logits = 1 ∧
    Forall (λ row, length row = 3) logits ∧
    argmax_dim1 logits = Ok predictions ∧
    length predictions = 1 ∧
    Forall (λ pred, (0 ≤ pred < 3)%Z) predictions.
Proof.
  apply (head_predicts_num_classes (F:=Z) (__init__ 3) 3 [[101; 102]%Z] [[1; 1]%Z]
           toy_pooler_output_shape eq_refl).
  lia.
Defined.

Lemma forward_needs_hidden_size_768_witness :
  @forward Z toy_scalar toy_imports_large (@__init__ Z toy_imports_large 2)
    [[101; 102]%Z] [[1; 1]%Z] = Raise RuntimeError.
Proof.
  apply (@forward_needs_hidden_size_768 Z toy_scalar toy_imports_large
           (@__init__ Z toy_imports_large 2) 2 [[101; 102]%Z] [[1; 1]%Z] eq_refl).
  apply Exists_cons_hd. rewrite length_replicate. lia.
Defined.

Lemma test_evaluation_empty_witness :
  test_evaluation (F:=Z) (make_loader (tokenized_dataset [] []) false) toy_setup
  = Raise ZeroDivisionError.
Proof.
  apply (test_evaluation_empty (F:=Z) (tokenized_dataset [] []) toy_setup).
  reflexivity.
Defined.


Lemma inference_ties_are_negative_witness :
  inference (F:=Z) ["wonderful"] toy_setup =
  Ok {| model := set_training (model toy_setup) false;
        optimizer := optimizer toy_setup;
        default_generator := default_generator toy_setup;
        stdout := [print_predictions [0%Z]; print_review "wonderful" "NEGATIVE"] |}.
Proof.
  eapply (inference_ties_are_negative (F:=Z) ["wonderful"] toy_setup _ _ [[0; 0]%Z]).
  - apply Z.ltb_irrefl.
  - apply tokenizer_input_ids.
  - apply tokenizer_attention_mask.
  - by vm_compute.
  - reflexivity.
  - repeat constructor. by exists 0%Z.
Defined.

Lemma batch_keeps_text_with_label_witness :
  ∃ all_ids all_masks input_ids attention_mask ls,
    tokenize_function (F:=Z) toy_texts !! "input_ids" = Some all_ids ∧
    tokenize_function (F:=Z) toy_texts !! "attention_mask" = Some all_masks ∧
    fetch toy_train_loader [11; 0; 5] ≫= unpack = Ok (input_ids, attention_mask, ls) ∧
    Forall2 (λ i row, all_ids !! i = Some row) [11; 0; 5] input_ids ∧
    Forall2 (λ i row, all_masks !! i = Some row) [11; 0; 5] attention_mask ∧
    Forall2 (λ i l, toy_labels !! i = Some l) [11; 0; 5] ls.
Proof.
  apply (batch_keeps_text_with_label (F:=Z) toy_texts toy_labels true [11; 0; 5]).
  - reflexivity.
  - done.
  - repeat constructor; cbn; lia.
Defined.

Lemma train_body_updates_head_witness :
  let vars := {| tv_model := set_training (model toy_setup) true;
                 tv_optimizer := optimizer toy_setup;
                 total_train_loss := f_zero; total_train_correct := 0;
                 total_examples := 0 |} in
  ∃ vars' g,
    train_body (F:=Z) toy_train_loader vars [11; 10] = Ok vars' ∧
    named_parameters (tv_model vars') !! classifier_param 6 bias
    = Some {| data := [0; 0]%Z; requires_grad := true; grad := Some g |} ∧
    steps_taken (tv_optimizer vars') (classifier_param 6 bias) = 1.
Proof.
  intros vars.
  destruct (train_body_total (F:=Z) toy_train_loader vars [11; 10]
              toy_pooler_output_shape toy_setup_classifier
              (proj2 (proj2 (proj2 (toy_notebook_loader true)))))
    as (vars' & Hrun).
  { apply (fetchable_tokenized (F:=Z) toy_texts toy_labels true [11; 10]);
      [reflexivity | done | repeat constructor; cbn; lia]. }
  destruct (train_body_updates_head (F:=Z) toy_train_loader vars vars' [11; 10]
              (classifier_param 6 bias) (new_parameter [0; 0]%Z))
    as (input_ids & attention_mask & ls & _ & Hp & Hst).
  - apply NoDup_trainable_params.
  - apply elem_of_trainable_params. exists (new_parameter [0; 0]%Z).
    split; [by vm_compute | reflexivity].
  - by vm_compute.
  - reflexivity.
  - exact Hrun.
  - exists vars'. eexists. split; [exact Hrun|]. split; [exact Hp|].
    unfold steps_taken. by rewrite Hst.
Defined.

Lemma fetch_beyond_texts_raises_witness :
  __len__ (tokenized_dataset (F:=Z) ["a"] [1; 0]%Z) = 2 ∧
  fetch (make_loader (tokenized_dataset (F:=Z) ["a"] [1; 0]%Z) false) [0; 1]
  = Raise IndexError.
Proof.
  apply (fetch_beyond_texts_raises (F:=Z) ["a"] [1; 0]%Z false [0; 1]).
  apply Exists_cons_tl, Exists_cons_hd. cbn. lia.
Defined.

(** *** The definitions on small inputs *)

Example py_index_examples :
  py_index [1; 2; 3] 0 = Ok 1 ∧ py_index [1; 2; 3] (-1) = Ok 3 ∧
  py_index [1; 2; 3] 3 = Raise IndexError ∧ py_index [1; 2; 3] (-4) = Raise IndexError.
Proof. repeat split. Qed.

Example tokenizer_pads_and_truncates :
  tokenizer (F:=Z) ["ab"; "abcdef"] 5 to_max_length true !! "input_ids"
    = Some [[101; 97; 98; 102; 0]; [101; 97; 98; 99; 102]]%Z ∧
  tokenizer (F:=Z) ["ab"; "abcdef"] 5 to_max_length true !! "attention_mask"
    = Some [[1; 1; 1; 1; 0]; [1; 1; 1; 1; 1]]%Z ∧
  tokenizer (F:=Z) ["ab"; "abcdef"] 5 do_not_pad false !! "input_ids"
    = Some [[101; 97; 98; 102]; [101; 97; 98; 99; 100; 101; 102; 102]]%Z.
Proof. repeat split. Qed.

Example getitem_examples :
  let ds := {| encodings := {[ "input_ids" := [[1; 2]; [3; 4]]%Z ]};
               labels := [0; 1; 1]%Z |} in
  __len__ ds = 3 ∧
  __getitem__ ds 1 = Ok {[ "input_ids" := vector [3; 4]%Z; "labels" := scalar 1%Z ]} ∧
  __getitem__ ds 2 = Raise IndexError.
Proof. vm_compute. repeat split. Qed.

Example BatchSampler_examples :
  BatchSampler (seq 0 5) 2 false [] = [[0; 1]; [2; 3]; [4]] ∧
  BatchSampler (seq 0 5) 2 true [] = [[0; 1]; [2; 3]] ∧
  BatchSampler (seq 0 4) 2 false [] = [[0; 1]; [2; 3]].
Proof. repeat split. Qed.

Example default_collate_examples :
  default_collate [ {[ "a" := vector [1; 2]%Z; "labels" := scalar 1%Z ]};
                    {[ "a" := vector [3; 4]%Z; "labels" := scalar 0%Z ]} ]
    = Ok {[ "a" := batch_matrix [[1; 2]; [3; 4]]%Z; "labels" := batch_vector [1; 0]%Z ]} ∧
  default_collate [ {[ "a" := vector [1; 2]%Z ]}; {[ "a" := vector [3]%Z ]} ]
    = Raise RuntimeError.
Proof. vm_compute. repeat split. Qed.

Example Linear_forward_examples :
  Linear_forward (F:=Z) [1; 2; 3; 4]%Z [10; 20]%Z 2 2 [1; 1]%Z = Ok [13; 27]%Z ∧
  Linear_forward (F:=Z) [1; 2; 3; 4]%Z [10; 20]%Z 2 2 [1; 1; 1]%Z = Raise RuntimeError ∧
  relu (F:=Z) (-3)%Z = 0%Z ∧ relu (F:=Z) 3%Z = 3%Z.
Proof. repeat split. Qed.

Example argmax_examples :
  argmax (F:=Z) [1; 2]%Z = Ok 1%Z ∧ argmax (F:=Z) [3; 2]%Z = Ok 0%Z ∧
  argmax (F:=Z) [2; 2]%Z = Ok 0%Z ∧
  eq_sum [1; 0; 1]%Z [1; 1; 1]%Z = Ok 2 ∧
  count_correct (F:=Z) [[0; 5]; [4; 1]; [2; 2]]%Z [1; 1; 0]%Z = Ok 2.
Proof. repeat split. Qed.

Example sentiment_examples :
  sentiment 1 = "POSITIVE" ∧ sentiment 0 = "NEGATIVE" ∧ sentiment 2 = "NEGATIVE".
Proof. repeat split. Qed.

(** The sizes the notebook prints: 22500 train and 2500 validation examples
    out of 25000, and 558210 trainable parameters. *)
Lemma split_sizes_multiple_of_ten k :
  n_test (10 * k) = k ∧ n_train (10 * k) = 9 * k.
Proof.
  unfold n_train, n_test.
  assert ((10 * k + 9) / 10 = k) as ->; [|lia].
  symmetry. apply (Nat.div_unique _ _ _ 9); lia.
Qed.

Example trainable_parameters_of_the_head :
  N.of_nat (number_of_trainable_parameters (__init__ (F:=Z) 2)) = 558210%N.
Proof. vm_compute. reflexivity. Qed.

End ToyRuns.
